(** * The parameter conversion engine of the slicer-profile converter

    A shallow embedding of [src/utils.ts] (value utilities), of
    [src/constants.ts] (lookup tables) and of [src/conversion.ts]
    ([convertParams], [calculatePrintParams], [detectIniType]), followed by
    the properties of the specification that are settled against it.

    Beside the engine, the type guards of [src/type-guards.ts], the profile
    reader [readIniFile] of [src/fileIO.ts] and, of the driver
    [src/index.ts], [resetLoop], [askYesToAll] and the loop of [main] over
    the parameters of a profile, with further properties of the whole.

    Conventions of the embedding:
    - a JavaScript string is a [string]; its characters stand for the code
      units below 256;
    - a JavaScript number is a binary64 [float]; [parseFloat],
      [Number::toString] and [Number.prototype.toFixed] follow ECMA-262, with
      exact integer arithmetic for the decimal conversions;
    - an object used as a map is a [gmap] of its own properties; an object
      literal used as a fixed table is the list of its entries; a name that
      an object inherits and does not own (such as [constructor]) is read
      as absent;
    - the source profile, the conversion state and the output map are the
      three objects of a [World]; every operation is a state transformer on
      it, so that what a call leaves untouched is a theorem and not a typing
      accident. *)

From Stdlib Require Import ZArith Floats.PrimFloat Floats.FloatOps Floats.SpecFloat.
From Stdlib Require Import Floats.FloatAxioms.
From Stdlib Require Import Ascii String.
From stdpp Require Import gmap strings list.

(** ** JavaScript strings *)

Module JsString.

Definition code (c : ascii) : Z := Z.of_N (N_of_ascii c).

Definition isDigit (c : ascii) : bool :=
  ((48 <=? code c) && (code c <=? 57))%Z.

(** WhiteSpace and LineTerminator code units (TAB, LF, VT, FF, CR, SP, NBSP). *)
Definition isWhiteSpace (c : ascii) : bool :=
  (((9 <=? code c) && (code c <=? 13)) || (code c =? 32) || (code c =? 160))%Z.

(** The line terminators that the regular-expression dot does not match. *)
Definition isLineTerminator (c : ascii) : bool :=
  ((code c =? 10) || (code c =? 13))%Z.

Definition isEmpty (s : string) : bool :=
  match s with EmptyString => true | String _ _ => false end.

(** ToBoolean on a string: every non-empty string is truthy. *)
Definition truthy (s : string) : bool := negb (isEmpty s).

Fixpoint trimStart (s : string) : string :=
  match s with
  | String c r => if isWhiteSpace c then trimStart r else s
  | EmptyString => EmptyString
  end.

Definition trimEnd (s : string) : string :=
  String.rev (trimStart (String.rev s)).

Definition trim (s : string) : string := trimEnd (trimStart s).

(** [s.includes(c)] for a one-character needle. *)
Fixpoint includes (c : ascii) (s : string) : bool :=
  match s with
  | EmptyString => false
  | String a r => Ascii.eqb a c || includes c r
  end.

(** [s.split(c)] for a one-character separator: the pieces between the
    separators, so never an empty list. *)
Fixpoint split_go (c : ascii) (cur : string) (s : string) : list string :=
  match s with
  | EmptyString => [String.rev cur]
  | String a r =>
      if Ascii.eqb a c then String.rev cur :: split_go c EmptyString r
      else split_go c (String a cur) r
  end.

Definition split (c : ascii) (s : string) : list string :=
  split_go c EmptyString s.

(** [s.slice(0, -1)] *)
Fixpoint dropLast (s : string) : string :=
  match s with
  | EmptyString => EmptyString
  | String _ EmptyString => EmptyString
  | String a r => String a (dropLast r)
  end.

Fixpoint lastChar (s : string) : option ascii :=
  match s with
  | EmptyString => None
  | String a EmptyString => Some a
  | String _ r => lastChar r
  end.

(** The longest run of decimal digits at the head of [s], and the rest. *)
Fixpoint spanDigits (s : string) : string * string :=
  match s with
  | String c r =>
      if isDigit c then let '(d, t) := spanDigits r in (String c d, t)
      else (EmptyString, s)
  | EmptyString => (EmptyString, EmptyString)
  end.

Definition dropSign (s : string) : string :=
  match s with
  | String c r =>
      if Ascii.eqb c "+"%char || Ascii.eqb c "-"%char then r else s
  | EmptyString => s
  end.

(** [^[+-]?\d+(\.\d+)?] followed by exactly the text [close]. *)
Definition matchesNumberThen (close : string) (s : string) : bool :=
  let '(d1, r1) := spanDigits (dropSign s) in
  negb (isEmpty d1) &&
  (String.eqb r1 close ||
   match r1 with
   | String c r2 =>
       Ascii.eqb c "."%char &&
       (let '(d2, r3) := spanDigits r2 in
        negb (isEmpty d2) && String.eqb r3 close)
   | EmptyString => false
   end).

(** [s.replace(/%$/, '')] *)
Definition stripTrailingPercent (s : string) : string :=
  match lastChar s with
  | Some c => if Ascii.eqb c "%"%char then dropLast s else s
  | None => s
  end.

(** [s.replace(/xy/g, z)] for a two-character literal [xy]: the matches are
    taken left to right and do not overlap. *)
Fixpoint replaceAll2 (x y : ascii) (z : ascii) (s : string) : string :=
  match s with
  | String a ((String b r) as t) =>
      if Ascii.eqb a x && Ascii.eqb b y then String z (replaceAll2 x y z r)
      else String a (replaceAll2 x y z t)
  | _ => s
  end.

(** [s.replace(/x/g, z)] for a one-character literal. *)
Fixpoint replaceAll1 (x z : ascii) (s : string) : string :=
  match s with
  | String a r => String (if Ascii.eqb a x then z else a) (replaceAll1 x z r)
  | EmptyString => EmptyString
  end.

Fixpoint noLineTerminator (s : string) : bool :=
  match s with
  | String a r => negb (isLineTerminator a) && noLineTerminator r
  | EmptyString => true
  end.

(** The replacement of a whole-string match of: double quote, any run of
    characters other than line terminators (captured), double quote, by
    the captured run: one layer of surrounding quotes is removed. *)
Definition stripQuotes (s : string) : string :=
  match s with
  | String q r =>
      if Ascii.eqb q "034"%char then
        match lastChar r with
        | Some q' =>
            if Ascii.eqb q' "034"%char && noLineTerminator (dropLast r)
            then dropLast r else s
        | None => s
        end
      else s
  | EmptyString => s
  end.

Fixpoint allZeros (s : string) : bool :=
  match s with
  | String a r => Ascii.eqb a "0"%char && allZeros r
  | EmptyString => true
  end.

(** Does the whole of [s] match [\.?0+] ? *)
Definition isDotZeros (s : string) : bool :=
  match s with
  | String a r =>
      if Ascii.eqb a "."%char then negb (isEmpty r) && allZeros r
      else allZeros s
  | EmptyString => false
  end.

(** [s.replace(/\.?0+$/, '')]: the leftmost suffix of the form [\.?0+] is
    removed. *)
Fixpoint stripDotZeros (s : string) : string :=
  if isDotZeros s then EmptyString
  else match s with
       | String a r => String a (stripDotZeros r)
       | EmptyString => EmptyString
       end.

Fixpoint startsWith (p s : string) : bool :=
  match p, s with
  | EmptyString, _ => true
  | String a p', String b s' => Ascii.eqb a b && startsWith p' s'
  | String _ _, EmptyString => false
  end.

End JsString.

(** ** JavaScript numbers *)

Module JsNumber.
Import JsString.
Local Open Scope Z_scope.

Definition digitVal (c : ascii) : Z := code c - 48.

Definition digitChar (d : Z) : ascii := ascii_of_N (Z.to_N (48 + d)).

(** The integer written by a string of decimal digits. *)
Fixpoint digitsValue (s : string) (acc : Z) : Z :=
  match s with
  | String c r => digitsValue r (10 * acc + digitVal c)
  | EmptyString => acc
  end.

Definition strlen (s : string) : Z := Z.of_nat (String.length s).

(** The decimal digits of a non-negative integer. *)
Fixpoint intDigits (fuel : nat) (n : Z) (acc : string) : string :=
  match fuel with
  | O => acc
  | S f =>
      let acc' := String (digitChar (n mod 10)) acc in
      if n <? 10 then acc' else intDigits f (n / 10) acc'
  end.

Definition intToString (n : Z) : string :=
  intDigits (S (Z.to_nat (Z.log2 n))) n EmptyString.

Fixpoint zeros (n : nat) : string :=
  match n with O => EmptyString | S k => String "0"%char (zeros k) end.

(** *** From an exact rational to the nearest binary64 *)

(** [p / (q * 2^e)] as a fraction of integers. *)
Definition scaled (p q e : Z) : Z * Z :=
  (p * 2 ^ Z.max 0 (- e), q * 2 ^ Z.max 0 e).

Definition roundHalfEven (num den : Z) : Z :=
  let m := num / den in
  let r := num mod den in
  if (den <? 2 * r) || ((den =? 2 * r) && Z.odd m) then m + 1 else m.

(** The binary64 nearest to [p / q] (ties to even), for [0 < p], [0 < q]. *)
Definition ofRational (p q : Z) : float :=
  let e1 := Z.log2 p - Z.log2 q - 52 in
  let '(n1, d1) := scaled p q e1 in
  let e2 := if n1 <? 2 ^ 52 * d1 then e1 - 1 else e1 in
  let e3 := Z.max e2 (-1074) in
  let '(n, d) := scaled p q e3 in
  let m := roundHalfEven n d in
  let '(m', e') := if m =? 2 ^ 53 then (2 ^ 52, e3 + 1) else (m, e3) in
  match m' with
  | Zpos pm => if 971 <? e' then PrimFloat.infinity else SF2Prim (S754_finite false pm e')
  | _ => PrimFloat.zero
  end.

(** The binary64 nearest to [mant * 10^e10], for [0 <= mant].  The two
    early exits only avoid huge powers: there the result is already
    decided. *)
Definition ofDecimal (mant e10 : Z) : float :=
  if mant =? 0 then PrimFloat.zero
  else if 310 <=? e10 then PrimFloat.infinity
  else if Z.log2 mant / 3 + 1 + e10 <=? -324 then PrimFloat.zero
  else if 0 <=? e10 then ofRational (mant * 10 ^ e10) 1
  else ofRational mant (10 ^ (- e10)).

(** *** parseFloat *)

Definition readSign (s : string) : bool * string :=
  match s with
  | String c r =>
      if Ascii.eqb c "-"%char then (true, r)
      else if Ascii.eqb c "+"%char then (false, r)
      else (false, s)
  | EmptyString => (false, s)
  end.

(** The value of an ExponentPart at the head of [s], 0 when there is none. *)
Definition readExponent (s : string) : Z :=
  match s with
  | String c r =>
      if Ascii.eqb c "e"%char || Ascii.eqb c "E"%char then
        let '(neg, r1) := readSign r in
        let '(ds, _) := spanDigits r1 in
        if isEmpty ds then 0
        else if neg then - digitsValue ds 0 else digitsValue ds 0
      else 0
  | EmptyString => 0
  end.

(** [parseFloat(s)]: the number written by the longest prefix of the
    trimmed text that is a StrDecimalLiteral, NaN when there is none. *)
Definition parseFloat (input : string) : float :=
  let '(neg, s1) := readSign (trimStart input) in
  let sign (x : float) : float := if neg then PrimFloat.opp x else x in
  if startsWith "Infinity" s1 then sign PrimFloat.infinity
  else
    let '(ip, r1) := spanDigits s1 in
    let '(fp, r2) :=
      match r1 with
      | String c r =>
          if Ascii.eqb c "."%char then
            let '(fp, r2) := spanDigits r in
            if isEmpty ip && isEmpty fp then (EmptyString, r1) else (fp, r2)
          else (EmptyString, r1)
      | EmptyString => (EmptyString, r1)
      end in
    if isEmpty ip && isEmpty fp then PrimFloat.nan
    else
      sign (ofDecimal (digitsValue (ip +:+ fp) 0) (readExponent r2 - strlen fp)).

(** *** Number::toString *)

(** Is [vn / vd >= 10^k] ? *)
Definition geqPow10 (vn vd k : Z) : bool :=
  if 0 <=? k then 10 ^ k * vd <=? vn else vd <=? vn * 10 ^ (- k).

(** The [n] with [10^(n-1) <= vn/vd < 10^n], from an estimate. *)
Fixpoint adjustMagnitude (fuel : nat) (vn vd n : Z) : Z :=
  match fuel with
  | O => n
  | S f =>
      if negb (geqPow10 vn vd (n - 1)) then adjustMagnitude f vn vd (n - 1)
      else if geqPow10 vn vd n then adjustMagnitude f vn vd (n + 1)
      else n
  end.

Definition magnitude (vn vd : Z) : Z :=
  adjustMagnitude 8 vn vd ((Z.log2 vn - Z.log2 vd) * 1233 / 4096 + 1).

(** The shortest digit string [s] (of [k] digits, [k] counted up from
    [k0]) such that [s * 10^(n-k)] reads back as [x]; of two such strings
    of one length, the nearer to [x]. *)
Fixpoint shortest (fuel : nat) (x : float) (vn vd n k : Z) : Z * Z :=
  let a := vn * 10 ^ Z.max 0 (k - n) in
  let b := vd * 10 ^ Z.max 0 (n - k) in
  let lo := a / b in
  let hi := lo + 1 in
  let okLo := PrimFloat.eqb (ofDecimal lo (n - k)) x in
  let okHi := PrimFloat.eqb (ofDecimal hi (n - k)) x in
  let d := 2 * a - (2 * lo + 1) * b in
  let nearer := if d <? 0 then lo else if 0 <? d then hi
                else if Z.even lo then lo else hi in
  match fuel with
  | O => (nearer, k)
  | S f =>
      if okLo && okHi then (nearer, k)
      else if okLo then (lo, k)
      else if okHi then (hi, k)
      else shortest f x vn vd n (k + 1)
  end.

Fixpoint stripZerosRev (s : string) : string :=
  match s with
  | String c r => if Ascii.eqb c "0"%char then stripZerosRev r else s
  | EmptyString => EmptyString
  end.

Definition stripTrailingZeros (s : string) : string :=
  String.rev (stripZerosRev (String.rev s)).

Fixpoint takeStr (n : nat) (s : string) : string :=
  match n, s with
  | S k, String c r => String c (takeStr k r)
  | _, _ => EmptyString
  end.

Fixpoint dropStr (n : nat) (s : string) : string :=
  match n, s with
  | S k, String _ r => dropStr k r
  | _, _ => s
  end.

(** The text of the positive finite number [m * 2^e] that reads back as [x]. *)
Definition positiveToString (x : float) (m : positive) (e : Z) : string :=
  let '(vn, vd) := scaled (Zpos m) 1 (- e) in
  let n0 := magnitude vn vd in
  let '(s, k0) := shortest 17 x vn vd n0 1 in
  let all := intToString s in
  let n := n0 + (strlen all - k0) in
  let ds := stripTrailingZeros all in
  let k := strlen ds in
  if (k <=? n) && (n <=? 21) then ds +:+ zeros (Z.to_nat (n - k))
  else if (0 <? n) && (n <=? 21) then
    takeStr (Z.to_nat n) ds +:+ "." +:+ dropStr (Z.to_nat n) ds
  else if (-6 <? n) && (n <=? 0) then "0." +:+ zeros (Z.to_nat (- n)) +:+ ds
  else
    let ex := n - 1 in
    let tail := "e" +:+ (if 0 <=? ex then "+" else "-") +:+ intToString (Z.abs ex) in
    if k =? 1 then ds +:+ tail
    else takeStr 1 ds +:+ "." +:+ dropStr 1 ds +:+ tail.

(** [String(x)] *)
Definition toString (x : float) : string :=
  match Prim2SF x with
  | S754_nan => "NaN"
  | S754_zero _ => "0"
  | S754_infinity s => if s then "-Infinity" else "Infinity"
  | S754_finite s m e =>
      (if s then "-" else "") +:+ positiveToString (PrimFloat.abs x) m e
  end.

(** [x.toFixed(1)] *)
Definition toFixed1 (x : float) : string :=
  match Prim2SF x with
  | S754_finite s m e =>
      let '(vn, vd) := scaled (Zpos m) 1 (- e) in
      if 10 ^ 21 * vd <=? vn then toString x
      else
        let n := (20 * vn + vd) / (2 * vd) in
        let ds := intToString n in
        let ds := if strlen ds <=? 1 then "0" +:+ ds else ds in
        (if s then "-" else "") +:+ dropLast ds +:+ "." +:+
        match lastChar ds with Some c => String c EmptyString | None => "" end
  | S754_zero _ => "0.0"
  | _ => toString x
  end.

(** ToBoolean on a number: 0, -0 and NaN are falsy. *)
Definition truthyNumber (x : float) : bool :=
  negb (PrimFloat.eqb x PrimFloat.zero || PrimFloat.is_nan x).

Definition ofZ (n : Z) : float := ofDecimal n 0.

End JsNumber.

(** ** Value utilities ([utils.ts]) *)

Import JsString.

(** A value of type [string | number | undefined]. *)
Inductive JsVal : Type :=
  | VUndef
  | VStr (s : string)
  | VNum (x : float).

(** ToBoolean *)
Definition truthyVal (v : JsVal) : bool :=
  match v with
  | VUndef => false
  | VStr s => truthy s
  | VNum x => JsNumber.truthyNumber x
  end.

(** [String(v)] *)
Definition stringOfVal (v : JsVal) : string :=
  match v with
  | VUndef => "undefined"
  | VStr s => s
  | VNum x => JsNumber.toString x
  end.

(** A [string | undefined] read as a [JsVal]. *)
Definition valOfOpt (o : option string) : JsVal :=
  match o with Some s => VStr s | None => VUndef end.

(** ToBoolean on a [string | undefined]. *)
Definition truthyOpt (o : option string) : bool :=
  match o with Some s => truthy s | None => false end.

(** [a || d] where [a] is a [string | undefined] and [d] a string. *)
Definition orElse (a : option string) (d : string) : string :=
  match a with
  | Some s => if truthy s then s else d
  | None => d
  end.

(** [a || b] on [string | undefined] operands. *)
Definition orOpt (a b : option string) : option string :=
  if truthyOpt a then a else b.

Definition isDecimal (value : option string) : bool :=
  match value with
  | Some s => truthy s && matchesNumberThen "" s
  | None => false
  end.

Definition isPercent (value : option string) : bool :=
  match value with
  | Some s => truthy s && matchesNumberThen "%" s
  | None => false
  end.

Definition removePercent (value : option string) : string :=
  match value with
  | Some s => if truthy s then stripTrailingPercent s else ""
  | None => ""
  end.

Definition multivalueToArray (inputString : option string) : list string :=
  match inputString with
  | Some s =>
      if truthy s then
        let delimiter := if includes ","%char s then ","%char else ";"%char in
        map trim (split delimiter s)
      else []
  | None => []
  end.

Definition unbackslash (str : string) : string :=
  replaceAll2 "\"%char "'"%char "'"%char
    (replaceAll2 "\"%char "034"%char "034"%char
      (replaceAll2 "\"%char "\"%char "\"%char
        (replaceAll2 "\"%char "r"%char "013"%char
          (replaceAll2 "\"%char "t"%char "009"%char
            (replaceAll2 "\"%char "n"%char "010"%char str))))).

Definition hundred : float := JsNumber.ofZ 100.
Definition two : float := JsNumber.ofZ 2.

Definition percentToFloat (subjectValue : option string) : string :=
  if negb (truthyOpt subjectValue) || negb (isPercent subjectValue) then
    orElse subjectValue ""
  else
    let newFloat :=
      PrimFloat.div (JsNumber.parseFloat (removePercent subjectValue)) hundred in
    if PrimFloat.ltb two newFloat then "2" else JsNumber.toString newFloat.

(** [typeof v === 'number' ? v : parseFloat(String(v))] *)
Definition numericOf (v : JsVal) : float :=
  match v with
  | VNum x => x
  | _ => JsNumber.parseFloat (stringOfVal v)
  end.

Definition isEmptyStringVal (v : JsVal) : bool :=
  match v with VStr s => isEmpty s | _ => false end.

Definition percentToMm (mmComparator : JsVal) (percentParam : option string)
  : option string :=
  if negb (truthyVal mmComparator) || negb (truthyOpt percentParam) then None
  else if isEmptyStringVal mmComparator || isEmptyStringVal (valOfOpt percentParam)
  then None
  else if negb (isPercent percentParam) then percentParam
  else if isPercent (Some (stringOfVal mmComparator)) then None
  else
    let mmVal := numericOf mmComparator in
    let percentVal := JsNumber.parseFloat (removePercent percentParam) in
    Some (JsNumber.toString (PrimFloat.mul mmVal (PrimFloat.div percentVal hundred))).

Definition mmToPercent (mmComparator : JsVal) (mmParam : option string)
  : option string :=
  if negb (truthyVal mmComparator) || negb (truthyOpt mmParam) then None
  else if isPercent mmParam then mmParam
  else if isPercent (Some (stringOfVal mmComparator)) then None
  else
    let comparator := numericOf mmComparator in
    let param := JsNumber.parseFloat (orElse mmParam "") in
    if PrimFloat.eqb comparator PrimFloat.zero then None
    else
      Some (JsNumber.toString (PrimFloat.mul (PrimFloat.div param comparator) hundred)
            +:+ "%").

(** ToBoolean on a [boolean | undefined]. *)
Definition truthyFlag (b : option bool) : bool :=
  match b with Some true => true | _ => false end.

Definition evaluatePrintOrder (externalPerimetersFirst infillFirst : option bool)
  : string :=
  let e := truthyFlag externalPerimetersFirst in
  let i := truthyFlag infillFirst in
  if negb e && negb i then "inner wall/outer wall/infill"
  else if e && negb i then "outer wall/inner wall/infill"
  else if negb e && i then "infill/inner wall/outer wall"
  else if e && i then "infill/outer wall/inner wall"
  else "inner wall/outer wall/infill".

Definition evaluateIroningType (ironing : option bool) (ironingType : option string)
  : string :=
  if truthyFlag ironing then orElse ironingType "no ironing"
  else "no ironing".

(** ** Lookup tables ([constants.ts]) *)

(** An object literal used as a fixed table: its entries, in source order. *)
Definition Table (V : Type) : Type := list (string * V).

(** [table[key]] *)
Fixpoint tableGet {V : Type} (t : Table V) (key : string) : option V :=
  match t with
  | [] => None
  | (k, v) :: r => if String.eqb key k then Some v else tableGet r key
  end.

Definition filamentTypes : Table string :=
  [("PET", "PETG"); ("FLEX", "TPU"); ("NYLON", "PA")].

Definition defaultMVS : Table string :=
  [("PLA", "15"); ("PET", "10"); ("ABS", "12"); ("ASA", "12"); ("FLEX", "3.2");
   ("NYLON", "12"); ("PVA", "12"); ("PC", "12"); ("PSU", "8"); ("HIPS", "8");
   ("EDGE", "8"); ("NGEN", "8"); ("PP", "8"); ("PEI", "8"); ("PEEK", "8");
   ("PEKK", "8"); ("POM", "8"); ("PVDF", "8"); ("SCAFF", "8")].

Definition speedSequence : list string :=
  ["perimeter_speed"; "external_perimeter_speed"; "solid_infill_speed";
   "infill_speed"; "small_perimeter_speed"; "top_solid_infill_speed";
   "gap_fill_speed"; "support_material_speed";
   "support_material_interface_speed"; "bridge_speed"; "first_layer_speed";
   "first_layer_infill_speed"].

Definition speedParams : Table string :=
  [("perimeter_speed", "inner_wall_speed");
   ("external_perimeter_speed", "outer_wall_speed");
   ("small_perimeter_speed", "small_perimeter_speed");
   ("solid_infill_speed", "internal_solid_infill_speed");
   ("infill_speed", "sparse_infill_speed");
   ("top_solid_infill_speed", "top_surface_speed");
   ("gap_fill_speed", "gap_infill_speed");
   ("support_material_speed", "support_speed");
   ("support_material_interface_speed", "support_interface_speed");
   ("bridge_speed", "bridge_speed");
   ("first_layer_speed", "initial_layer_speed");
   ("first_layer_infill_speed", "initial_layer_infill_speed")].

Definition seamPositions : Table string :=
  [("cost", "nearest"); ("random", "random"); ("allrandom", "random");
   ("aligned", "aligned"); ("contiguous", "aligned"); ("rear", "back");
   ("nearest", "nearest")].

Definition infillTypes : Table string :=
  [("3dhoneycomb", "3dhoneycomb"); ("adaptivecubic", "adaptivecubic");
   ("alignedrectilinear", "alignedrectilinear");
   ("archimedeanchords", "archimedeanchords"); ("concentric", "concentric");
   ("concentricgapfill", "concentric"); ("cubic", "cubic"); ("grid", "grid");
   ("gyroid", "gyroid"); ("hilbertcurve", "hilbertcurve");
   ("honeycomb", "honeycomb"); ("lightning", "lightning"); ("line", "line");
   ("monotonic", "monotonic"); ("monotonicgapfill", "monotonic");
   ("monotoniclines", "monotonicline"); ("octagramspiral", "octagramspiral");
   ("rectilinear", "zig-zag"); ("rectilineargapfill", "zig-zag");
   ("rectiwithperimeter", "zig-zag"); ("sawtooth", "zig-zag");
   ("scatteredrectilinear", "zig-zag"); ("smooth", "monotonic");
   ("smoothhilbert", "hilbertcurve"); ("smoothtriple", "triangles");
   ("stars", "tri-hexagon"); ("supportcubic", "supportcubic");
   ("triangles", "triangles")].

Definition supportStyles : Table (string * string) :=
  [("grid", ("normal", "grid")); ("snug", ("normal", "snug"));
   ("tree", ("tree", "default")); ("organic", ("tree", "organic"))].

Definition supportPatterns : Table bool :=
  [("rectilinear", true); ("rectilinear-grid", true); ("honeycomb", true);
   ("lightning", true); ("default", true); ("hollow", true)].

Definition interfacePatterns : Table bool :=
  [("auto", true); ("rectilinear", true); ("concentric", true);
   ("rectilinear_interlaced", true); ("grid", true)].

Definition gcodeFlavors : Table string :=
  [("klipper", "klipper"); ("mach3", "reprapfirmware");
   ("machinekit", "reprapfirmware"); ("makerware", "reprapfirmware");
   ("marlin", "marlin"); ("marlin2", "marlin2");
   ("no-extrusion", "reprapfirmware"); ("repetier", "reprapfirmware");
   ("reprap", "reprapfirmware"); ("reprapfirmware", "reprapfirmware");
   ("sailfish", "reprapfirmware"); ("smoothie", "reprapfirmware");
   ("teacup", "reprapfirmware"); ("sprinter", "reprapfirmware")].

Definition hostTypes : Table string :=
  [("repetier", "repetier"); ("prusalink", "prusalink");
   ("prusaconnect", "prusaconnect"); ("octoprint", "octoprint");
   ("moonraker", "octoprint"); ("mks", "mks"); ("klipper", "octoprint");
   ("flashair", "flashair"); ("duet", "duet"); ("astrobox", "astrobox")].

Definition zhopEnforcement : Table string :=
  [("All surfaces", "All Surfaces"); ("Not on top", "Bottom Only");
   ("Only on top", "Top Only")].

Definition thumbnailFormat : Table string :=
  [("PNG", "PNG"); ("JPG", "JPG"); ("QOI", "QOI"); ("BIQU", "BTT_TFT")].

Inductive MultivalueParamType : Type := single | array.

Definition multivalueParams : Table MultivalueParamType :=
  [("max_layer_height", single); ("min_layer_height", single);
   ("deretract_speed", single); ("default_filament_profile", single);
   ("machine_max_acceleration_e", array);
   ("machine_max_acceleration_extruding", array);
   ("machine_max_acceleration_retracting", array);
   ("machine_max_acceleration_travel", array);
   ("machine_max_acceleration_x", array); ("machine_max_acceleration_y", array);
   ("machine_max_acceleration_z", array); ("machine_max_feedrate_e", array);
   ("machine_max_feedrate_x", array); ("machine_max_feedrate_y", array);
   ("machine_max_feedrate_z", array); ("machine_max_jerk_e", array);
   ("machine_max_jerk_x", array); ("machine_max_jerk_y", array);
   ("machine_max_jerk_z", array); ("machine_min_extruding_rate", array);
   ("machine_min_travel_rate", array); ("nozzle_diameter", single);
   ("bed_shape", array); ("retract_before_wipe", single);
   ("retract_length_toolchange", single);
   ("retract_restart_extra_toolchange", single);
   ("retract_restart_extra", single); ("retract_layer_change", single);
   ("retract_length", single); ("retract_lift", single);
   ("retract_before_travel", single); ("retract_speed", single);
   ("thumbnails", array); ("extruder_offset", single);
   ("retract_lift_above", single); ("retract_lift_below", single);
   ("wipe", single)].

(** ** Data model ([types.ts]) *)

Inductive SlicerFlavor : Type := PrusaSlicer | SuperSlicer | Unknown.

Definition isSuperSlicer (f : option SlicerFlavor) : bool :=
  match f with Some SuperSlicer => true | _ => false end.

Definition isPrusaSlicer (f : option SlicerFlavor) : bool :=
  match f with Some PrusaSlicer => true | _ => false end.

Record Dirs : Type := mkDirs {
  dirOutput : option string;
  dirData : string;
  dirSlicer : option string;
  dirTemp : option string }.

Record ToVar : Type := mkToVar {
  externalPerimetersFirst : option bool;
  infillFirst : option bool;
  ironing : option bool }.

Record ResetFlags : Type := mkResetFlags {
  resetOnExisting : bool;
  resetPhysicalPrinter : bool;
  resetNozzleSize : bool;
  resetInherits : bool;
  resetCompatiblePrintersCondition : bool;
  resetCompatiblePrintsCondition : bool }.

Record StatusValue : Type := mkStatusValue {
  onExisting : option string;
  physicalPrinter : option string;
  nozzleSize : option float;
  inherits : option string;
  compatiblePrintersCondition : option string;
  compatiblePrintsCondition : option string }.

(** The conversion state.  [iniType] holds whatever string the caller put
    there: [detectIniType] hands an explicit [ini_type] through as it is. *)
Record Status : Type := mkStatus {
  forceOut : bool;
  legacyOverwrite : bool;
  maxTemp : float;
  interactiveMode : bool;
  outdirWasProvided : bool;
  slicerFlavor : option SlicerFlavor;
  iniType : option string;
  profileName : option string;
  ironingType : option string;
  iterationsLeft : option float;
  dirs : Dirs;
  toVar : ToVar;
  reset : ResetFlags;
  value : StatusValue }.

Definition setToVar (f : ToVar -> ToVar) (st : Status) : Status :=
  mkStatus (forceOut st) (legacyOverwrite st) (maxTemp st) (interactiveMode st)
    (outdirWasProvided st) (slicerFlavor st) (iniType st) (profileName st)
    (ironingType st) (iterationsLeft st) (dirs st) (f (toVar st)) (reset st)
    (value st).

Definition setIroningType (t : option string) (st : Status) : Status :=
  mkStatus (forceOut st) (legacyOverwrite st) (maxTemp st) (interactiveMode st)
    (outdirWasProvided st) (slicerFlavor st) (iniType st) (profileName st)
    t (iterationsLeft st) (dirs st) (toVar st) (reset st) (value st).

Definition setValue (f : StatusValue -> StatusValue) (st : Status) : Status :=
  mkStatus (forceOut st) (legacyOverwrite st) (maxTemp st) (interactiveMode st)
    (outdirWasProvided st) (slicerFlavor st) (iniType st) (profileName st)
    (ironingType st) (iterationsLeft st) (dirs st) (toVar st) (reset st)
    (f (value st)).

Definition setExternalPerimetersFirst (b : bool) (t : ToVar) : ToVar :=
  mkToVar (Some b) (infillFirst t) (ironing t).

Definition setInfillFirst (b : bool) (t : ToVar) : ToVar :=
  mkToVar (externalPerimetersFirst t) (Some b) (ironing t).

Definition setIroning (b : bool) (t : ToVar) : ToVar :=
  mkToVar (externalPerimetersFirst t) (infillFirst t) (Some b).

Definition setCompatiblePrintersCondition (c : string) (v : StatusValue)
  : StatusValue :=
  mkStatusValue (onExisting v) (physicalPrinter v) (nozzleSize v) (inherits v)
    (Some c) (compatiblePrintsCondition v).

Definition setCompatiblePrintsCondition (c : string) (v : StatusValue)
  : StatusValue :=
  mkStatusValue (onExisting v) (physicalPrinter v) (nozzleSize v) (inherits v)
    (compatiblePrintersCondition v) (Some c).

(** A value of the output map: [string | number | string[]]. *)
Inductive HVal : Type :=
  | HStr (s : string)
  | HNum (x : float)
  | HArr (l : list string).

(** A target of the parameter map: one key, or the keys of a fan-out. *)
Inductive Target : Type :=
  | TKey (k : string)
  | TKeys (ks : list string).

(** The parameter map: per profile type, in the key order of the object (an
    object holds each key once), the map from source parameter names to
    targets. *)
Definition ParameterMap : Type := list (string * gmap string Target).

(** What the interactive collaborator resolves to: [string | string[]].  A
    menu left through its quit entry ends the process and resolves to
    nothing; only answers are modelled. *)
Inductive MenuChoice : Type :=
  | ChoiceStr (c : string)
  | ChoiceList (cs : list string).

Definition Menu : Type := string -> bool -> list string -> MenuChoice.

(** What [convertParams] resolves to: [string | string[] | undefined]. *)
Inductive Converted : Type :=
  | RUndef
  | RStr (s : string)
  | RArr (l : list string).

(** The objects a conversion pass works on, and the prompts issued so far.
    The source profile and the output map are two objects: the caller reads
    the first from a file and starts the second empty for each profile. *)
Record World : Type := mkWorld {
  sourceIni : gmap string string;
  status : Status;
  newHash : gmap string HVal;
  prompts : list string }.

(** ** State transformers on the world *)

Definition M (A : Type) : Type := World -> A * World.

Global Instance M_ret : MRet M := fun A (a : A) (w : World) => (a, w).

Global Instance M_bind : MBind M :=
  fun A B (k : A -> M B) (m : M A) (w : World) => let '(a, w') := m w in k a w'.

Definition reads {A : Type} (f : World -> A) : M A := fun w => (f w, w).

Definition modifyStatus (f : Status -> Status) : M unit :=
  fun w => (tt, mkWorld (sourceIni w) (f (status w)) (newHash w) (prompts w)).

(** [newHash[key] = v] *)
Definition setOutput (key : string) (v : HVal) : M unit :=
  fun w => (tt, mkWorld (sourceIni w) (status w) (<[key := v]> (newHash w)) (prompts w)).

(** [await displayMenu(prompt, isSingleOption, options)] *)
Definition ask (displayMenu : Menu) (prompt : string) (isSingleOption : bool)
    (options : list string) : M MenuChoice :=
  fun w => (displayMenu prompt isSingleOption options,
            mkWorld (sourceIni w) (status w) (newHash w) (prompts w ++ [prompt])).

Fixpoint forEach {A : Type} (body : A -> M unit) (l : list A) : M unit :=
  match l with
  | [] => mret tt
  | a :: r => body a ;; forEach body r
  end.

(** [sourceIni[key]] *)
Definition source (w : World) (key : string) : option string := sourceIni w !! key.

(** [typeof newHash[key] === 'string' ? newHash[key] : ''] *)
Definition outputString (w : World) (key : string) : string :=
  match newHash w !! key with
  | Some (HStr s) => s
  | _ => ""
  end.

(** [String(status.value.nozzleSize || '')] *)
Definition nozzleString (st : Status) : string :=
  match nozzleSize (value st) with
  | Some x => if JsNumber.truthyNumber x then JsNumber.toString x else ""
  | None => ""
  end.

(** ** The conversion engine ([conversion.ts]) *)

Definition esc : string := String "027"%char EmptyString.
Definition nl : string := String "010"%char EmptyString.
Definition tab : string := String "009"%char EmptyString.

(** The text put to the operator about a compatibility condition. *)
Definition promptText (file : option string) (iniType : option string)
    (parameter newValue affectedProfile : string) : string :=
  let ty := stringOfVal (valOfOpt iniType) in
  "The " +:+ esc +:+ "[1m" +:+ orElse file "profile" +:+ esc +:+ "[0m " +:+ ty
  +:+ " profile has the following " +:+ esc +:+ "[1m" +:+ parameter +:+ esc
  +:+ "[0m value:" +:+ nl +:+ nl +:+ tab +:+ esc +:+ "[40m" +:+ esc +:+ "[0;93m"
  +:+ newValue +:+ esc +:+ "[0m" +:+ nl +:+ nl
  +:+ "If you keep this value, this " +:+ ty
  +:+ " profile will not be visible in OrcaSlicer unless you have selected a "
  +:+ affectedProfile
  +:+ " that satisfies all the conditions specified above. If you discard this value, this "
  +:+ ty +:+ " profile will be visible regardless of which " +:+ affectedProfile
  +:+ " you have selected." +:+ nl +:+ nl
  +:+ "Do you want to KEEP this value or DISCARD it?" +:+ nl +:+ nl.

(** [parameter.split('_')[1]?.slice(0, -1) || 'profile'] *)
Definition affectedProfile (parameter : string) : string :=
  orElse (dropLast <$> (split "_"%char parameter !! 1%nat)) "profile".

Section Engine.

(** The parameter map is data of [parameterMap.ts]; the menu is the
    interactive collaborator of [menu.ts]. *)
Variable parameterMap : ParameterMap.
Variable displayMenu : Menu.

Definition unbackslashGcode (newValue : string) : M string :=
  reads (fun _ =>
    if negb (truthy newValue) then ""
    else unbackslash (stripQuotes newValue)).

Definition handleCompatibleCondition (parameter : string) (file : option string)
    (newValue : string) : M string :=
  if String.eqb parameter "compatible_printers_condition" then
    slot ← reads (fun w => compatiblePrintersCondition (value (status w)));
    if bool_decide (slot = Some "DISCARD") then mret ""
    else if isEmpty newValue || bool_decide (slot = Some "KEEP") then mret newValue
    else
      ty ← reads (fun w => iniType (status w));
      choice ← ask displayMenu
        (promptText file ty parameter newValue (affectedProfile parameter))
        true ["KEEP"; "DISCARD"];
      match choice with
      | ChoiceStr c =>
          modifyStatus (setValue (setCompatiblePrintersCondition c));;
          mret (if String.eqb c "KEEP" then newValue else "")
      | ChoiceList _ => mret ""
      end
  else if String.eqb parameter "compatible_prints_condition" then
    slot ← reads (fun w => compatiblePrintsCondition (value (status w)));
    if bool_decide (slot = Some "DISCARD") then mret ""
    else if isEmpty newValue || bool_decide (slot = Some "KEEP") then mret newValue
    else
      ty ← reads (fun w => iniType (status w));
      choice ← ask displayMenu
        (promptText file ty parameter newValue (affectedProfile parameter))
        true ["KEEP"; "DISCARD"];
      match choice with
      | ChoiceStr c =>
          modifyStatus (setValue (setCompatiblePrintsCondition c));;
          mret (if String.eqb c "KEEP" then newValue else "")
      | ChoiceList _ => mret ""
      end
  else mret newValue.

(** *** The special-case rules, one closure per parameter name *)

Definition rule_filament_type (newValue : string) : M string :=
  reads (fun _ => orElse (tableGet filamentTypes newValue) newValue).

Definition rule_filament_max_volumetric_speed (newValue : string) : M string :=
  reads (fun w =>
    let val := JsNumber.parseFloat newValue in
    if PrimFloat.ltb PrimFloat.zero val then JsNumber.toString val
    else orElse (tableGet defaultMVS (orElse (source w "filament_type") "")) "15").

Definition rule_draft_shield (newValue : string) : M string :=
  reads (fun _ =>
    if String.eqb newValue "disabled" then "0"
    else if String.eqb newValue "enabled" then "1"
    else newValue).

Definition rule_external_perimeter_fan_speed (newValue : string) : M string :=
  reads (fun _ =>
    let val := JsNumber.parseFloat newValue in
    if PrimFloat.ltb val PrimFloat.zero then "0%"
    else JsNumber.toString val +:+ "%").

Definition rule_ironing_type (newValue : string) : M string :=
  modifyStatus (setIroningType (Some newValue));;
  mret newValue.

Definition rule_default_filament_profile (newValue : string) : M string :=
  reads (fun _ =>
    let arr := multivalueToArray (Some newValue) in
    unbackslash (orElse (head arr) "")).

Definition rule_retract_lift_top (newValue : string) : M string :=
  reads (fun _ =>
    let arr := multivalueToArray (Some newValue) in
    orElse (orOpt (tableGet zhopEnforcement (orElse (head arr) "")) (head arr)) "").

(** [percentToMm(String(status.value.nozzleSize || ''), newValue) || ''] *)
Definition rule_nozzle_percent (newValue : string) : M string :=
  reads (fun w =>
    orElse (percentToMm (VStr (nozzleString (status w))) (Some newValue)) "").

Definition rule_flow_ratio (newValue : string) : M string :=
  reads (fun _ => percentToFloat (Some newValue)).

Definition rule_wall_transition_length (newValue : string) : M string :=
  reads (fun w =>
    orElse (mmToPercent (VStr (nozzleString (status w))) (Some newValue)) "").

Definition rule_machine_limits_usage (newValue : string) : M string :=
  reads (fun _ => if String.eqb newValue "emit_to_gcode" then "1" else "0").

Definition rule_remaining_times (newValue : string) : M string :=
  reads (fun _ => if String.eqb newValue "0" then "1" else "0").

Definition rule_support_material_bottom_contact_distance (newValue : string)
  : M string :=
  reads (fun w =>
    if String.eqb newValue "0"
    then orElse (source w "support_material_contact_distance") ""
    else newValue).

Definition rule_support_material_style (newValue : string) : M string :=
  match tableGet supportStyles newValue with
  | Some (supportType, supportStyle) =>
      genstyle ← reads (fun w =>
        if truthyOpt (source w "support_material_auto") then "auto" else "manual");
      setOutput "support_type" (HStr (supportType +:+ "(" +:+ genstyle +:+ ")"));;
      setOutput "support_style" (HStr supportStyle);;
      mret ""
  | None => mret ""
  end.

Definition rule_infill_pattern (newValue : string) : M string :=
  reads (fun _ => orElse (tableGet infillTypes newValue) newValue).

Definition rule_gcode_flavor (newValue : string) : M string :=
  reads (fun _ => orElse (tableGet gcodeFlavors newValue) "").

Definition rule_host_type (newValue : string) : M string :=
  reads (fun _ => orElse (tableGet hostTypes newValue) newValue).

Definition rule_thumbnails_format (newValue : string) : M string :=
  reads (fun _ => orElse (tableGet thumbnailFormat newValue) newValue).

Definition isListed (t : Table bool) (key : string) : bool :=
  match tableGet t key with Some b => b | None => false end.

Definition rule_support_material_pattern (newValue : string) : M string :=
  reads (fun _ => if isListed supportPatterns newValue then newValue else "default").

Definition rule_support_material_interface_pattern (newValue : string)
  : M string :=
  reads (fun _ => if isListed interfacePatterns newValue then newValue else "auto").

Definition rule_seam_position (newValue : string) : M string :=
  reads (fun _ => orElse (tableGet seamPositions newValue) newValue).

(** [parseFloat(newValue) > 0 ? '1' : '0'] *)
Definition rule_positive_flag (newValue : string) : M string :=
  reads (fun _ =>
    if PrimFloat.ltb PrimFloat.zero (JsNumber.parseFloat newValue) then "1" else "0").

Definition rule_output_filename_format (newValue : string) : M string :=
  reads (fun _ => replaceAll1 "]"%char "}"%char (replaceAll1 "["%char "{"%char newValue)).

Definition rule_support_material_xy_spacing (newValue : string) : M string :=
  reads (fun w =>
    let calculated :=
      percentToMm (valOfOpt (source w "external_perimeter_extrusion_width"))
        (Some newValue) in
    let calculated :=
      if negb (truthyOpt calculated)
      then percentToMm (VStr (nozzleString (status w))) (Some newValue)
      else calculated in
    orElse calculated "").

Definition rule_extrusion_width (newValue : string) : M string :=
  reads (fun _ => if isEmpty newValue then "0" else newValue).

Definition rule_complete_objects (newValue : string) : M string :=
  reads (fun _ => if truthy newValue then "by object" else "by layer").

Definition rule_external_perimeter_speed (newValue : string) : M string :=
  reads (fun w =>
    orElse (percentToMm (valOfOpt (source w "perimeter_speed")) (Some newValue))
      newValue).

Definition rule_top_solid_infill_speed (newValue : string) : M string :=
  reads (fun w =>
    orElse (percentToMm (VStr (outputString w "internal_solid_infill_speed"))
              (Some newValue)) newValue).

Definition rule_support_material_interface_speed (newValue : string) : M string :=
  reads (fun w =>
    orElse (percentToMm (valOfOpt (source w "support_material_speed"))
              (Some newValue)) newValue).

Definition rule_first_layer_infill_speed (newValue : string) : M string :=
  reads (fun w =>
    let base :=
      if isPrusaSlicer (slicerFlavor (status w))
      then source w "first_layer_speed" else Some newValue in
    orElse (percentToMm (valOfOpt (source w "infill_speed")) base) newValue).

Definition rule_solid_infill_speed (defaultSpeed : option string)
    (newValue : string) : M string :=
  reads (fun w =>
    let base :=
      if isPrusaSlicer (slicerFlavor (status w))
      then source w "infill_speed" else defaultSpeed in
    orElse (percentToMm (valOfOpt base) (Some newValue)) newValue).

(** The rule of [perimeter_speed], [support_material_speed] and
    [bridge_speed]. *)
Definition rule_default_speed_based (defaultSpeed : option string)
    (newValue : string) : M string :=
  reads (fun w =>
    if isSuperSlicer (slicerFlavor (status w))
    then orElse (percentToMm (valOfOpt defaultSpeed) (Some newValue)) newValue
    else newValue).

(** The rule of [infill_speed], [small_perimeter_speed] and
    [gap_fill_speed], on the output key it reads. *)
Definition rule_output_based (key : string) (newValue : string) : M string :=
  reads (fun w =>
    let base := outputString w key in
    if isSuperSlicer (slicerFlavor (status w))
    then orElse (percentToMm (VStr base) (Some newValue)) newValue
    else newValue).

Definition specialCases (parameter : string) (file : option string)
    (newValue : string) (defaultSpeed : option string) : Table (M string) :=
  [("start_filament_gcode", unbackslashGcode newValue);
   ("end_filament_gcode", unbackslashGcode newValue);
   ("post_process", unbackslashGcode newValue);
   ("before_layer_gcode", unbackslashGcode newValue);
   ("toolchange_gcode", unbackslashGcode newValue);
   ("layer_gcode", unbackslashGcode newValue);
   ("feature_gcode", unbackslashGcode newValue);
   ("end_gcode", unbackslashGcode newValue);
   ("pause_print_gcode", unbackslashGcode newValue);
   ("start_gcode", unbackslashGcode newValue);
   ("template_custom_gcode", unbackslashGcode newValue);
   ("notes", unbackslashGcode newValue);
   ("filament_notes", unbackslashGcode newValue);
   ("printer_notes", unbackslashGcode newValue);
   ("filament_type", rule_filament_type newValue);
   ("filament_max_volumetric_speed", rule_filament_max_volumetric_speed newValue);
   ("draft_shield", rule_draft_shield newValue);
   ("external_perimeter_fan_speed", rule_external_perimeter_fan_speed newValue);
   ("ironing_type", rule_ironing_type newValue);
   ("default_filament_profile", rule_default_filament_profile newValue);
   ("retract_lift_top", rule_retract_lift_top newValue);
   ("compatible_printers_condition",
     handleCompatibleCondition parameter file newValue);
   ("compatible_prints_condition",
     handleCompatibleCondition parameter file newValue);
   ("max_layer_height", rule_nozzle_percent newValue);
   ("min_layer_height", rule_nozzle_percent newValue);
   ("fuzzy_skin_point_dist", rule_nozzle_percent newValue);
   ("fuzzy_skin_thickness", rule_nozzle_percent newValue);
   ("small_perimeter_min_length", rule_nozzle_percent newValue);
   ("bridge_flow_ratio", rule_flow_ratio newValue);
   ("fill_top_flow_ratio", rule_flow_ratio newValue);
   ("first_layer_flow_ratio", rule_flow_ratio newValue);
   ("wall_transition_length", rule_wall_transition_length newValue);
   ("machine_limits_usage", rule_machine_limits_usage newValue);
   ("remaining_times", rule_remaining_times newValue);
   ("support_material_bottom_contact_distance",
     rule_support_material_bottom_contact_distance newValue);
   ("support_material_style", rule_support_material_style newValue);
   ("fill_pattern", rule_infill_pattern newValue);
   ("top_fill_pattern", rule_infill_pattern newValue);
   ("bottom_fill_pattern", rule_infill_pattern newValue);
   ("solid_fill_pattern", rule_infill_pattern newValue);
   ("gcode_flavor", rule_gcode_flavor newValue);
   ("host_type", rule_host_type newValue);
   ("thumbnails_format", rule_thumbnails_format newValue);
   ("support_material_pattern", rule_support_material_pattern newValue);
   ("support_material_interface_pattern",
     rule_support_material_interface_pattern newValue);
   ("seam_position", rule_seam_position newValue);
   ("support_material_layer_height", rule_positive_flag newValue);
   ("output_filename_format", rule_output_filename_format newValue);
   ("support_material_xy_spacing", rule_support_material_xy_spacing newValue);
   ("extrusion_width", rule_extrusion_width newValue);
   ("infill_every_layers", rule_positive_flag newValue);
   ("complete_objects", rule_complete_objects newValue);
   ("external_perimeter_speed", rule_external_perimeter_speed newValue);
   ("first_layer_speed", rule_external_perimeter_speed newValue);
   ("top_solid_infill_speed", rule_top_solid_infill_speed newValue);
   ("support_material_interface_speed",
     rule_support_material_interface_speed newValue);
   ("first_layer_infill_speed", rule_first_layer_infill_speed newValue);
   ("solid_infill_speed", rule_solid_infill_speed defaultSpeed newValue);
   ("perimeter_speed", rule_default_speed_based defaultSpeed newValue);
   ("support_material_speed", rule_default_speed_based defaultSpeed newValue);
   ("bridge_speed", rule_default_speed_based defaultSpeed newValue);
   ("infill_speed", rule_output_based "internal_solid_infill_speed" newValue);
   ("small_perimeter_speed", rule_output_based "sparse_infill_speed" newValue);
   ("gap_fill_speed", rule_output_based "sparse_infill_speed" newValue)].

(** Is the profile type one that cannot be converted?
    [!iniType || iniType === 'unsupported' || iniType === 'physical_printer'] *)
Definition noTargetSchema (t : option string) : bool :=
  negb (truthyOpt t) || bool_decide (t = Some "unsupported")
  || bool_decide (t = Some "physical_printer").

(** [convertParams] from the point where [newValue] is settled. *)
Definition convertValue (parameter : string) (file : option string)
    (newValue : string) : M Converted :=
  st ← reads status;
  defaultSpeed ← reads (fun w =>
    if isSuperSlicer (slicerFlavor st) then source w "default_speed" else None);
  if noTargetSchema (iniType st) then mret RUndef
  else
    match tableGet parameterMap (stringOfVal (valOfOpt (iniType st))) with
    | None => mret RUndef
    | Some typeMap =>
        match typeMap !! parameter with
        | Some (TKeys mapValue) =>
            forEach (fun key => setOutput key (HStr newValue)) mapValue;;
            mret RUndef
        | _ =>
            if String.eqb parameter "external_perimeters_first" then
              modifyStatus (setToVar (setExternalPerimetersFirst (truthy newValue)));;
              mret RUndef
            else if String.eqb parameter "infill_first" then
              modifyStatus (setToVar (setInfillFirst (truthy newValue)));;
              mret RUndef
            else if String.eqb parameter "ironing" then
              modifyStatus (setToVar (setIroning (truthy newValue)));;
              mret RUndef
            else
              match tableGet (specialCases parameter file newValue defaultSpeed)
                      parameter with
              | Some rule => result ← rule; mret (RStr result)
              | None => mret (RStr newValue)
              end
        end
    end.

Definition convertParams (parameter : string) (file : option string)
  : M Converted :=
  raw ← reads (fun w => source w parameter);
  if negb (truthyOpt raw) then mret RUndef
  else if bool_decide (raw = Some "nil") then mret RUndef
  else
    match tableGet multivalueParams parameter with
    | Some single =>
        convertValue parameter file (orElse (head (multivalueToArray raw)) "")
    | Some array => mret (RArr (multivalueToArray raw))
    | None => convertValue parameter file (orElse raw "")
    end.

(** [newHash[speedParams[parameter]]]: the key, as a property name. *)
Definition speedKey (parameter : string) : string :=
  stringOfVal (valOfOpt (tableGet speedParams parameter)).

Definition convertSpeed (parameter : string) : M unit :=
  present ← reads (fun w => truthyOpt (source w parameter));
  if negb present then mret tt
  else
    newValue ← convertParams parameter None;
    match newValue with
    | RStr s =>
        if negb (truthy s) then mret tt
        else if isDecimal (Some s) then
          setOutput (speedKey parameter)
            (HStr (stripDotZeros (JsNumber.toFixed1 (JsNumber.parseFloat s))))
        else setOutput (speedKey parameter) (HStr s)
    | _ => mret tt
    end.

Definition overhangSpeedKeys : list string :=
  ["overhang_1_4_speed"; "overhang_2_4_speed"; "overhang_3_4_speed";
   "overhang_4_4_speed"].

(** The threshold speeds gathered from the source, by flavor. *)
Definition gatherSpeeds (w : World) : list string :=
  if isSuperSlicer (slicerFlavor (status w)) then
    split ","%char (orElse (source w "dynamic_overhang_speeds") "")
  else
    [orElse (source w "overhang_speed_0") "";
     orElse (source w "overhang_speed_1") "";
     orElse (source w "overhang_speed_2") "";
     orElse (source w "overhang_speed_3") ""].

Definition calculatePrintParams : M unit :=
  forEach convertSpeed speedSequence;;
  enableDynamicOverhangSpeeds ← reads (fun w =>
    truthyOpt (source w "enable_dynamic_overhang_speeds"));
  setOutput "enable_overhang_speed"
    (HStr (if enableDynamicOverhangSpeeds : bool then "1" else "0"));;
  (if enableDynamicOverhangSpeeds : bool then
     speeds ← reads gatherSpeeds;
     forEach (fun '(idx, key) =>
                setOutput key (HStr (orElse (speeds !! (3 - idx)%nat) "")))
       (imap (fun idx key => (idx, key)) overhangSpeedKeys)
   else mret tt);;
  order ← reads (fun w =>
    evaluatePrintOrder (externalPerimetersFirst (toVar (status w)))
      (infillFirst (toVar (status w))));
  setOutput "wall_infill_order" (HStr order);;
  kind ← reads (fun w =>
    evaluateIroningType (ironing (toVar (status w))) (ironingType (status w)));
  setOutput "ironing_type" (HStr kind).

End Engine.

(** *** The type detector *)

(** [param in typeMap], counted over [Object.keys(sourceIni)]. *)
Definition countMatches (typeMap : gmap string Target) (keys : list string) : nat :=
  foldl (fun count param =>
           if bool_decide (is_Some (typeMap !! param)) then S count else count)
    0%nat keys.

(** [Array.prototype.sort] with a comparator: a stable sort. *)
Fixpoint sortInsert {A : Type} (cmp : A -> A -> Z) (x : A) (l : list A) : list A :=
  match l with
  | [] => [x]
  | y :: r => if (cmp x y <=? 0)%Z then x :: l else y :: sortInsert cmp x r
  end.

Fixpoint sortBy {A : Type} (cmp : A -> A -> Z) (l : list A) : list A :=
  match l with
  | [] => []
  | x :: r => sortInsert cmp x (sortBy cmp r)
  end.

Definition detectIniType (parameterMap : ParameterMap) (ini : gmap string string)
  : option string :=
  if truthyOpt (ini !! "ini_type") then ini !! "ini_type"
  else
    let typeCounts :=
      (fun '(type, typeMap) => (type, countMatches typeMap (map_to_list ini).*1))
        <$> parameterMap in
    let hasValidType := existsb (fun count => (10 <=? count)%nat) typeCounts.*2 in
    if negb hasValidType then None
    else
      fst <$> head (sortBy (fun a b => (Z.of_nat (snd b) - Z.of_nat (snd a))%Z)
                      typeCounts).

(** ** Type guards ([type-guards.ts]) *)

Definition isOutputIniType (iniType : string) : bool :=
  String.eqb iniType "print" || String.eqb iniType "filament"
  || String.eqb iniType "printer".

Definition isValidIniType (iniType : option string) : bool :=
  negb (bool_decide (iniType = None)) && negb (bool_decide (iniType = Some "unsupported")).

(** ** The profile reader ([fileIO.ts])

    [readIniFile] on the content of the file: the text that
    [fs.readFileSync] hands over.  The three regular expressions of the
    loop are read as the functions below: [slicerMatch] for the header,
    [isBlankOrComment] for the lines to skip, [assignment] for the
    entries. *)

(** [s.includes(t)] *)
Fixpoint includesText (t s : string) : bool :=
  startsWith t s ||
  match s with
  | String _ r => includesText t r
  | EmptyString => false
  end.

(** The lower-case form of an ASCII letter. *)
Definition toLower (c : ascii) : ascii :=
  if ((65 <=? code c) && (code c <=? 90))%Z
  then ascii_of_N (N_of_ascii c + 32) else c.

(** What follows the lower-case word [word] at the head of [s], letters
    compared without case. *)
Fixpoint afterWord (word s : string) : option string :=
  match word, s with
  | EmptyString, _ => Some s
  | String a word', String b s' =>
      if Ascii.eqb a (toLower b) then afterWord word' s' else None
  | String _ _, EmptyString => None
  end.

(** What follows a non-empty run of white space at the head of [s]. *)
Definition afterSpaces (s : string) : option string :=
  match s with
  | String c _ => if isWhiteSpace c then Some (trimStart s) else None
  | EmptyString => None
  end.

(** The longest run of characters other than white space at the head of [s]. *)
Fixpoint takeWord (s : string) : string :=
  match s with
  | String c r => if isWhiteSpace c then EmptyString else String c (takeWord r)
  | EmptyString => EmptyString
  end.

(** The capture of the header pattern on [line]: a hash sign at the head,
    any white space, the word generated, white space, the word by, white
    space, and then the captured run of characters other than white space,
    the longest there is; letters are compared without case. *)
Definition slicerMatch (line : string) : option string :=
  match line with
  | String c r =>
      if Ascii.eqb c "#"%char then
        r1 ← afterWord "generated" (trimStart r);
        r2 ← afterSpaces r1;
        r3 ← afterWord "by" r2;
        r4 ← afterSpaces r3;
        let slicer := takeWord r4 in
        if isEmpty slicer then None else Some slicer
      else None
  | EmptyString => None
  end.

(** Does [line] match: any white space, then a hash sign or the end? *)
Definition isBlankOrComment (line : string) : bool :=
  match trimStart line with
  | String c _ => Ascii.eqb c "#"%char
  | EmptyString => true
  end.

(** The text before the first [c] in [s] and the text after it. *)
Fixpoint cutAt (c : ascii) (s : string) : option (string * string) :=
  match s with
  | String a r =>
      if Ascii.eqb a c then Some (EmptyString, r)
      else '(before, after) ← cutAt c r; Some (String a before, after)
  | EmptyString => None
  end.

(** The two captures of the assignment pattern on [line]: any white space,
    a lazy non-empty run of characters other than the equals sign
    (captured), any white space, the equals sign, any white space, and any
    run of characters up to the end of the line (captured).  The dot of the
    pattern matches no line terminator and its dollar sign matches at the
    end of the text only, so there is no match when a carriage return is
    left after the white space that follows the equals sign.  The equals
    sign is the first of the line, since nothing before it in the pattern
    matches one.  The first capture is what is left of the text before it
    without the white space around, or the last character of that text if
    it is all white space; the second is the text after it without the
    white space in front. *)
Definition assignment (line : string) : option (string * string) :=
  '(before, after) ← cutAt "="%char line;
  if isEmpty before then None
  else if negb (noLineTerminator (trimStart after)) then None
  else
    let key :=
      if isEmpty (trim before)
      then match lastChar before with
           | Some c => String c EmptyString
           | None => EmptyString
           end
      else trim before in
    Some (key, trimStart after).

(** What [readIniFile] returns: the configuration and the slicer flavor,
    if a header names one. *)
Record IniFile : Type := mkIniFile {
  config : gmap string string;
  detectedFlavor : option SlicerFlavor }.

(** One turn of the loop over the lines. *)
Definition readLine (acc : IniFile) (line : string) : IniFile :=
  let flavor :=
    match slicerMatch line with
    | Some slicer =>
        if includesText "PrusaSlicer" slicer then Some PrusaSlicer
        else if includesText "SuperSlicer" slicer then Some SuperSlicer
        else detectedFlavor acc
    | None => detectedFlavor acc
    end in
  if isBlankOrComment line then mkIniFile (config acc) flavor
  else
    match assignment line with
    | Some (key, value) => mkIniFile (<[trim key := trim value]> (config acc)) flavor
    | None => mkIniFile (config acc) flavor
    end.

(** [readIniFile], on the content of the file. *)
Definition readIniFile (content : string) : IniFile :=
  foldl readLine (mkIniFile ∅ None) (split "010"%char content).

(** ** The driver ([index.ts])

    The functions of the driver that work on the conversion state and on
    the output map: [resetLoop], [askYesToAll], and the loop of [main] that
    runs [convertParams] over the parameters of a profile. *)

(** Assignments to fields of the state. *)
Definition setMaxTemp (t : float) (st : Status) : Status :=
  mkStatus (forceOut st) (legacyOverwrite st) t (interactiveMode st)
    (outdirWasProvided st) (slicerFlavor st) (iniType st) (profileName st)
    (ironingType st) (iterationsLeft st) (dirs st) (toVar st) (reset st)
    (value st).

Definition setIniType (t : option string) (st : Status) : Status :=
  mkStatus (forceOut st) (legacyOverwrite st) (maxTemp st) (interactiveMode st)
    (outdirWasProvided st) (slicerFlavor st) t (profileName st)
    (ironingType st) (iterationsLeft st) (dirs st) (toVar st) (reset st)
    (value st).

Definition setProfileName (n : option string) (st : Status) : Status :=
  mkStatus (forceOut st) (legacyOverwrite st) (maxTemp st) (interactiveMode st)
    (outdirWasProvided st) (slicerFlavor st) (iniType st) n
    (ironingType st) (iterationsLeft st) (dirs st) (toVar st) (reset st)
    (value st).

Definition setReset (f : ResetFlags -> ResetFlags) (st : Status) : Status :=
  mkStatus (forceOut st) (legacyOverwrite st) (maxTemp st) (interactiveMode st)
    (outdirWasProvided st) (slicerFlavor st) (iniType st) (profileName st)
    (ironingType st) (iterationsLeft st) (dirs st) (toVar st) (f (reset st))
    (value st).

(** The keys that [status.reset] and [status.value] share. *)
Inductive StickyKey : Type :=
  | keyOnExisting
  | keyPhysicalPrinter
  | keyNozzleSize
  | keyInherits
  | keyCompatiblePrintersCondition
  | keyCompatiblePrintsCondition.

(** [Object.keys(status.reset)] *)
Definition resetKeys : list StickyKey :=
  [keyOnExisting; keyPhysicalPrinter; keyNozzleSize; keyInherits;
   keyCompatiblePrintersCondition; keyCompatiblePrintsCondition].

(** [status.reset[key]] *)
Definition resetFlag (key : StickyKey) (r : ResetFlags) : bool :=
  match key with
  | keyOnExisting => resetOnExisting r
  | keyPhysicalPrinter => resetPhysicalPrinter r
  | keyNozzleSize => resetNozzleSize r
  | keyInherits => resetInherits r
  | keyCompatiblePrintersCondition => resetCompatiblePrintersCondition r
  | keyCompatiblePrintsCondition => resetCompatiblePrintsCondition r
  end.

(** [status.reset[key] = b] *)
Definition setResetFlag (key : StickyKey) (b : bool) (r : ResetFlags) : ResetFlags :=
  match key with
  | keyOnExisting =>
      mkResetFlags b (resetPhysicalPrinter r) (resetNozzleSize r) (resetInherits r)
        (resetCompatiblePrintersCondition r) (resetCompatiblePrintsCondition r)
  | keyPhysicalPrinter =>
      mkResetFlags (resetOnExisting r) b (resetNozzleSize r) (resetInherits r)
        (resetCompatiblePrintersCondition r) (resetCompatiblePrintsCondition r)
  | keyNozzleSize =>
      mkResetFlags (resetOnExisting r) (resetPhysicalPrinter r) b (resetInherits r)
        (resetCompatiblePrintersCondition r) (resetCompatiblePrintsCondition r)
  | keyInherits =>
      mkResetFlags (resetOnExisting r) (resetPhysicalPrinter r) (resetNozzleSize r) b
        (resetCompatiblePrintersCondition r) (resetCompatiblePrintsCondition r)
  | keyCompatiblePrintersCondition =>
      mkResetFlags (resetOnExisting r) (resetPhysicalPrinter r) (resetNozzleSize r)
        (resetInherits r) b (resetCompatiblePrintsCondition r)
  | keyCompatiblePrintsCondition =>
      mkResetFlags (resetOnExisting r) (resetPhysicalPrinter r) (resetNozzleSize r)
        (resetInherits r) (resetCompatiblePrintersCondition r) b
  end.

(** [status.value[key]] *)
Definition stickyValue (key : StickyKey) (v : StatusValue) : JsVal :=
  match key with
  | keyOnExisting => valOfOpt (onExisting v)
  | keyPhysicalPrinter => valOfOpt (physicalPrinter v)
  | keyNozzleSize =>
      match nozzleSize v with Some x => VNum x | None => VUndef end
  | keyInherits => valOfOpt (inherits v)
  | keyCompatiblePrintersCondition => valOfOpt (compatiblePrintersCondition v)
  | keyCompatiblePrintsCondition => valOfOpt (compatiblePrintsCondition v)
  end.

(** [status.value[key] = undefined] *)
Definition clearStickyValue (key : StickyKey) (v : StatusValue) : StatusValue :=
  match key with
  | keyOnExisting =>
      mkStatusValue None (physicalPrinter v) (nozzleSize v) (inherits v)
        (compatiblePrintersCondition v) (compatiblePrintsCondition v)
  | keyPhysicalPrinter =>
      mkStatusValue (onExisting v) None (nozzleSize v) (inherits v)
        (compatiblePrintersCondition v) (compatiblePrintsCondition v)
  | keyNozzleSize =>
      mkStatusValue (onExisting v) (physicalPrinter v) None (inherits v)
        (compatiblePrintersCondition v) (compatiblePrintsCondition v)
  | keyInherits =>
      mkStatusValue (onExisting v) (physicalPrinter v) (nozzleSize v) None
        (compatiblePrintersCondition v) (compatiblePrintsCondition v)
  | keyCompatiblePrintersCondition =>
      mkStatusValue (onExisting v) (physicalPrinter v) (nozzleSize v) (inherits v)
        None (compatiblePrintsCondition v)
  | keyCompatiblePrintsCondition =>
      mkStatusValue (onExisting v) (physicalPrinter v) (nozzleSize v) (inherits v)
        (compatiblePrintersCondition v) None
  end.

(** [newHash = {}] *)
Definition clearOutput : M unit :=
  fun w => (tt, mkWorld (sourceIni w) (status w) ∅ (prompts w)).

(** [resetLoop], on the state and the output map of the world. *)
Definition resetLoop : M unit :=
  clearOutput;;
  modifyStatus (setMaxTemp PrimFloat.zero);;
  interactive ← reads (fun w => interactiveMode (status w));
  (if negb interactive then modifyStatus (setIniType None) else mret tt);;
  modifyStatus (setProfileName None);;
  modifyStatus (setToVar (fun t => mkToVar None (infillFirst t) (ironing t)));;
  modifyStatus (setToVar (fun t => mkToVar (externalPerimetersFirst t) None (ironing t)));;
  modifyStatus (setToVar (fun t =>
    mkToVar (externalPerimetersFirst t) (infillFirst t) None));;
  modifyStatus (setIroningType None);;
  forEach (fun key =>
             flag ← reads (fun w => resetFlag key (reset (status w)));
             if flag : bool then
               modifyStatus (setValue (clearStickyValue key));;
               modifyStatus (setReset (setResetFlag key false))
             else mret tt)
    resetKeys.

(** The answer that keeps a choice for the profiles to come. *)
Definition allRemaining : string := "ALL REMAINING PROFILES".

(** The question of [askYesToAll]. *)
Definition yesToAllPrompt (st : Status) (param : StickyKey) (file : string) : string :=
  "You have chosen " +:+ esc +:+ "[1m" +:+ stringOfVal (stickyValue param (value st))
  +:+ esc +:+ "[0m. Would you like to apply this choice to ALL remaining profiles you are importing in this session? Or just to "
  +:+ esc +:+ "[1m" +:+ file +:+ esc +:+ "[0m?" +:+ nl.

(** ToBoolean on [status.iterationsLeft]. *)
Definition moreToCome (st : Status) : bool :=
  match iterationsLeft st with
  | Some n => JsNumber.truthyNumber n
  | None => false
  end.

(** [askYesToAll]: asked only when more profiles are to come; any answer
    but [allRemaining] marks the choice for reset. *)
Definition askYesToAll (displayMenu : Menu) (param : StickyKey) (file : string)
  : M unit :=
  more ← reads (fun w => moreToCome (status w));
  if negb more then mret tt
  else
    st ← reads status;
    choice ← ask displayMenu (yesToAllPrompt st param file) true
               [allRemaining; "JUST " +:+ file];
    modifyStatus (setReset (setResetFlag param
      (match choice with
       | ChoiceStr c => negb (String.eqb c allRemaining)
       | ChoiceList _ => true
       end))).

(** ToBoolean on what [convertParams] resolves to. *)
Definition truthyConverted (r : Converted) : bool :=
  match r with
  | RUndef => false
  | RStr s => truthy s
  | RArr _ => true
  end.

(** The keys of a target. *)
Definition targetKeys (t : Target) : list string :=
  match t with
  | TKey key => [key]
  | TKeys keys => keys
  end.

Section Driver.

Variable parameterMap : ParameterMap.
Variable displayMenu : Menu.

(** The tracking of the highest temperature, at the end of a turn. *)
Definition trackMaxTemp (parameter : string) (newValue : Converted) : M unit :=
  match newValue with
  | RStr s =>
      if String.eqb parameter "first_layer_temperature"
         || String.eqb parameter "temperature"
      then
        highest ← reads (fun w => maxTemp (status w));
        let temp := JsNumber.parseFloat s in
        if PrimFloat.ltb highest temp then modifyStatus (setMaxTemp temp)
        else mret tt
      else mret tt
  | _ => mret tt
  end.

(** One turn of the loop of [main] over the parameters of the profile. *)
Definition convertEntry (typeMap : gmap string Target) (file : string)
    (parameter : string) : M unit :=
  if String.eqb parameter "profile_name" then
    name ← reads (fun w => source w parameter);
    modifyStatus (setProfileName name)
  else if negb (bool_decide (is_Some (typeMap !! parameter))) then mret tt
  else
    newValue ← convertParams parameterMap displayMenu parameter (Some file);
    if negb (truthyConverted newValue) then mret tt
    else
      match typeMap !! parameter with
      | Some (TKeys _) => mret tt
      | Some (TKey mappedKey) =>
          setOutput mappedKey
            (match newValue with
             | RArr l => HArr l
             | RStr s => HStr s
             | RUndef => HStr ""
             end);;
          trackMaxTemp parameter newValue
      | None => trackMaxTemp parameter newValue
      end.

(** The loop, over [Object.keys(sourceIni)]. *)
Definition convertEntries (typeMap : gmap string Target) (file : string)
    (keys : list string) : M unit :=
  forEach (convertEntry typeMap file) keys.

End Driver.

(** ** Vocabulary of the statements *)

(** The value a call works on once the multivalue split is done. *)
Definition settled (parameter raw : string) : string :=
  match tableGet multivalueParams parameter with
  | Some single => orElse (head (multivalueToArray (Some raw))) ""
  | _ => raw
  end.

(** The call of [convertParams] on [parameter] in [w] gets past the five
    short-circuits that precede the per-parameter rules, with [newValue] as
    its working value: the source value is present, not empty and not the
    sentinel [nil]; the parameter is not array-valued; a profile type is set
    and is neither [unsupported] nor [physical_printer]; the parameter map
    has an entry for that type, which does not fan the parameter out. *)
Definition reachesRules (pm : ParameterMap) (parameter : string) (w : World)
    (newValue : string) : Prop :=
  exists raw type typeMap,
    sourceIni w !! parameter = Some raw /\ raw <> "" /\ raw <> "nil" /\
    tableGet multivalueParams parameter <> Some array /\
    newValue = settled parameter raw /\
    iniType (status w) = Some type /\ type <> "" /\
    type <> "unsupported" /\ type <> "physical_printer" /\
    tableGet pm type = Some typeMap /\
    (forall keys, typeMap !! parameter <> Some (TKeys keys)).

(** [defaultSpeed], as [convertParams] binds it. *)
Definition defaultSpeedOf (w : World) : option string :=
  if isSuperSlicer (slicerFlavor (status w)) then source w "default_speed" else None.

(** The call of [percentToMm] that the rule of a speed-family parameter makes
    on [newValue] in [w], as the closure writes it, and its outcome; [None]
    for a parameter whose rule makes no call there. *)
Definition speedRuleCall (parameter newValue : string) (w : World)
  : option (option string) :=
  let super := isSuperSlicer (slicerFlavor (status w)) in
  let prusa := isPrusaSlicer (slicerFlavor (status w)) in
  let onSource key := percentToMm (valOfOpt (source w key)) (Some newValue) in
  let onOutput key := percentToMm (VStr (outputString w key)) (Some newValue) in
  let onDefault := percentToMm (valOfOpt (defaultSpeedOf w)) (Some newValue) in
  if String.eqb parameter "external_perimeter_speed" then Some (onSource "perimeter_speed")
  else if String.eqb parameter "first_layer_speed" then Some (onSource "perimeter_speed")
  else if String.eqb parameter "top_solid_infill_speed"
  then Some (onOutput "internal_solid_infill_speed")
  else if String.eqb parameter "support_material_interface_speed"
  then Some (onSource "support_material_speed")
  else if String.eqb parameter "first_layer_infill_speed" then
    Some (percentToMm (valOfOpt (source w "infill_speed"))
            (if prusa then source w "first_layer_speed" else Some newValue))
  else if String.eqb parameter "solid_infill_speed" then
    Some (if prusa then onSource "infill_speed" else onDefault)
  else if String.eqb parameter "perimeter_speed" then
    if super then Some onDefault else None
  else if String.eqb parameter "support_material_speed" then
    if super then Some onDefault else None
  else if String.eqb parameter "bridge_speed" then
    if super then Some onDefault else None
  else if String.eqb parameter "infill_speed" then
    if super then Some (onOutput "internal_solid_infill_speed") else None
  else if String.eqb parameter "small_perimeter_speed" then
    if super then Some (onOutput "sparse_infill_speed") else None
  else if String.eqb parameter "gap_fill_speed" then
    if super then Some (onOutput "sparse_infill_speed") else None
  else None.

(** The same for the rules that convert against the nozzle size; for
    [support_material_xy_spacing] the outcome is that of the retry when the
    first call gives nothing. *)
Definition nozzleRuleCall (parameter newValue : string) (w : World)
  : option (option string) :=
  let onNozzle := percentToMm (VStr (nozzleString (status w))) (Some newValue) in
  if String.eqb parameter "max_layer_height" then Some onNozzle
  else if String.eqb parameter "min_layer_height" then Some onNozzle
  else if String.eqb parameter "fuzzy_skin_point_dist" then Some onNozzle
  else if String.eqb parameter "fuzzy_skin_thickness" then Some onNozzle
  else if String.eqb parameter "small_perimeter_min_length" then Some onNozzle
  else if String.eqb parameter "wall_transition_length"
  then Some (mmToPercent (VStr (nozzleString (status w))) (Some newValue))
  else if String.eqb parameter "support_material_xy_spacing" then
    Some (orOpt (percentToMm
                   (valOfOpt (source w "external_perimeter_extrusion_width"))
                   (Some newValue)) onNozzle)
  else None.

(** The state slot of a compatibility-condition parameter. *)
Definition slotOf (parameter : string) (st : Status) : option string :=
  if String.eqb parameter "compatible_printers_condition"
  then compatiblePrintersCondition (value st)
  else compatiblePrintsCondition (value st).

Definition storeSlot (parameter : string) (choice : string) (st : Status) : Status :=
  if String.eqb parameter "compatible_printers_condition"
  then setValue (setCompatiblePrintersCondition choice) st
  else setValue (setCompatiblePrintsCondition choice) st.

(** The state boolean of a combination flag. *)
Definition storeFlag (parameter : string) (b : bool) (st : Status) : Status :=
  if String.eqb parameter "external_perimeters_first"
  then setToVar (setExternalPerimetersFirst b) st
  else if String.eqb parameter "infill_first"
  then setToVar (setInfillFirst b) st
  else setToVar (setIroning b) st.

(** How many of the profile's parameter names are keys of [typeMap]. *)
Definition matchCount (typeMap : gmap string Target) (ini : gmap string string)
  : nat :=
  size (dom ini ∩ dom typeMap).

(** The world with its conversion state changed by [f], nothing else. *)
Definition withStatus (f : Status -> Status) (w : World) : World :=
  mkWorld (sourceIni w) (f (status w)) (newHash w) (prompts w).

(** The world with one more entry in the output map, nothing else. *)
Definition withOutput (key : string) (v : HVal) (w : World) : World :=
  mkWorld (sourceIni w) (status w) (<[key := v]> (newHash w)) (prompts w).

(** The world with one more prompt put to the operator, nothing else. *)
Definition withPrompt (prompt : string) (w : World) : World :=
  mkWorld (sourceIni w) (status w) (newHash w) (prompts w ++ [prompt]).

(** What a call leaves of the inputs it only reads. *)
Definition sameInputs (w w' : World) : Prop :=
  sourceIni w' = sourceIni w /\
  slicerFlavor (status w') = slicerFlavor (status w) /\
  iniType (status w') = iniType (status w).

Definition frames {A : Type} (m : M A) : Prop :=
  forall w, sameInputs w (m w).2.

(** ** Vocabulary of the further properties *)

(** The string neither begins nor ends with a white-space character. *)
Definition trimmed (s : string) : Prop :=
  (forall c r, s = String c r -> isWhiteSpace c = false) /\
  (forall c, lastChar s = Some c -> isWhiteSpace c = false).

(** Is every character of [s] white space? *)
Fixpoint allWhiteSpace (s : string) : bool :=
  match s with
  | String a r => isWhiteSpace a && allWhiteSpace r
  | EmptyString => true
  end.

(** The carriage return. *)
Definition cr : string := String "013"%char EmptyString.

(** What an entry of a parsed profile looks like. *)
Definition cleanEntry (key value : string) : Prop :=
  trimmed key /\ includes "="%char key = false /\
  trimmed value /\ noLineTerminator value = true.

(** [m] relates every world to the world it leaves by [R]. *)
Definition keeps {A : Type} (R : World -> World -> Prop) (m : M A) : Prop :=
  forall w, R w (m w).2.

(** No question has been put between [w] and [w']. *)
Definition samePrompts (w w' : World) : Prop := prompts w' = prompts w.

(** The conversion state of [w'] is that of [w]. *)
Definition sameStatus (w w' : World) : Prop := status w' = status w.

(** The output map is the same outside the keys of [touched]. *)
Definition sameOutputOutside (touched : list string) (w w' : World) : Prop :=
  forall key, key ∉ touched -> newHash w' !! key = newHash w !! key.

(** The parameter names that have a rule in the dictionary of [convertParams]. *)
Definition ruleNames : list string :=
  (specialCases (fun _ _ _ => ChoiceList []) "" None "" None).*1.

(** The parameters that set a flag of the state and produce nothing. *)
Definition combinationFlags : list string :=
  ["external_perimeters_first"; "infill_first"; "ironing"].

(** The parameters whose rule may put a question to the operator. *)
Definition conditionNames : list string :=
  ["compatible_printers_condition"; "compatible_prints_condition"].

(** The parameters on which [convertParams] writes into the conversion
    state. *)
Definition statefulNames : list string :=
  combinationFlags ++ "ironing_type" :: conditionNames.

(** The keys that a call on [parameter] may write into the output map by
    itself: those of a fan-out under the current profile type, and the two
    keys of the support-style rule. *)
Definition writtenKeys (pm : ParameterMap) (parameter : string) (w : World)
  : list string :=
  match tableGet pm (stringOfVal (valOfOpt (iniType (status w)))) with
  | Some typeMap =>
      match typeMap !! parameter with
      | Some (TKeys keys) => keys
      | _ => []
      end
  | None => []
  end
  ++ (if String.eqb parameter "support_material_style"
      then ["support_type"; "support_style"] else []).

(** The keys that [calculatePrintParams] may write into the output map:
    the keys of the speed table, the keys of the overhang speeds, the order
    and the ironing type, and what the calls of [convertParams] on the
    speed parameters may write by themselves. *)
Definition postProcessorKeys (pm : ParameterMap) (w : World) : list string :=
  (speedKey <$> speedSequence)
  ++ "enable_overhang_speed" :: overhangSpeedKeys
  ++ ["wall_infill_order"; "ironing_type"]
  ++ (speedSequence ≫= fun parameter => writtenKeys pm parameter w).

(** From a world of profile type [type], the output map is the same outside
    the keys of [touched], and the profile type is the same. *)
Definition sameOutputOfType (type : option string) (touched : list string)
    (w w' : World) : Prop :=
  iniType (status w) = type ->
  iniType (status w') = type /\ sameOutputOutside touched w w'.

(** The highest temperature of [w'] is that of [w]. *)
Definition sameMaxTemp (w w' : World) : Prop :=
  maxTemp (status w') = maxTemp (status w).

(** The highest temperature of [w'] is that of [w], or a higher one. *)
Definition notLowered (w w' : World) : Prop :=
  maxTemp (status w') = maxTemp (status w) \/
  PrimFloat.ltb (maxTemp (status w)) (maxTemp (status w')) = true.

(** The parameters whose converted value moves the highest temperature. *)
Definition temperatureNames : list string :=
  ["first_layer_temperature"; "temperature"].

(** ** Sample data for the closed instances *)

Module Sample.

Definition status (type : option string) (flavor : option SlicerFlavor)
    (nozzle : option float) (printers : option string) : Status :=
  mkStatus false false PrimFloat.zero false false flavor type (Some "test")
    None None (mkDirs None "/tmp" None None) (mkToVar None None None)
    (mkResetFlags false false false false false false)
    (mkStatusValue None None nozzle None printers None).

Definition parameterMap : ParameterMap :=
  [("print",
     list_to_map
       [("layer_height", TKey "layer_height");
        ("ironing", TKey "ironing");
        ("max_layer_height", TKey "max_layer_height");
        ("perimeter_speed", TKey "inner_wall_speed");
        ("external_perimeter_speed", TKey "outer_wall_speed");
        ("support_material_style", TKey "support_style");
        ("compatible_printers_condition", TKey "compatible_printers")]);
   ("filament",
     list_to_map
       [("filament_type", TKey "filament_type");
        ("bed_temperature", TKeys ["hot_plate_temp"; "cool_plate_temp"])]);
   ("printer", list_to_map [("gcode_flavor", TKey "gcode_flavor")])].

(** Three operators: one who keeps, one who discards, one whose answer is
    not a string. *)
Definition keep : Menu := fun _ _ _ => ChoiceStr "KEEP".
Definition discard : Menu := fun _ _ _ => ChoiceStr "DISCARD".
Definition cancel : Menu := fun _ _ _ => ChoiceList [].

Definition world (st : Status) (entries : list (string * string)) : World :=
  mkWorld (list_to_map entries) st ∅ [].

Definition nozzle04 : option float := Some (JsNumber.parseFloat "0.4").

(** A profile of PrusaSlicer of the given type, with a 0.4 nozzle and both
    slots undecided. *)
Definition typedWorld (type : string) (entries : list (string * string)) : World :=
  world (status (Some type) (Some PrusaSlicer) nozzle04 None) entries.

Definition printWorld : list (string * string) -> World := typedWorld "print".

(** A print profile with a decision already in the printers slot. *)
Definition decidedWorld (slot : string) (entries : list (string * string)) : World :=
  world (status (Some "print") (Some PrusaSlicer) nozzle04 (Some slot)) entries.

(** A print profile with no nozzle size configured. *)
Definition noNozzleWorld (entries : list (string * string)) : World :=
  world (status (Some "print") (Some PrusaSlicer) None None) entries.

End Sample.

(** ** Sample profiles for the closed instances of the further properties *)

Module Profiles.

(** A parameter map with a print type of ten parameters. *)
Definition parameterMap : ParameterMap :=
  [("print",
     list_to_map
       [("layer_height", TKey "layer_height");
        ("perimeters", TKey "wall_loops");
        ("fill_density", TKey "sparse_infill_density");
        ("perimeter_speed", TKey "inner_wall_speed");
        ("infill_speed", TKey "sparse_infill_speed");
        ("top_solid_layers", TKey "top_shell_layers");
        ("bottom_solid_layers", TKey "bottom_shell_layers");
        ("seam_position", TKey "seam_position");
        ("skirts", TKey "skirt_loops");
        ("brim_width", TKey "brim_width")]);
   ("filament",
     list_to_map
       [("filament_type", TKey "filament_type");
        ("temperature", TKey "nozzle_temperature");
        ("bed_temperature", TKeys ["hot_plate_temp"; "cool_plate_temp"])])].

(** A print profile that does not say what it is. *)
Definition printIni : gmap string string :=
  list_to_map
    [("layer_height", "0.2"); ("perimeters", "2"); ("fill_density", "15%");
     ("perimeter_speed", "45"); ("infill_speed", "80"); ("top_solid_layers", "5");
     ("bottom_solid_layers", "4"); ("seam_position", "aligned"); ("skirts", "1");
     ("brim_width", "0"); ("filament_type", "PLA")].

(** The same parameter names with other values. *)
Definition otherValues : gmap string string := (fun _ => "1") <$> printIni.

(** The type map of filament profiles, and a filament profile. *)
Definition filamentMap : gmap string Target :=
  list_to_map
    [("filament_type", TKey "filament_type");
     ("temperature", TKey "nozzle_temperature");
     ("bed_temperature", TKeys ["hot_plate_temp"; "cool_plate_temp"])].

Definition filamentWorld : World :=
  Sample.typedWorld "filament"
    [("filament_type", "PET"); ("temperature", "240"); ("bed_temperature", "85");
     ("filament_notes", "dry before use")].

End Profiles.

(** * Properties *)

(** ** The tests of the repository, replayed on the embedding

    The expectations of [utils.test.ts] and [conversion.test.ts], evaluated
    on the definitions above. *)

Example replay_isDecimal_isPercent :
  map (fun s => isDecimal (Some s)) ["123.45"; "123"; "0"; "0.5"; "-123.45"; "+123.45"]
    = [true; true; true; true; true; true] /\
  map isDecimal [Some "abc"; Some "123abc"; Some "12.34.56"; Some ""; None; Some "50%"]
    = [false; false; false; false; false; false] /\
  map (fun s => isPercent (Some s)) ["50%"; "123.45%"; "0%"; "-50%"; "+50%"]
    = [true; true; true; true; true] /\
  map isPercent [Some "50"; Some "abc%"; Some ""; None; Some "50%%"]
    = [false; false; false; false; false].
Proof. repeat split. Qed.

Example replay_removePercent_multivalueToArray :
  map removePercent [Some "50%"; Some "123.45%"; None; Some ""; Some "50"]
    = ["50"; "123.45"; ""; ""; "50"] /\
  multivalueToArray (Some "a, b, c") = ["a"; "b"; "c"] /\
  multivalueToArray (Some "1;2;3") = ["1"; "2"; "3"] /\
  multivalueToArray (Some "a, b; c") = ["a"; "b; c"] /\
  multivalueToArray (Some "  a  ,  b  ,  c  ") = ["a"; "b"; "c"] /\
  multivalueToArray None = [] /\
  multivalueToArray (Some "") = [] /\
  multivalueToArray (Some "single") = ["single"].
Proof. repeat split. Qed.

Example replay_unbackslash :
  unbackslash "Hello\nWorld" = "Hello" +:+ nl +:+ "World" /\
  unbackslash "Tab\tHere" = "Tab" +:+ tab +:+ "Here" /\
  unbackslash "Path\\to\\file" = "Path\" +:+ tab +:+ "o\file" /\
  unbackslash "\\" = "\" /\
  unbackslash "\\\\" = "\\" /\
  unbackslash "Say \'hello\'" = "Say 'hello'" /\
  unbackslash "normal string" = "normal string".
Proof. repeat split. Qed.

Example replay_numeric_helpers :
  map (fun s => percentToFloat (Some s)) ["150%"; "100%"; "50%"; "200%"; "300%"; "abc"]
    = ["1.5"; "1"; "0.5"; "2"; "2"; "abc"] /\
  percentToMm (VNum (JsNumber.parseFloat "0.4")) (Some "200%") = Some "0.8" /\
  percentToMm (VNum (JsNumber.ofZ 20)) (Some "25%") = Some "5" /\
  percentToMm (VNum (JsNumber.ofZ 10)) (Some "abc") = Some "abc" /\
  percentToMm (VNum (JsNumber.ofZ 10)) None = None /\
  percentToMm (VStr "50%") (Some "50%") = None /\
  percentToMm (VNum (JsNumber.parseFloat "0.4")) (Some "150%")
    = Some "0.6000000000000001" /\
  mmToPercent (VStr "0.4") (Some "0.8") = Some "200%" /\
  mmToPercent (VNum (JsNumber.ofZ 20)) (Some "5") = Some "25%" /\
  mmToPercent (VNum (JsNumber.ofZ 10)) (Some "50%") = Some "50%" /\
  mmToPercent (VStr "50%") (Some "5") = None.
Proof. repeat split; vm_compute; reflexivity. Qed.

Example replay_print_order_and_ironing :
  evaluatePrintOrder (Some false) (Some false) = "inner wall/outer wall/infill" /\
  evaluatePrintOrder (Some true) (Some false) = "outer wall/inner wall/infill" /\
  evaluatePrintOrder (Some false) (Some true) = "infill/inner wall/outer wall" /\
  evaluatePrintOrder (Some true) (Some true) = "infill/outer wall/inner wall" /\
  evaluatePrintOrder None None = "inner wall/outer wall/infill" /\
  evaluateIroningType (Some true) (Some "top surface") = "top surface" /\
  evaluateIroningType (Some false) (Some "top surface") = "no ironing" /\
  evaluateIroningType (Some true) None = "no ironing" /\
  evaluateIroningType None (Some "top surface") = "no ironing".
Proof. repeat split. Qed.

Example replay_convertParams :
  let run type entries parameter :=
    (convertParams Sample.parameterMap Sample.keep parameter None
       (Sample.typedWorld type entries)).1 in
  run "print" [] "nonexistent" = RUndef /\
  run "print" [("test_param", "nil")] "test_param" = RUndef /\
  run "filament" [("filament_type", "PET")] "filament_type" = RStr "PETG" /\
  run "filament" [("filament_max_volumetric_speed", "0"); ("filament_type", "PLA")]
    "filament_max_volumetric_speed" = RStr "15" /\
  run "print" [("draft_shield", "enabled")] "draft_shield" = RStr "1" /\
  run "filament" [("external_perimeter_fan_speed", "-1")]
    "external_perimeter_fan_speed" = RStr "0%" /\
  run "print" [("bridge_flow_ratio", "150%")] "bridge_flow_ratio" = RStr "1.5" /\
  run "print" [("machine_limits_usage", "emit_to_gcode")] "machine_limits_usage"
    = RStr "1" /\
  run "print" [("remaining_times", "0")] "remaining_times" = RStr "1" /\
  run "print" [("fill_pattern", "rectilinear")] "fill_pattern" = RStr "zig-zag" /\
  run "printer" [("gcode_flavor", "marlin")] "gcode_flavor" = RStr "marlin" /\
  run "print" [("output_filename_format", "[input_filename_base].gcode")]
    "output_filename_format" = RStr "{input_filename_base}.gcode" /\
  run "printer" [("start_gcode", "G28\nG1 X0 Y0")] "start_gcode"
    = RStr ("G28" +:+ nl +:+ "G1 X0 Y0") /\
  run "unsupported" [("layer_height", "0.2")] "layer_height" = RUndef.
Proof. repeat split; vm_compute; reflexivity. Qed.

Example replay_fan_out :
  let w' :=
    (convertParams Sample.parameterMap Sample.keep "bed_temperature" None
       (Sample.typedWorld "filament" [("bed_temperature", "60")])).2 in
  newHash w' !! "hot_plate_temp" = Some (HStr "60") /\
  newHash w' !! "cool_plate_temp" = Some (HStr "60").
Proof. split; vm_compute; reflexivity. Qed.

Example replay_calculatePrintParams :
  let out entries :=
    newHash (calculatePrintParams Sample.parameterMap Sample.keep
               (Sample.printWorld entries)).2 in
  out [("perimeter_speed", "60.123")] !! "inner_wall_speed" = Some (HStr "60.1") /\
  out [("perimeter_speed", "60"); ("external_perimeter_speed", "50%");
       ("infill_speed", "80"); ("first_layer_speed", "30%")]
    !! "outer_wall_speed" = Some (HStr "30") /\
  out [("enable_dynamic_overhang_speeds", "1"); ("overhang_speed_0", "100");
       ("overhang_speed_1", "80"); ("overhang_speed_2", "60");
       ("overhang_speed_3", "40")] !! "overhang_1_4_speed" = Some (HStr "40") /\
  out [] !! "wall_infill_order" = Some (HStr "inner wall/outer wall/infill") /\
  out [] !! "ironing_type" = Some (HStr "no ironing").
Proof. repeat split; vm_compute; reflexivity. Qed.

(** ** Value utilities *)

Lemma truthy_nonempty (s : string) : truthy s = true <-> s <> "".
Proof. destruct s; cbn; split; congruence. Qed.

Lemma truthy_false (s : string) : truthy s = false <-> s = "".
Proof. destruct s; cbn; split; congruence. Qed.

Lemma isPercent_truthy (s : string) : isPercent (Some s) = true -> truthy s = true.
Proof. cbn. now intros [H _]%andb_prop. Qed.

Lemma isPercent_nonempty (s : string) : isPercent (Some s) = true -> s <> "".
Proof. intros H%isPercent_truthy. now apply truthy_nonempty. Qed.

Lemma orElse_truthy (s d : string) : truthy s = true -> orElse (Some s) d = s.
Proof. cbn. now intros ->. Qed.

Lemma orElse_self (s : string) : orElse (Some s) s = s.
Proof. cbn. now destruct (truthy s). Qed.

Lemma orElse_None (d : string) : orElse None d = d.
Proof. reflexivity. Qed.

(** C7: [percentToFloat] gives the empty string for an undefined argument
    and hands back unchanged an argument that is not a percentage string; on
    a percentage string it gives the text of the numeric part divided by
    100, and the text [2] as soon as that quotient exceeds 2; so 250% gives
    2, 100% gives 1, and 50 stays 50. *)
Theorem percentToFloat_cases :
  percentToFloat None = "" /\
  (forall s, isPercent (Some s) = false -> percentToFloat (Some s) = s) /\
  (forall s, isPercent (Some s) = true ->
     let quotient :=
       PrimFloat.div (JsNumber.parseFloat (removePercent (Some s))) hundred in
     percentToFloat (Some s) =
       if PrimFloat.ltb two quotient then "2" else JsNumber.toString quotient) /\
  percentToFloat (Some "250%") = "2" /\
  percentToFloat (Some "100%") = "1" /\
  percentToFloat (Some "50") = "50".
Proof.
  split; [reflexivity|].
  split.
  { intros s Hs. unfold percentToFloat. rewrite Hs, orb_true_r.
    cbn. destruct (truthy s) eqn:E; [reflexivity|].
    symmetry. now apply truthy_false. }
  split.
  { intros s Hs. unfold percentToFloat. rewrite Hs.
    cbn [truthyOpt]. rewrite (isPercent_truthy s Hs). reflexivity. }
  repeat split; vm_compute; reflexivity.
Qed.

(** C5 (counterexample): with the number 0 as base, which is neither
    undefined nor the empty string, nothing is produced, whether the second
    argument is a percentage or not; the product that the specification
    announces for the first call would print as 0. *)
Lemma percentToMm_zero_base :
  percentToMm (VNum PrimFloat.zero) (Some "50%") = None /\
  percentToMm (VNum PrimFloat.zero) (Some "5") = None /\
  JsNumber.toString
    (PrimFloat.mul PrimFloat.zero
       (PrimFloat.div (JsNumber.parseFloat "50") hundred)) = "0".
Proof. repeat split; vm_compute; reflexivity. Qed.

(** C5 (amended): [percentToMm] produces nothing when an argument is
    undefined or the empty string, and also when the base is a falsy number
    (0 or NaN); otherwise it hands back a second argument that is not a
    percentage string; otherwise it produces nothing when the text of the
    base is a percentage string; otherwise it produces the text of
    base * (pct / 100).  So 50% of the number 10 is 5, and 5 against 10
    stays 5. *)
Theorem percentToMm_cases :
  (forall base pct,
     base = VUndef \/ base = VStr "" \/
     (exists x, base = VNum x /\ JsNumber.truthyNumber x = false) \/
     pct = None \/ pct = Some "" ->
     percentToMm base pct = None) /\
  (forall base s,
     truthyVal base = true -> s <> "" -> isPercent (Some s) = false ->
     percentToMm base (Some s) = Some s) /\
  (forall base s,
     truthyVal base = true -> isPercent (Some s) = true ->
     isPercent (Some (stringOfVal base)) = true ->
     percentToMm base (Some s) = None) /\
  (forall base s,
     truthyVal base = true -> isPercent (Some s) = true ->
     isPercent (Some (stringOfVal base)) = false ->
     percentToMm base (Some s) =
       Some (JsNumber.toString
               (PrimFloat.mul (numericOf base)
                  (PrimFloat.div (JsNumber.parseFloat (removePercent (Some s)))
                     hundred)))) /\
  percentToMm (VNum (JsNumber.ofZ 10)) (Some "50%") = Some "5" /\
  percentToMm (VNum (JsNumber.ofZ 10)) (Some "5") = Some "5" /\
  percentToMm VUndef (Some "50%") = None.
Proof.
  split.
  { intros base pct H. unfold percentToMm.
    destruct H as [-> | [-> | [(x & -> & Hx) | [-> | ->]]]]; cbn;
      rewrite ?Hx, ?orb_true_r; reflexivity. }
  split.
  { intros base s Hb Hs Hp. unfold percentToMm.
    apply truthy_nonempty in Hs. cbn [truthyOpt]. rewrite Hb, Hs, Hp. cbn.
    destruct base as [|b|x]; cbn in *; try discriminate.
    - unfold truthy in *. destruct (isEmpty b), (isEmpty s); cbn in *;
        congruence.
    - unfold truthy in Hs. now destruct (isEmpty s). }
  assert (Hnonempty : forall base s,
            truthyVal base = true -> isPercent (Some s) = true ->
            isEmptyStringVal base || isEmptyStringVal (valOfOpt (Some s)) = false).
  { intros base s Hb Hs. apply isPercent_truthy in Hs.
    destruct base as [|b|x]; cbn in *; try discriminate;
      unfold truthy in *; destruct (isEmpty s); cbn in *; try congruence.
    destruct (isEmpty b); cbn in *; congruence. }
  split.
  { intros base s Hb Hs Hbp. unfold percentToMm.
    rewrite (Hnonempty base s Hb Hs). cbn [truthyOpt].
    rewrite Hb, (isPercent_truthy s Hs), Hs, Hbp. reflexivity. }
  split.
  { intros base s Hb Hs Hbp. unfold percentToMm.
    rewrite (Hnonempty base s Hb Hs). cbn [truthyOpt].
    rewrite Hb, (isPercent_truthy s Hs), Hs, Hbp. reflexivity. }
  repeat split; vm_compute; reflexivity.
Qed.

(** C6 (counterexample): a base whose numeric value is zero and a
    millimeter argument that is already a percentage: the number 0 gives
    nothing, the text 0 gives the argument back.  No order between the
    clause on a percentage argument and the clause on a zero base describes
    both; read in the order of the specification, the first call should give
    50%. *)
Lemma mmToPercent_zero_base :
  mmToPercent (VNum PrimFloat.zero) (Some "50%") = None /\
  mmToPercent (VStr "0") (Some "50%") = Some "50%".
Proof. split; vm_compute; reflexivity. Qed.

(** C6 (amended): [mmToPercent] produces nothing when an argument is
    undefined or the empty string, and also when the base is a falsy number
    (0 or NaN); otherwise it hands back a second argument that is already a
    percentage string; otherwise it produces nothing when the text of the
    base is a percentage string or when the base reads as zero; otherwise it
    produces the text of (mm / base) * 100 followed by the percent sign.  So
    5 against the number 10 is 50%, and nothing comes out against 0. *)
Theorem mmToPercent_cases :
  (forall base mm,
     base = VUndef \/ base = VStr "" \/
     (exists x, base = VNum x /\ JsNumber.truthyNumber x = false) \/
     mm = None \/ mm = Some "" ->
     mmToPercent base mm = None) /\
  (forall base s,
     truthyVal base = true -> isPercent (Some s) = true ->
     mmToPercent base (Some s) = Some s) /\
  (forall base s,
     truthyVal base = true -> s <> "" -> isPercent (Some s) = false ->
     isPercent (Some (stringOfVal base)) = true \/
     PrimFloat.eqb (numericOf base) PrimFloat.zero = true ->
     mmToPercent base (Some s) = None) /\
  (forall base s,
     truthyVal base = true -> s <> "" -> isPercent (Some s) = false ->
     isPercent (Some (stringOfVal base)) = false ->
     PrimFloat.eqb (numericOf base) PrimFloat.zero = false ->
     mmToPercent base (Some s) =
       Some (JsNumber.toString
               (PrimFloat.mul
                  (PrimFloat.div (JsNumber.parseFloat s) (numericOf base))
                  hundred) +:+ "%")) /\
  mmToPercent (VNum (JsNumber.ofZ 10)) (Some "5") = Some "50%" /\
  mmToPercent (VNum PrimFloat.zero) (Some "5") = None /\
  mmToPercent (VStr "0") (Some "5") = None.
Proof.
  split.
  { intros base mm H. unfold mmToPercent.
    destruct H as [-> | [-> | [(x & -> & Hx) | [-> | ->]]]]; cbn;
      rewrite ?Hx, ?orb_true_r; reflexivity. }
  split.
  { intros base s Hb Hs. unfold mmToPercent. cbn [truthyOpt].
    rewrite Hb, (isPercent_truthy s Hs), Hs. reflexivity. }
  split.
  { intros base s Hb Hs Hp H. apply truthy_nonempty in Hs.
    unfold mmToPercent. cbn [truthyOpt]. rewrite Hb, Hs, Hp. cbn [negb orb].
    destruct (isPercent (Some (stringOfVal base))); [reflexivity|].
    destruct H as [H|H]; [discriminate|]. now rewrite H. }
  split.
  { intros base s Hb Hs Hp Hbp Hz. apply truthy_nonempty in Hs.
    unfold mmToPercent. cbn [truthyOpt]. rewrite Hb, Hs, Hp, Hbp, Hz.
    cbn [negb orb]. now rewrite (orElse_truthy s "" Hs). }
  repeat split; vm_compute; reflexivity.
Qed.

(** ** What the engine only reads *)

Lemma sameInputs_refl (w : World) : sameInputs w w.
Proof. now repeat split. Qed.

Lemma sameInputs_trans (w1 w2 w3 : World) :
  sameInputs w1 w2 -> sameInputs w2 w3 -> sameInputs w1 w3.
Proof.
  intros (a1 & b1 & c1) (a2 & b2 & c2).
  repeat split; congruence.
Qed.

Lemma frames_ret {A : Type} (a : A) : frames (mret a : M A).
Proof. intros w. apply sameInputs_refl. Qed.

Lemma frames_reads {A : Type} (f : World -> A) : frames (reads f).
Proof. intros w. apply sameInputs_refl. Qed.

Lemma frames_setOutput (key : string) (v : HVal) : frames (setOutput key v).
Proof. intros w. now repeat split. Qed.

Lemma frames_ask (menu : Menu) (prompt : string) (one : bool) (options : list string) :
  frames (ask menu prompt one options).
Proof. intros w. now repeat split. Qed.

Lemma frames_setToVar (f : ToVar -> ToVar) : frames (modifyStatus (setToVar f)).
Proof. intros w. now repeat split. Qed.

Lemma frames_setIroningType (t : option string) :
  frames (modifyStatus (setIroningType t)).
Proof. intros w. now repeat split. Qed.

Lemma frames_setValue (f : StatusValue -> StatusValue) :
  frames (modifyStatus (setValue f)).
Proof. intros w. now repeat split. Qed.

Lemma frames_bind {A B : Type} (m : M A) (k : A -> M B) :
  frames m -> (forall a, frames (k a)) -> frames (m ≫= k).
Proof.
  intros Hm Hk w. unfold mbind, M_bind.
  specialize (Hm w). destruct (m w) as [a w1]. cbn in Hm.
  eapply sameInputs_trans; [exact Hm | apply Hk].
Qed.

Lemma frames_forEach {A : Type} (body : A -> M unit) (l : list A) :
  (forall a, frames (body a)) -> frames (forEach body l).
Proof.
  intros Hb. induction l as [|a l IH]; cbn [forEach].
  - apply frames_ret.
  - apply frames_bind; [apply Hb | intros _; exact IH].
Qed.

Create HintDb frame discriminated.

#[export] Hint Resolve frames_ret frames_reads frames_setOutput frames_ask
  frames_setToVar frames_setIroningType frames_setValue : frame.

(** One step of a frame proof: a primitive, a sequence, or a branch. *)
Ltac frame_step :=
  first
    [ solve [auto with frame]
    | apply frames_bind; [| intros ?]
    | apply frames_forEach; intros ?
    | match goal with
      | |- frames (if ?c then _ else _) => destruct c
      | |- frames (match ?x with _ => _ end) => destruct x
      end ].

Ltac frame := repeat frame_step.

Lemma tableGet_Forall {V : Type} (P : V -> Prop) (t : Table V) (key : string) (v : V) :
  Forall (fun e => P e.2) t -> tableGet t key = Some v -> P v.
Proof.
  induction 1 as [|[k x] t Hx _ IH]; cbn; [discriminate|].
  destruct (String.eqb key k); [intros [= <-]; exact Hx | exact IH].
Qed.

Lemma frames_handleCompatibleCondition (menu : Menu) (parameter : string)
    (file : option string) (newValue : string) :
  frames (handleCompatibleCondition menu parameter file newValue).
Proof. unfold handleCompatibleCondition. frame. Qed.

Lemma frames_specialCases (menu : Menu) (parameter : string) (file : option string)
    (newValue : string) (defaultSpeed : option string) :
  Forall (fun e => frames e.2) (specialCases menu parameter file newValue defaultSpeed).
Proof.
  unfold specialCases.
  repeat (apply Forall_cons; split;
          [cbn [snd]; first [apply frames_handleCompatibleCondition
                            | apply frames_reads
                            | unfold rule_ironing_type, rule_support_material_style;
                              frame ] |]).
  apply Forall_nil_2.
Qed.

Lemma frames_convertValue (pm : ParameterMap) (menu : Menu) (parameter : string)
    (file : option string) (newValue : string) :
  frames (convertValue pm menu parameter file newValue).
Proof.
  unfold convertValue.
  apply frames_bind; [apply frames_reads | intros st].
  apply frames_bind; [apply frames_reads | intros defaultSpeed].
  destruct (noTargetSchema (iniType st)); [apply frames_ret|].
  destruct (tableGet pm _) as [typeMap|]; [|apply frames_ret].
  assert (Hrules :
    frames (if String.eqb parameter "external_perimeters_first" then
              modifyStatus (setToVar (setExternalPerimetersFirst (truthy newValue)));;
              mret RUndef
            else if String.eqb parameter "infill_first" then
              modifyStatus (setToVar (setInfillFirst (truthy newValue)));;
              mret RUndef
            else if String.eqb parameter "ironing" then
              modifyStatus (setToVar (setIroning (truthy newValue)));;
              mret RUndef
            else
              match tableGet (specialCases menu parameter file newValue defaultSpeed)
                      parameter with
              | Some rule => result ← rule; mret (RStr result)
              | None => mret (RStr newValue)
              end)).
  { repeat (destruct (String.eqb parameter _); [frame|]).
    destruct (tableGet _ parameter) as [rule|] eqn:E; [|apply frames_ret].
    apply frames_bind; [|intros; apply frames_ret].
    exact (tableGet_Forall frames _ _ _ (frames_specialCases _ _ _ _ _) E). }
  destruct (typeMap !! parameter) as [[k|ks]|]; [exact Hrules | | exact Hrules].
  frame.
Qed.

Lemma frames_convertParams (pm : ParameterMap) (menu : Menu) (parameter : string)
    (file : option string) :
  frames (convertParams pm menu parameter file).
Proof.
  unfold convertParams.
  apply frames_bind; [apply frames_reads | intros raw].
  destruct (negb (truthyOpt raw)); [apply frames_ret|].
  destruct (bool_decide _); [apply frames_ret|].
  destruct (tableGet multivalueParams parameter) as [[|]|];
    first [apply frames_convertValue | apply frames_ret].
Qed.

Lemma frames_convertSpeed (pm : ParameterMap) (menu : Menu) (parameter : string) :
  frames (convertSpeed pm menu parameter).
Proof.
  unfold convertSpeed.
  apply frames_bind; [apply frames_reads | intros present].
  destruct (negb present); [apply frames_ret|].
  apply frames_bind; [apply frames_convertParams | intros r].
  frame.
Qed.

Lemma frames_speedLoop (pm : ParameterMap) (menu : Menu) (l : list string) :
  frames (forEach (convertSpeed pm menu) l).
Proof. apply frames_forEach. intros. apply frames_convertSpeed. Qed.

Lemma frames_calculatePrintParams (pm : ParameterMap) (menu : Menu) :
  frames (calculatePrintParams pm menu).
Proof.
  unfold calculatePrintParams.
  apply frames_bind; [apply frames_speedLoop | intros _].
  apply frames_bind; [apply frames_reads | intros enabled].
  apply frames_bind; [apply frames_setOutput | intros _].
  apply frames_bind.
  { destruct enabled; [|apply frames_ret].
    apply frames_bind; [apply frames_reads | intros speeds].
    apply frames_forEach. intros [idx key]. apply frames_setOutput. }
  intros _. frame.
Qed.

(** C9: the source profile is read-only to the core: whatever the inputs and
    whatever the operator answers, the source map after a call of
    [convertParams], and after a call of [calculatePrintParams], is the map
    before the call: the same keys with the same values. *)
Theorem source_profile_is_read_only (pm : ParameterMap) (menu : Menu) :
  (forall parameter file w,
     sourceIni (convertParams pm menu parameter file w).2 = sourceIni w) /\
  (forall w, sourceIni (calculatePrintParams pm menu w).2 = sourceIni w).
Proof.
  split.
  - intros parameter file w. apply (frames_convertParams pm menu parameter file w).
  - intros w. apply (frames_calculatePrintParams pm menu w).
Qed.

(** ** From a call to the rule it runs *)

(** Evaluates the comparisons of two literal names and the lookup in the
    dictionary of rules, and nothing else. *)
Ltac run_dispatch :=
  repeat match goal with
    | |- context [tableGet (specialCases ?m ?p ?f ?v ?d) ?q] =>
        let t := eval lazy beta iota zeta delta
                   [tableGet specialCases String.eqb Ascii.eqb Bool.eqb]
                 in (tableGet (specialCases m p f v d) q) in
        progress change (tableGet (specialCases m p f v d) q) with t
    | |- context [String.eqb ?a ?b] =>
        let r := eval vm_compute in (String.eqb a b) in
        lazymatch r with
        | true => change (String.eqb a b) with true
        | false => change (String.eqb a b) with false
        end
    end;
  cbv beta iota.

Lemma noTargetSchema_false (type : string) :
  type <> "" -> type <> "unsupported" -> type <> "physical_printer" ->
  noTargetSchema (Some type) = false.
Proof.
  intros H1 H2 H3. unfold noTargetSchema. cbn [truthyOpt].
  apply truthy_nonempty in H1. rewrite H1. cbn.
  rewrite !bool_decide_eq_false_2; [reflexivity | congruence | congruence].
Qed.

(** A call that gets past the short-circuits sets a combination flag, or
    runs the rule registered under the parameter name, or hands the value
    through. *)
Lemma convertParams_reaches (pm : ParameterMap) (menu : Menu) (parameter : string)
    (file : option string) (w : World) (newValue : string) :
  reachesRules pm parameter w newValue ->
  convertParams pm menu parameter file w =
    if String.eqb parameter "external_perimeters_first" then
      (RUndef, withStatus (setToVar (setExternalPerimetersFirst (truthy newValue))) w)
    else if String.eqb parameter "infill_first" then
      (RUndef, withStatus (setToVar (setInfillFirst (truthy newValue))) w)
    else if String.eqb parameter "ironing" then
      (RUndef, withStatus (setToVar (setIroning (truthy newValue))) w)
    else
      match tableGet (specialCases menu parameter file newValue (defaultSpeedOf w))
              parameter with
      | Some rule => let '(result, w') := rule w in (RStr result, w')
      | None => (RStr newValue, w)
      end.
Proof.
  intros (raw & type & typeMap & Hsrc & Hne & Hnil & Harr & -> & Hty & Ht1 & Ht2
          & Ht3 & Hpm & Hfan).
  assert (Hvalue :
    convertValue pm menu parameter file (settled parameter raw) w =
    if String.eqb parameter "external_perimeters_first" then
      (RUndef, withStatus (setToVar (setExternalPerimetersFirst
                                      (truthy (settled parameter raw)))) w)
    else if String.eqb parameter "infill_first" then
      (RUndef, withStatus (setToVar (setInfillFirst (truthy (settled parameter raw)))) w)
    else if String.eqb parameter "ironing" then
      (RUndef, withStatus (setToVar (setIroning (truthy (settled parameter raw)))) w)
    else
      match tableGet (specialCases menu parameter file (settled parameter raw)
                        (defaultSpeedOf w)) parameter with
      | Some rule => let '(result, w') := rule w in (RStr result, w')
      | None => (RStr (settled parameter raw), w)
      end).
  { generalize (settled parameter raw). intros newValue.
    unfold convertValue, mbind, M_bind, reads.
    rewrite Hty, (noTargetSchema_false type Ht1 Ht2 Ht3). cbn [valOfOpt stringOfVal].
    rewrite Hpm. fold (defaultSpeedOf w).
    assert (Hcase : typeMap !! parameter = None \/
                    exists k, typeMap !! parameter = Some (TKey k)).
    { destruct (typeMap !! parameter) as [[k|ks]|] eqn:E; eauto.
      now destruct (Hfan ks). }
    destruct Hcase as [-> | [k ->]];
      repeat (destruct (String.eqb parameter _); [reflexivity|]);
      destruct (tableGet (specialCases _ _ _ _ _) parameter) as [rule|];
      try reflexivity; destruct (rule w); reflexivity. }
  unfold convertParams, mbind, M_bind, reads, source. rewrite Hsrc.
  cbn [truthyOpt]. apply truthy_nonempty in Hne. rewrite Hne. cbn [negb].
  rewrite bool_decide_eq_false_2 by congruence.
  rewrite <- Hvalue. unfold settled.
  destruct (tableGet multivalueParams parameter) as [[|]|];
    [reflexivity | congruence | now rewrite (orElse_truthy raw "" Hne)].
Qed.

(** A closed instance of [reachesRules], by evaluation. *)
Ltac reaches_by_evaluation raw type :=
  exists raw, type; eexists;
  split; [vm_compute; reflexivity|];
  repeat (split; [discriminate || reflexivity|]);
  intros ?; vm_compute; discriminate.

(** ** Combination flags *)



(** ** The support-style rule *)




(** ** Compatibility conditions *)

Lemma reaches_source (pm : ParameterMap) (parameter : string) (w : World) (v : string) :
  tableGet multivalueParams parameter = None ->
  reachesRules pm parameter w v -> sourceIni w !! parameter = Some v.
Proof.
  intros Hmv (raw & ? & ? & Hsrc & _ & _ & _ & -> & _).
  unfold settled. now rewrite Hmv.
Qed.




(** ** Numeric helpers inside the rules *)

(** C1 (counterexample): with no nozzle size configured, [percentToMm] gives
    nothing for the [max_layer_height] value 50%, and the call produces the
    empty string, not the source value. *)
Lemma nozzle_rule_falls_back_to_empty :
  percentToMm (VStr "") (Some "50%") = None /\
  convertParams Sample.parameterMap Sample.keep "max_layer_height" None
    (Sample.noNozzleWorld [("max_layer_height", "50%")]) =
    (RStr "", Sample.noNozzleWorld [("max_layer_height", "50%")]).
Proof. split; vm_compute; reflexivity. Qed.

Ltac unfold_helper_rules :=
  unfold rule_external_perimeter_speed, rule_top_solid_infill_speed,
    rule_support_material_interface_speed, rule_first_layer_infill_speed,
    rule_solid_infill_speed, rule_default_speed_based, rule_output_based,
    rule_nozzle_percent, rule_wall_transition_length,
    rule_support_material_xy_spacing, orOpt, reads in *;
  cbv beta iota zeta.

Ltac absorb Hcall :=
  cbv beta iota zeta in Hcall;
  unfold_helper_rules;
  repeat match type of Hcall with
    | context [if ?c then _ else _] => destruct c eqn:?
    end;
  try discriminate Hcall;
  injection Hcall as Hcall; rewrite ?Hcall; reflexivity.

(** C1 (amended): in a call that gets past the short-circuits, the rule of a
    parameter that converts through a numeric helper changes nothing and
    always produces a string, so a helper that gives nothing is never an
    error of the call.  When the helper gives nothing, that string is the
    unmodified source value for the twelve speed-family rules, and the empty
    string for the rules that convert against the nozzle size
    ([max_layer_height], [min_layer_height], [fuzzy_skin_point_dist],
    [fuzzy_skin_thickness], [small_perimeter_min_length],
    [wall_transition_length], and [support_material_xy_spacing] once its
    retry has given nothing too). *)
Theorem helper_failure_is_absorbed (pm : ParameterMap) (menu : Menu)
    (parameter : string) (file : option string) (w : World) (v : string) :
  reachesRules pm parameter w v ->
  (speedRuleCall parameter v w = Some None ->
   sourceIni w !! parameter = Some v /\
   convertParams pm menu parameter file w = (RStr v, w)) /\
  (nozzleRuleCall parameter v w = Some None ->
   convertParams pm menu parameter file w = (RStr "", w)) /\
  (is_Some (speedRuleCall parameter v w) \/ is_Some (nozzleRuleCall parameter v w) ->
   exists s, convertParams pm menu parameter file w = (RStr s, w)).
Proof.
  intros Hreach. split; [|split]; intros Hcall.
  - unfold speedRuleCall in Hcall.
    repeat match type of Hcall with
      | context [String.eqb parameter ?name] =>
          destruct (String.eqb_spec parameter name) as [-> | _];
          [ split; [apply reaches_source with (pm := pm); [reflexivity | exact Hreach]|];
            rewrite (convertParams_reaches pm menu _ file w v Hreach);
            run_dispatch; absorb Hcall | ]
      end.
    discriminate Hcall.
  - unfold nozzleRuleCall in Hcall.
    repeat match type of Hcall with
      | context [String.eqb parameter ?name] =>
          destruct (String.eqb_spec parameter name) as [-> | _];
          [ rewrite (convertParams_reaches pm menu _ file w v Hreach);
            run_dispatch; absorb Hcall | ]
      end.
    discriminate Hcall.
  - destruct Hcall as [[call Hcall] | [call Hcall]];
      unfold speedRuleCall, nozzleRuleCall in Hcall;
      repeat match type of Hcall with
        | context [String.eqb parameter ?name] =>
            destruct (String.eqb_spec parameter name) as [-> | _];
            [ rewrite (convertParams_reaches pm menu _ file w v Hreach);
              run_dispatch; unfold_helper_rules; eexists; reflexivity | ]
        end;
      discriminate Hcall.
Qed.

(** C1, on samples: a percentage speed with no [perimeter_speed] to refer
    to, and a percentage layer height with no nozzle size. *)
Lemma helper_failure_witness :
  (sourceIni (Sample.printWorld [("external_perimeter_speed", "50%")])
     !! "external_perimeter_speed" = Some "50%" /\
   convertParams Sample.parameterMap Sample.keep "external_perimeter_speed" None
     (Sample.printWorld [("external_perimeter_speed", "50%")]) =
     (RStr "50%", Sample.printWorld [("external_perimeter_speed", "50%")])) /\
  convertParams Sample.parameterMap Sample.keep "max_layer_height" None
    (Sample.noNozzleWorld [("max_layer_height", "50%, 60%")]) =
    (RStr "", Sample.noNozzleWorld [("max_layer_height", "50%, 60%")]).
Proof.
  split.
  - refine (proj1 (helper_failure_is_absorbed Sample.parameterMap Sample.keep
                     "external_perimeter_speed" None _ "50%" _) _);
      [reaches_by_evaluation "50%" "print" | vm_compute; reflexivity].
  - refine (proj1 (proj2 (helper_failure_is_absorbed Sample.parameterMap
                            Sample.keep "max_layer_height" None _ "50%" _)) _);
      [reaches_by_evaluation "50%, 60%" "print" | vm_compute; reflexivity].
Defined.

(** ** The post-processor *)

Lemma gatherSpeeds_sameInputs (w w' : World) :
  sameInputs w w' -> gatherSpeeds w' = gatherSpeeds w.
Proof.
  intros (Hs & Hf & _). unfold gatherSpeeds, source. now rewrite Hs, Hf.
Qed.

(** The output map after [calculatePrintParams], from the world [w1] that
    the pass over the speed table leaves. *)
Lemma calculatePrintParams_output (pm : ParameterMap) (menu : Menu) (w : World) :
  let w1 := (forEach (convertSpeed pm menu) speedSequence w).2 in
  let speeds := gatherSpeeds w1 in
  let speed (i : nat) := HStr (orElse (speeds !! i) "") in
  let order :=
    HStr (evaluatePrintOrder (externalPerimetersFirst (toVar (status w1)))
            (infillFirst (toVar (status w1)))) in
  let kind :=
    HStr (evaluateIroningType (ironing (toVar (status w1))) (ironingType (status w1))) in
  newHash (calculatePrintParams pm menu w).2 =
    <["ironing_type" := kind]>
      (<["wall_infill_order" := order]>
         (if truthyOpt (source w1 "enable_dynamic_overhang_speeds") then
            <["overhang_4_4_speed" := speed 0%nat]>
              (<["overhang_3_4_speed" := speed 1%nat]>
                 (<["overhang_2_4_speed" := speed 2%nat]>
                    (<["overhang_1_4_speed" := speed 3%nat]>
                       (<["enable_overhang_speed" := HStr "1"]> (newHash w1)))))
          else <["enable_overhang_speed" := HStr "0"]> (newHash w1))).
Proof.
  cbv zeta. unfold calculatePrintParams, mbind, M_bind.
  destruct (forEach (convertSpeed pm menu) speedSequence w) as [u w1].
  cbn [snd]. unfold reads at 1.
  destruct (truthyOpt (source w1 "enable_dynamic_overhang_speeds")); reflexivity.
Qed.


(** ** The type detector *)

Lemma countMatches_from (typeMap : gmap string Target) (keys : list string) (n : nat) :
  foldl (fun count param =>
           if bool_decide (is_Some (typeMap !! param)) then S count else count)
    n keys =
  (n + length (filter (fun k => is_Some (typeMap !! k)) keys))%nat.
Proof.
  revert n. induction keys as [|k keys IH]; intros n; cbn [foldl].
  - cbn. lia.
  - rewrite IH, filter_cons. case_bool_decide.
    + rewrite decide_True by assumption. cbn. lia.
    + rewrite decide_False by assumption. lia.
Qed.

Lemma countMatches_filter (typeMap : gmap string Target) (keys : list string) :
  countMatches typeMap keys =
  length (filter (fun k => is_Some (typeMap !! k)) keys).
Proof. unfold countMatches. now rewrite countMatches_from. Qed.

Lemma intersection_insert_in (k : string) (D T : gset string) :
  k ∈ T -> ({[k]} ∪ D) ∩ T = {[k]} ∪ (D ∩ T).
Proof.
  intros Hk. rewrite intersection_union_r_L.
  f_equal. apply subseteq_intersection_1_L. now apply singleton_subseteq_l.
Qed.

Lemma intersection_insert_out (k : string) (D T : gset string) :
  k ∉ T -> ({[k]} ∪ D) ∩ T = D ∩ T.
Proof.
  intros Hk. rewrite intersection_union_r_L.
  assert (E : ({[k]} : gset string) ∩ T = ∅).
  { apply disjoint_intersection_L. now apply disjoint_singleton_l. }
  rewrite E. apply (left_id_L ∅ (∪)).
Qed.

(** The loop over the keys of the profile counts the parameter names that
    the profile and the map of the type have in common. *)
Lemma countMatches_matchCount (typeMap : gmap string Target) (ini : gmap string string) :
  countMatches typeMap (map_to_list ini).*1 = matchCount typeMap ini.
Proof.
  rewrite countMatches_filter. unfold matchCount.
  induction ini as [|k v ini Hk IH] using map_ind.
  - rewrite map_to_list_empty, dom_empty_L.
    now rewrite (left_absorb_L ∅ (∩)).
  - rewrite map_to_list_insert by assumption.
    rewrite fmap_cons, filter_cons, dom_insert_L. cbn [fst].
    apply not_elem_of_dom in Hk.
    destruct (decide (is_Some (typeMap !! k))) as [Hin|Hout].
    + apply elem_of_dom in Hin.
      rewrite (intersection_insert_in k _ _ Hin).
      rewrite size_union.
      * rewrite size_singleton. cbn [length]. now rewrite IH.
      * apply disjoint_singleton_l. rewrite elem_of_intersection. tauto.
    + rewrite <- elem_of_dom in Hout.
      rewrite (intersection_insert_out k _ _ Hout). exact IH.
Qed.

Lemma sortInsert_head {A : Type} (cmp : A -> A -> Z) (x : A) (l : list A) :
  head (sortInsert cmp x l) =
  match head l with
  | Some y => if (cmp x y <=? 0)%Z then Some x else Some y
  | None => Some x
  end.
Proof.
  destruct l as [|y l]; cbn; [reflexivity|].
  now destruct (cmp x y <=? 0)%Z.
Qed.

Lemma sortBy_nil {A : Type} (cmp : A -> A -> Z) (l : list A) :
  sortBy cmp l = [] -> l = [].
Proof.
  destruct l as [|x l]; [reflexivity|]. cbn.
  destruct (sortBy cmp l) as [|y s]; cbn; [discriminate|].
  now destruct (cmp x y <=? 0)%Z.
Qed.

(** The head of a list sorted by decreasing score, the sort being stable, is
    the first element of the list that has the highest score. *)
Lemma sortBy_head_first_max {A : Type} (score : A -> nat) (l : list A) (x : A) :
  head (sortBy (fun a b => (Z.of_nat (score b) - Z.of_nat (score a))%Z) l) = Some x ->
  exists before after,
    l = before ++ x :: after /\
    Forall (fun y => (score y < score x)%nat) before /\
    Forall (fun y => (score y <= score x)%nat) after.
Proof.
  revert x. induction l as [|a r IH]; intros x; cbn [sortBy]; [discriminate|].
  rewrite sortInsert_head.
  destruct (head (sortBy _ r)) as [y|] eqn:Hy.
  - destruct (IH y eq_refl) as (before & after & -> & Hb & Ha).
    destruct (Z.leb_spec (Z.of_nat (score y) - Z.of_nat (score a)) 0)
      as [Hle|Hgt]; intros [= <-].
    + exists [], (before ++ y :: after). split; [reflexivity|].
      split; [constructor|].
      apply Forall_app. split.
      * eapply Forall_impl; [exact Hb|]. cbn. intros; lia.
      * constructor; [lia|]. eapply Forall_impl; [exact Ha|]. cbn. intros; lia.
    + exists (a :: before), after. split; [reflexivity|].
      split; [|exact Ha]. constructor; [lia | exact Hb].
  - intros [= <-]. exists [], r. split; [reflexivity|].
    split; [constructor|].
    destruct (sortBy _ r) as [|? ?] eqn:Hs; [|discriminate].
    apply sortBy_nil in Hs. subst r. constructor.
Qed.


(** * Further properties

    Properties of the code beside those of the specification: of the value
    utilities, of the engine, of the type detector, of the profile reader
    and of the driver. *)

(** ** Facts about strings *)

Lemma string_app_cons (a : ascii) (s t : string) : String a s +:+ t = String a (s +:+ t).
Proof. reflexivity. Qed.

Lemma string_app_nil_l (t : string) : "" +:+ t = t.
Proof. reflexivity. Qed.

Lemma string_app_nil_r (s : string) : s +:+ "" = s.
Proof. induction s as [|a s IH]; [reflexivity | now rewrite string_app_cons, IH]. Qed.

Lemma string_app_assoc (a b c : string) : (a +:+ b) +:+ c = a +:+ (b +:+ c).
Proof. induction a as [|x a IH]; [reflexivity | now rewrite !string_app_cons, IH]. Qed.

Lemma string_rev_app_spec (s acc : string) : String.rev_app s acc = String.rev s +:+ acc.
Proof.
  unfold String.rev. revert acc.
  induction s as [|a s IH]; intros acc; cbn [String.rev_app]; [reflexivity|].
  rewrite (IH (String a "")), (IH (String a acc)), string_app_assoc. reflexivity.
Qed.

Lemma string_rev_cons (a : ascii) (s : string) :
  String.rev (String a s) = String.rev s +:+ String a "".
Proof. unfold String.rev at 1. cbn [String.rev_app]. apply string_rev_app_spec. Qed.

Lemma string_rev_app_distr (a b : string) :
  String.rev (a +:+ b) = String.rev b +:+ String.rev a.
Proof.
  induction a as [|x a IH].
  - now rewrite string_app_nil_l, string_app_nil_r.
  - now rewrite string_app_cons, !string_rev_cons, IH, string_app_assoc.
Qed.

Lemma string_rev_involutive (s : string) : String.rev (String.rev s) = s.
Proof.
  induction s as [|a s IH]; [reflexivity|].
  now rewrite string_rev_cons, string_rev_app_distr, IH.
Qed.

(** [trimStart] removes a run of white space from the front. *)
Lemma trimStart_split (s : string) :
  exists w, s = w +:+ trimStart s /\ allWhiteSpace w = true.
Proof.
  induction s as [|a s (w & Hs & Hw)]; [now exists ""|].
  cbn [trimStart]. destruct (isWhiteSpace a) eqn:Ea.
  - exists (String a w). rewrite string_app_cons, <- Hs. cbn. now rewrite Ea, Hw.
  - now exists "".
Qed.

Lemma trimStart_head (s : string) (c : ascii) (r : string) :
  trimStart s = String c r -> isWhiteSpace c = false.
Proof.
  induction s as [|a s IH]; cbn [trimStart]; [discriminate|].
  destruct (isWhiteSpace a) eqn:Ea; [exact IH|].
  now intros [= <- <-].
Qed.

Lemma allWhiteSpace_app (a b : string) :
  allWhiteSpace (a +:+ b) = allWhiteSpace a && allWhiteSpace b.
Proof.
  induction a as [|x a IH]; [reflexivity|].
  rewrite string_app_cons. cbn [allWhiteSpace]. now rewrite IH, andb_assoc.
Qed.

Lemma allWhiteSpace_rev (s : string) : allWhiteSpace (String.rev s) = allWhiteSpace s.
Proof.
  induction s as [|a s IH]; [reflexivity|].
  rewrite string_rev_cons, allWhiteSpace_app, IH. cbn [allWhiteSpace].
  now rewrite andb_true_r, andb_comm.
Qed.

(** [trimEnd] removes a run of white space from the back. *)
Lemma trimEnd_split (s : string) :
  exists w, s = trimEnd s +:+ w /\ allWhiteSpace w = true.
Proof.
  unfold trimEnd.
  destruct (trimStart_split (String.rev s)) as (w & Hs & Hw).
  exists (String.rev w). split.
  - rewrite <- string_rev_app_distr, <- Hs. now rewrite string_rev_involutive.
  - now rewrite allWhiteSpace_rev.
Qed.

Lemma lastChar_rev (s : string) :
  lastChar s = match String.rev s with String c _ => Some c | EmptyString => None end.
Proof.
  induction s as [|a s IH]; [reflexivity|].
  rewrite string_rev_cons. cbn [lastChar]. rewrite IH.
  destruct s as [|b s]; [reflexivity|].
  destruct (String.rev (String b s)) as [|c u] eqn:E.
  - apply (f_equal String.rev) in E. rewrite string_rev_involutive in E. discriminate.
  - reflexivity.
Qed.

Lemma trimEnd_last (s : string) (c : ascii) :
  lastChar (trimEnd s) = Some c -> isWhiteSpace c = false.
Proof.
  rewrite lastChar_rev. unfold trimEnd. rewrite string_rev_involutive.
  destruct (trimStart (String.rev s)) as [|a r] eqn:E; [discriminate|].
  intros [= <-]. exact (trimStart_head _ _ _ E).
Qed.

Lemma trim_trimmed (s : string) : trimmed (trim s).
Proof.
  unfold trim. split.
  - intros c r Hc.
    destruct (trimEnd_split (trimStart s)) as (w & Hs & _).
    rewrite Hc, string_app_cons in Hs. exact (trimStart_head _ _ _ Hs).
  - apply trimEnd_last.
Qed.

Lemma includes_app (c : ascii) (a b : string) :
  includes c (a +:+ b) = includes c a || includes c b.
Proof.
  induction a as [|x a IH]; [reflexivity|].
  rewrite string_app_cons. cbn [includes]. now rewrite IH, orb_assoc.
Qed.

Lemma includes_rev (c : ascii) (s : string) : includes c (String.rev s) = includes c s.
Proof.
  induction s as [|a s IH]; [reflexivity|].
  rewrite string_rev_cons, includes_app, IH. cbn [includes].
  now rewrite orb_false_r, orb_comm.
Qed.

Lemma includes_trim (c : ascii) (s : string) :
  includes c s = false -> includes c (trim s) = false.
Proof.
  intros Hs. unfold trim.
  destruct (trimStart_split s) as (w1 & H1 & _).
  destruct (trimEnd_split (trimStart s)) as (w2 & H2 & _).
  rewrite H1, H2, !includes_app in Hs.
  apply orb_false_iff in Hs as [_ Hs]. now apply orb_false_iff in Hs as [Hs _].
Qed.

(** The pieces of a split hold no separator, and no character that the
    split text does not hold. *)
Lemma split_go_separator (d : ascii) (cur s : string) :
  includes d cur = false ->
  Forall (fun e => includes d e = false) (split_go d cur s).
Proof.
  revert cur. induction s as [|a s IH]; intros cur Hcur; cbn [split_go].
  - repeat constructor. now rewrite includes_rev.
  - destruct (Ascii.eqb a d) eqn:Ea.
    + constructor; [now rewrite includes_rev | now apply IH].
    + apply IH. cbn [includes]. now rewrite Ea, Hcur.
Qed.

Lemma split_go_foreign (c d : ascii) (cur s : string) :
  includes c cur = false -> includes c s = false ->
  Forall (fun e => includes c e = false) (split_go d cur s).
Proof.
  revert cur. induction s as [|a s IH]; intros cur Hcur Hs; cbn [split_go].
  - repeat constructor. now rewrite includes_rev.
  - cbn [includes] in Hs. apply orb_false_iff in Hs as [Ha Hs].
    destruct (Ascii.eqb a d).
    + constructor; [now rewrite includes_rev | now apply IH].
    + apply IH; [|exact Hs]. cbn [includes]. now rewrite Ha, Hcur.
Qed.

Lemma split_go_nonempty (d : ascii) (cur s : string) : split_go d cur s <> [].
Proof.
  revert cur. induction s as [|a s IH]; intros cur; cbn [split_go]; [discriminate|].
  destruct (Ascii.eqb a d); [discriminate | apply IH].
Qed.

(** ** The value utilities *)

Lemma spanDigits_app (s : string) : (spanDigits s).1 +:+ (spanDigits s).2 = s.
Proof.
  induction s as [|c s IH]; [reflexivity|]. cbn [spanDigits].
  destruct (isDigit c); [|reflexivity].
  destruct (spanDigits s) as [d t]. cbn [fst snd] in *. now rewrite string_app_cons, IH.
Qed.

Lemma spanDigits_percent (s : string) :
  spanDigits (s +:+ "%") = ((spanDigits s).1, (spanDigits s).2 +:+ "%").
Proof.
  induction s as [|c s IH]; [reflexivity|].
  rewrite string_app_cons. cbn [spanDigits].
  destruct (isDigit c); [|reflexivity].
  rewrite IH. now destruct (spanDigits s).
Qed.

Lemma dropSign_percent (s : string) : dropSign (s +:+ "%") = dropSign s +:+ "%".
Proof.
  destruct s as [|c s]; [reflexivity|].
  rewrite string_app_cons. cbn [dropSign]. now destruct (_ || _).
Qed.

Lemma eqb_percent (r : string) : String.eqb (r +:+ "%") "%" = String.eqb r "".
Proof.
  destruct r as [|c r]; [reflexivity|].
  rewrite string_app_cons. cbn [String.eqb].
  destruct r as [|c' r]; [|rewrite string_app_cons]; cbn [String.eqb]; apply andb_false_r.
Qed.

Lemma matchesNumberThen_percent (s : string) :
  matchesNumberThen "%" (s +:+ "%") = matchesNumberThen "" s.
Proof.
  unfold matchesNumberThen.
  rewrite dropSign_percent, spanDigits_percent.
  destruct (spanDigits (dropSign s)) as [d1 r1]. cbn [fst snd].
  rewrite eqb_percent. f_equal. f_equal.
  destruct r1 as [|c r2]; [reflexivity|].
  rewrite string_app_cons, spanDigits_percent.
  destruct (spanDigits r2) as [d2 r3]. cbn [fst snd].
  now rewrite eqb_percent.
Qed.

Lemma lastChar_app_one (s : string) (c : ascii) : lastChar (s +:+ String c "") = Some c.
Proof.
  induction s as [|a s IH]; [reflexivity|].
  rewrite string_app_cons. cbn [lastChar]. rewrite IH.
  destruct s; reflexivity.
Qed.

Lemma dropLast_app_one (s : string) (c : ascii) : dropLast (s +:+ String c "") = s.
Proof.
  induction s as [|a s IH]; [reflexivity|].
  rewrite string_app_cons. cbn [dropLast]. rewrite IH.
  destruct s; reflexivity.
Qed.

Lemma lastChar_dropLast (s : string) (c : ascii) :
  lastChar s = Some c -> s = dropLast s +:+ String c "".
Proof.
  induction s as [|a s IH]; [discriminate|].
  destruct s as [|b s]; [now intros [= ->]|].
  intros H. change (dropLast (String a (String b s)))
    with (String a (dropLast (String b s))).
  rewrite string_app_cons. f_equal. now apply IH.
Qed.

(** A text that matches a number followed by the sign ends in the sign. *)
Lemma matchesNumberThen_percent_last (s : string) :
  matchesNumberThen "%" s = true -> lastChar s = Some "%"%char.
Proof.
  unfold matchesNumberThen. intros H.
  assert (Hs : exists pre, s = pre +:+ dropSign s).
  { destruct s as [|c s]; [now exists ""|]. cbn [dropSign].
    destruct (_ || _); [now exists (String c "") | now exists ""]. }
  destruct Hs as (pre & Hs). rewrite Hs.
  pose proof (spanDigits_app (dropSign s)) as Hd.
  destruct (spanDigits (dropSign s)) as [d1 r1]. cbn [fst snd] in Hd.
  apply andb_true_iff in H as [_ H]. rewrite <- Hd.
  apply orb_true_iff in H as [H|H].
  - apply String.eqb_eq in H. subst r1.
    now rewrite <- string_app_assoc, lastChar_app_one.
  - destruct r1 as [|c r2]; [discriminate|].
    apply andb_true_iff in H as [_ H].
    pose proof (spanDigits_app r2) as Hd2.
    destruct (spanDigits r2) as [d2 r3]. cbn [fst snd] in Hd2.
    apply andb_true_iff in H as [_ H]. apply String.eqb_eq in H. subst r3.
    rewrite <- Hd2.
    change (String c (d2 +:+ "%")) with (String c d2 +:+ "%").
    now rewrite <- !string_app_assoc, lastChar_app_one.
Qed.

Lemma isPercent_snoc (t : string) : isPercent (Some (t +:+ "%")) = isDecimal (Some t).
Proof.
  cbn [isPercent isDecimal]. rewrite matchesNumberThen_percent.
  destruct t as [|c t]; reflexivity.
Qed.

Lemma isPercent_inv (s : string) :
  isPercent (Some s) = true ->
  s = dropLast s +:+ "%" /\ isDecimal (Some (dropLast s)) = true.
Proof.
  intros H.
  assert (Hs : s = dropLast s +:+ "%").
  { apply lastChar_dropLast, matchesNumberThen_percent_last.
    cbn [isPercent] in H. now apply andb_true_iff in H as [_ H]. }
  split; [exact Hs|]. now rewrite <- isPercent_snoc, <- Hs.
Qed.

(** X1: [isPercent] accepts the texts that [isDecimal] accepts, followed by
    one percent sign, and no other: a text with the sign appended is a
    percentage exactly when the text is a decimal, and every percentage is
    a decimal with the sign appended. *)
Theorem isPercent_decimal_then_sign (s : string) :
  (isPercent (Some (s +:+ "%")) = isDecimal (Some s)) /\
  (isPercent (Some s) = true <->
   exists t, s = t +:+ "%" /\ isDecimal (Some t) = true).
Proof.
  split; [apply isPercent_snoc|]. split.
  - intros H. exists (dropLast s). now apply isPercent_inv.
  - intros (t & -> & Ht). now rewrite isPercent_snoc.
Qed.

(** X2: no value is at once a decimal for [isDecimal] and a percentage for
    [isPercent]. *)
Theorem isDecimal_isPercent_exclusive (value : option string) :
  isDecimal value && isPercent value = false.
Proof.
  destruct value as [s|]; [|reflexivity]. cbn [isDecimal isPercent].
  destruct (truthy s); [cbn [andb]|reflexivity].
  unfold matchesNumberThen.
  destruct (spanDigits (dropSign s)) as [d1 r1].
  destruct (negb (isEmpty d1)); [cbn [andb]|reflexivity].
  destruct r1 as [|c r2]; [reflexivity|].
  destruct (spanDigits r2) as [d2 r3].
  change (String c r2 =? "")%string with false. cbn [orb].
  destruct (Ascii.eqb_spec c "."%char) as [->|_]; [cbn [andb]|reflexivity].
  destruct (negb (isEmpty d2)); [cbn [andb]|reflexivity].
  destruct (String.eqb_spec r3 "") as [->|_]; [|reflexivity].
  reflexivity.
Qed.

(** X3: on a percentage, [removePercent] takes the sign off and nothing
    else: the sign put back gives the value again, and what is left is a
    decimal. *)
Theorem removePercent_round_trip (s : string) :
  isPercent (Some s) = true ->
  removePercent (Some s) +:+ "%" = s /\
  isDecimal (Some (removePercent (Some s))) = true.
Proof.
  intros H. apply isPercent_inv in H as [Hs Ht]. revert Hs Ht.
  generalize (dropLast s). intros t -> Ht.
  cbn [removePercent]. unfold stripTrailingPercent.
  rewrite lastChar_app_one, dropLast_app_one. cbn [Ascii.eqb].
  destruct (truthy (t +:+ "%")) eqn:E; [now split|].
  apply truthy_false in E. now destruct t.
Qed.

(** X3, on a sample: the percentage 12.5 percent. *)
Lemma removePercent_round_trip_witness :
  isPercent (Some "12.5%") = true /\
  removePercent (Some "12.5%") +:+ "%" = "12.5%" /\
  isDecimal (Some (removePercent (Some "12.5%"))) = true.
Proof.
  split; [reflexivity|].
  exact (removePercent_round_trip "12.5%" eq_refl).
Defined.

(** X4: [multivalueToArray] gives the empty list on an absent or empty
    input and on no other input, and no element of what it gives begins or
    ends with a white-space character. *)
Theorem multivalueToArray_elements_trimmed (inputString : option string) :
  (multivalueToArray inputString = [] <-> truthyOpt inputString = false) /\
  Forall trimmed (multivalueToArray inputString).
Proof.
  destruct inputString as [s|]; cbn [multivalueToArray truthyOpt];
    [|split; [tauto | constructor]].
  destruct (truthy s); [|split; [tauto | constructor]].
  split.
  - split; [|discriminate].
    intros H. apply fmap_nil_inv in H. now apply split_go_nonempty in H.
  - apply Forall_fmap, Forall_true. intros e. apply trim_trimmed.
Qed.

(** X5: the comma comes first as the separator of [multivalueToArray]: no
    element ever holds a comma, and on an input without a comma no element
    holds a semicolon. *)
Theorem multivalueToArray_delimiter (s : string) :
  Forall (fun e => includes ","%char e = false) (multivalueToArray (Some s)) /\
  (includes ","%char s = false ->
   Forall (fun e => includes ";"%char e = false) (multivalueToArray (Some s))).
Proof.
  cbn [multivalueToArray]. unfold split.
  destruct (truthy s); [|split; [constructor | intros _; constructor]].
  destruct (includes ","%char s) eqn:Hc.
  - split; [|discriminate].
    apply Forall_fmap.
    eapply Forall_impl; [apply (split_go_separator ","%char "" s eq_refl)|].
    intros e. apply includes_trim.
  - split; [|intros _]; apply Forall_fmap.
    + eapply Forall_impl; [apply (split_go_foreign ","%char ";"%char "" s eq_refl Hc)|].
      intros e. apply includes_trim.
    + eapply Forall_impl; [apply (split_go_separator ";"%char "" s eq_refl)|].
      intros e. apply includes_trim.
Qed.

Lemma replaceAll2_step (x y z a b : ascii) (r : string) :
  replaceAll2 x y z (String a (String b r)) =
  if Ascii.eqb a x && Ascii.eqb b y then String z (replaceAll2 x y z r)
  else String a (replaceAll2 x y z (String b r)).
Proof. reflexivity. Qed.

Lemma replaceAll2_without (x y z : ascii) (s : string) :
  includes x s = false -> replaceAll2 x y z s = s.
Proof.
  induction s as [|a t IH]; [reflexivity|].
  cbn [includes]. intros H. apply orb_false_iff in H as [Ha Ht].
  destruct t as [|b r]; [reflexivity|].
  rewrite replaceAll2_step, Ha. cbn [andb]. f_equal. now apply IH.
Qed.

Lemma replaceAll2_length (x y z : ascii) (n : nat) (s : string) :
  (String.length s <= n)%nat ->
  (String.length (replaceAll2 x y z s) <= String.length s)%nat.
Proof.
  revert s. induction n as [|n IH]; intros s Hn.
  - destruct s; [cbn; lia | cbn in Hn; lia].
  - destruct s as [|a [|b r]]; [cbn; lia | cbn; lia |].
    rewrite replaceAll2_step. cbn [String.length] in Hn.
    destruct (_ && _); cbn [String.length].
    + assert (Hr : (String.length r <= n)%nat) by lia.
      specialize (IH r Hr). lia.
    + assert (Hr : (String.length (String b r) <= n)%nat)
        by (cbn [String.length]; lia).
      specialize (IH _ Hr). cbn [String.length] in IH. lia.
Qed.

(** X6: [unbackslash] hands back a text without a backslash as it is, and
    never gives a text longer than the one it got. *)
Theorem unbackslash_without_backslash (str : string) :
  (includes "\"%char str = false -> unbackslash str = str) /\
  (String.length (unbackslash str) <= String.length str)%nat.
Proof.
  split.
  - intros H. unfold unbackslash.
    now repeat rewrite (replaceAll2_without _ _ _ str H).
  - unfold unbackslash.
    repeat (etransitivity; [eapply replaceAll2_length; reflexivity|]).
    reflexivity.
Qed.

(** X7: a profile type that [isOutputIniType] accepts is accepted by
    [isValidIniType] and passes the type test of [convertParams].  The types
    that [isValidIniType] accepts and that test refuses are the empty string
    and [physical_printer], and no other.  An undefined type is not
    valid. *)
Theorem type_guards_and_the_type_test (iniType : string) :
  (isOutputIniType iniType = true ->
   isValidIniType (Some iniType) = true /\ noTargetSchema (Some iniType) = false) /\
  (isValidIniType (Some iniType) = true /\ noTargetSchema (Some iniType) = true <->
   iniType = "" \/ iniType = "physical_printer") /\
  isValidIniType None = false.
Proof.
  split; [|split; [|reflexivity]].
  - unfold isOutputIniType. intros H.
    apply orb_true_iff in H as [H | H]; [apply orb_true_iff in H as [H | H]|];
      apply String.eqb_eq in H; subst iniType; now split.
  - unfold isValidIniType, noTargetSchema. cbn [truthyOpt]. split.
    + intros [Hvalid Htest].
      apply andb_true_iff in Hvalid as [_ Hvalid].
      apply negb_true_iff in Hvalid.
      rewrite Hvalid, orb_false_r in Htest.
      apply orb_true_iff in Htest as [Htest | Htest].
      * left. apply negb_true_iff in Htest. now apply truthy_false.
      * right. apply bool_decide_eq_true in Htest. congruence.
    + intros [-> | ->]; now split.
Qed.

(** ** The footprint of the engine *)

Section Keeps.

Context (R : World -> World -> Prop) `{!PreOrder R}.

Lemma keeps_ret {A : Type} (a : A) : keeps R (mret a : M A).
Proof. intros w. reflexivity. Qed.

Lemma keeps_reads {A : Type} (f : World -> A) : keeps R (reads f).
Proof. intros w. reflexivity. Qed.

Lemma keeps_bind {A B : Type} (m : M A) (k : A -> M B) :
  keeps R m -> (forall a, keeps R (k a)) -> keeps R (m ≫= k).
Proof.
  intros Hm Hk w. unfold mbind, M_bind.
  specialize (Hm w). destruct (m w) as [a w1]. cbn [snd] in Hm.
  etransitivity; [exact Hm | apply Hk].
Qed.

Lemma keeps_forEach {A : Type} (body : A -> M unit) (l : list A) :
  Forall (fun a => keeps R (body a)) l -> keeps R (forEach body l).
Proof.
  induction 1 as [|a l Ha _ IH]; cbn [forEach].
  - apply keeps_ret.
  - apply keeps_bind; [exact Ha | intros _; exact IH].
Qed.

End Keeps.

Global Instance samePrompts_preorder : PreOrder samePrompts.
Proof. split; [now intros w | intros a b c; unfold samePrompts; congruence]. Qed.

Global Instance sameStatus_preorder : PreOrder sameStatus.
Proof. split; [now intros w | intros a b c; unfold sameStatus; congruence]. Qed.

Global Instance sameOutputOutside_preorder (touched : list string) :
  PreOrder (sameOutputOutside touched).
Proof.
  split; [now intros w k|].
  intros a b c Hab Hbc k Hk. now rewrite (Hbc k Hk), (Hab k Hk).
Qed.

Lemma samePrompts_setOutput key v : keeps samePrompts (setOutput key v).
Proof. now intros w. Qed.

Lemma samePrompts_modifyStatus f : keeps samePrompts (modifyStatus f).
Proof. now intros w. Qed.

Lemma sameStatus_setOutput key v : keeps sameStatus (setOutput key v).
Proof. now intros w. Qed.

Lemma sameStatus_ask menu prompt one options : keeps sameStatus (ask menu prompt one options).
Proof. now intros w. Qed.

Lemma sameOutputOutside_modifyStatus touched f :
  keeps (sameOutputOutside touched) (modifyStatus f).
Proof. now intros w k. Qed.

Lemma sameOutputOutside_ask touched menu prompt one options :
  keeps (sameOutputOutside touched) (ask menu prompt one options).
Proof. now intros w k. Qed.

Lemma sameOutputOutside_setOutput touched key v :
  key ∈ touched -> keeps (sameOutputOutside touched) (setOutput key v).
Proof.
  intros Hin w k Hk. cbn. apply lookup_insert_ne. intros ->. contradiction.
Qed.

(** One step of a footprint proof. *)
Ltac keep_step :=
  first
    [ apply keeps_ret; typeclasses eauto
    | apply keeps_reads; typeclasses eauto
    | apply samePrompts_setOutput
    | apply samePrompts_modifyStatus
    | apply sameStatus_setOutput
    | apply sameStatus_ask
    | apply sameOutputOutside_modifyStatus
    | apply sameOutputOutside_ask
    | apply keeps_bind; [typeclasses eauto | | intros ?]
    | match goal with
      | |- keeps _ (if ?c then _ else _) => destruct c
      | |- keeps _ (match ?x with _ => _ end) => destruct x
      end ].

Ltac keep := repeat keep_step.

Lemma tableGet_Forall_unless {V : Type} (P : V -> Prop) (except : list string)
    (t : Table V) (key : string) (v : V) :
  Forall (fun e => e.1 ∈ except \/ P e.2) t ->
  tableGet t key = Some v -> key ∉ except -> P v.
Proof.
  induction 1 as [|[k x] t Hx _ IH]; cbn [tableGet]; [discriminate|].
  destruct (String.eqb_spec key k) as [->|_]; [|exact IH].
  intros [= <-] Hk. now destruct Hx.
Qed.

Ltac listed := repeat first [apply list_elem_of_here | apply list_elem_of_further].

(** Every rule but the two that put a question leaves the prompts alone. *)
Lemma samePrompts_specialCases menu parameter file newValue defaultSpeed :
  Forall (fun e => e.1 ∈ conditionNames \/ keeps samePrompts e.2)
    (specialCases menu parameter file newValue defaultSpeed).
Proof.
  unfold specialCases.
  repeat (apply Forall_cons; split;
          [cbn [fst snd];
           first [ right; solve [apply keeps_reads; typeclasses eauto
                                | unfold rule_ironing_type, rule_support_material_style;
                                  keep]
                 | left; solve [listed] ] |]).
  apply Forall_nil_2.
Qed.

(** Every rule but those of [ironing_type] and of the two conditions leaves
    the state alone. *)
Lemma sameStatus_specialCases menu parameter file newValue defaultSpeed :
  Forall (fun e => e.1 ∈ "ironing_type" :: conditionNames \/ keeps sameStatus e.2)
    (specialCases menu parameter file newValue defaultSpeed).
Proof.
  unfold specialCases.
  repeat (apply Forall_cons; split;
          [cbn [fst snd];
           first [ right; solve [apply keeps_reads; typeclasses eauto
                                | unfold rule_support_material_style; keep]
                 | left; solve [listed] ] |]).
  apply Forall_nil_2.
Qed.

(** Every rule but that of [support_material_style] leaves the output map
    alone. *)
Lemma sameOutput_specialCases touched menu parameter file newValue defaultSpeed :
  Forall (fun e => e.1 ∈ ["support_material_style"]
                   \/ keeps (sameOutputOutside touched) e.2)
    (specialCases menu parameter file newValue defaultSpeed).
Proof.
  unfold specialCases.
  repeat (apply Forall_cons; split;
          [cbn [fst snd];
           first [ right; solve [apply keeps_reads; typeclasses eauto
                                | unfold rule_ironing_type, handleCompatibleCondition;
                                  keep]
                 | left; solve [listed] ] |]).
  apply Forall_nil_2.
Qed.

Lemma sameOutput_support_material_style touched newValue :
  "support_type" ∈ touched -> "support_style" ∈ touched ->
  keeps (sameOutputOutside touched) (rule_support_material_style newValue).
Proof.
  intros H1 H2. unfold rule_support_material_style.
  destruct (tableGet supportStyles newValue) as [[supportType supportStyle]|];
    [|apply keeps_ret; typeclasses eauto].
  apply keeps_bind; [typeclasses eauto | apply keeps_reads; typeclasses eauto |].
  intros genstyle.
  apply keeps_bind; [typeclasses eauto | now apply sameOutputOutside_setOutput |].
  intros _.
  apply keeps_bind; [typeclasses eauto | now apply sameOutputOutside_setOutput |].
  intros _. apply keeps_ret; typeclasses eauto.
Qed.

(** What [convertValue] keeps, from what its three kinds of effect keep. *)
Lemma keeps_convertValue (R : World -> World -> Prop) `{!PreOrder R}
    (pm : ParameterMap) (menu : Menu) (parameter : string) (file : option string)
    (newValue : string) (w : World) :
  (forall typeMap keys,
     tableGet pm (stringOfVal (valOfOpt (iniType (status w)))) = Some typeMap ->
     typeMap !! parameter = Some (TKeys keys) ->
     Forall (fun key => keeps R (setOutput key (HStr newValue))) keys) ->
  (parameter ∈ combinationFlags -> forall f, keeps R (modifyStatus (setToVar f))) ->
  (forall defaultSpeed rule,
     tableGet (specialCases menu parameter file newValue defaultSpeed) parameter
       = Some rule -> keeps R rule) ->
  R w (convertValue pm menu parameter file newValue w).2.
Proof.
  intros Hfan Hflag Hrule.
  unfold convertValue, mbind, M_bind, reads.
  destruct (noTargetSchema (iniType (status w))); [reflexivity|].
  destruct (tableGet pm _) as [typeMap|]; [|reflexivity].
  specialize (Hfan typeMap).
  assert (Hrules : forall defaultSpeed,
    keeps R (if String.eqb parameter "external_perimeters_first" then
              modifyStatus (setToVar (setExternalPerimetersFirst (truthy newValue)));;
              mret RUndef
            else if String.eqb parameter "infill_first" then
              modifyStatus (setToVar (setInfillFirst (truthy newValue)));;
              mret RUndef
            else if String.eqb parameter "ironing" then
              modifyStatus (setToVar (setIroning (truthy newValue)));;
              mret RUndef
            else
              match tableGet (specialCases menu parameter file newValue defaultSpeed)
                      parameter with
              | Some rule => result ← rule; mret (RStr result)
              | None => mret (RStr newValue)
              end)).
  { intros defaultSpeed.
    repeat match goal with
      | |- keeps _ (if String.eqb parameter ?name then _ else _) =>
          destruct (String.eqb_spec parameter name) as [->|_];
            [apply keeps_bind;
               [typeclasses eauto
               | apply Hflag; unfold combinationFlags; listed
               | intros _; apply keeps_ret; typeclasses eauto]|]
      end.
    destruct (tableGet _ parameter) as [rule|] eqn:E;
      [|apply keeps_ret; typeclasses eauto].
    apply keeps_bind;
      [typeclasses eauto | exact (Hrule _ _ E)
      | intros; apply keeps_ret; typeclasses eauto]. }
  destruct (typeMap !! parameter) as [[k|ks]|]; [apply Hrules | | apply Hrules].
  apply (keeps_bind R); [|intros _; apply keeps_ret; typeclasses eauto].
  apply keeps_forEach; [typeclasses eauto|]. now apply Hfan.
Qed.

(** The same for [convertParams]. *)
Lemma keeps_convertParams (R : World -> World -> Prop) `{!PreOrder R}
    (pm : ParameterMap) (menu : Menu) (parameter : string) (file : option string)
    (w : World) :
  (forall newValue typeMap keys,
     tableGet pm (stringOfVal (valOfOpt (iniType (status w)))) = Some typeMap ->
     typeMap !! parameter = Some (TKeys keys) ->
     Forall (fun key => keeps R (setOutput key (HStr newValue))) keys) ->
  (parameter ∈ combinationFlags -> forall f, keeps R (modifyStatus (setToVar f))) ->
  (forall newValue defaultSpeed rule,
     tableGet (specialCases menu parameter file newValue defaultSpeed) parameter
       = Some rule -> keeps R rule) ->
  R w (convertParams pm menu parameter file w).2.
Proof.
  intros Hfan Hflag Hrule.
  unfold convertParams, mbind, M_bind, reads.
  destruct (negb (truthyOpt (source w parameter))); [reflexivity|].
  destruct (bool_decide _); [reflexivity|].
  destruct (tableGet multivalueParams parameter) as [[|]|];
    first [reflexivity | apply keeps_convertValue; eauto].
Qed.

Lemma samePrompts_convertParams pm menu parameter file w :
  parameter ∉ conditionNames ->
  prompts (convertParams pm menu parameter file w).2 = prompts w.
Proof.
  intros Hp. apply (keeps_convertParams samePrompts).
  - intros newValue typeMap keys _ _. apply Forall_true. intros key.
    apply samePrompts_setOutput.
  - intros _ f. apply samePrompts_modifyStatus.
  - intros newValue defaultSpeed rule E.
    exact (tableGet_Forall_unless _ _ _ _ _ (samePrompts_specialCases _ _ _ _ _) E Hp).
Qed.

Lemma sameStatus_convertParams pm menu parameter file w :
  parameter ∉ statefulNames ->
  status (convertParams pm menu parameter file w).2 = status w.
Proof.
  intros Hp. apply not_elem_of_app in Hp as [Hflag Hrule].
  apply (keeps_convertParams sameStatus).
  - intros newValue typeMap keys _ _. apply Forall_true. intros key.
    apply sameStatus_setOutput.
  - intros Hin. contradiction.
  - intros newValue defaultSpeed rule E.
    exact (tableGet_Forall_unless _ _ _ _ _ (sameStatus_specialCases _ _ _ _ _) E Hrule).
Qed.

Lemma sameOutput_convertParams pm menu parameter file w :
  sameOutputOutside (writtenKeys pm parameter w) w
    (convertParams pm menu parameter file w).2.
Proof.
  apply (keeps_convertParams (sameOutputOutside _)).
  - intros newValue typeMap keys Hpm Hkeys. unfold writtenKeys.
    rewrite Hpm, Hkeys. apply Forall_forall. intros key Hin.
    apply sameOutputOutside_setOutput, elem_of_app. now left.
  - intros _ f. apply sameOutputOutside_modifyStatus.
  - intros newValue defaultSpeed rule E.
    destruct (String.eqb_spec parameter "support_material_style") as [->|Hne].
    + injection E as <-. unfold writtenKeys. cbn [String.eqb Ascii.eqb Bool.eqb].
      apply sameOutput_support_material_style; apply elem_of_app; right; listed.
    + refine (tableGet_Forall_unless _ _ _ _ _
                (sameOutput_specialCases _ _ _ _ _ _) E _).
      now rewrite list_elem_of_singleton.
Qed.

(** X8: a call of [convertParams] puts at most one question to the
    operator, and none unless the parameter is one of the two compatibility
    conditions. *)
Theorem convertParams_prompts (pm : ParameterMap) (menu : Menu) (parameter : string)
    (file : option string) (w : World) :
  let w' := (convertParams pm menu parameter file w).2 in
  prompts w' = prompts w \/
  (parameter ∈ conditionNames /\ exists prompt, prompts w' = prompts w ++ [prompt]).
Proof.
  cbv zeta.
  destruct (decide (parameter ∈ conditionNames)) as [Hin|Hout];
    [|left; now apply samePrompts_convertParams].
  assert (Hrule : forall newValue,
    let w' := (handleCompatibleCondition menu parameter file newValue w).2 in
    prompts w' = prompts w \/ exists prompt, prompts w' = prompts w ++ [prompt]).
  { intros newValue. cbv zeta.
    unfold handleCompatibleCondition, mbind, M_bind, reads, ask, modifyStatus.
    repeat match goal with
      | |- context [if ?c then _ else _] => destruct c
      end;
      try destruct (menu _ _ _); cbn; eauto. }
  assert (Hvalue : forall newValue,
    let w' := (convertValue pm menu parameter file newValue w).2 in
    prompts w' = prompts w \/ exists prompt, prompts w' = prompts w ++ [prompt]).
  { intros newValue. cbv zeta. unfold convertValue, mbind, M_bind, reads.
    destruct (noTargetSchema _); [now left|].
    destruct (tableGet pm _) as [typeMap|]; [|now left].
    assert (Hfan : forall keys,
      prompts (forEach (fun key => setOutput key (HStr newValue)) keys w).2
      = prompts w).
    { intros keys. apply (keeps_forEach samePrompts), Forall_true.
      intros key. apply samePrompts_setOutput. }
    unfold conditionNames in Hin.
    repeat (apply elem_of_cons in Hin as [-> | Hin]);
      [| | now apply elem_of_nil in Hin];
      (destruct (typeMap !! _) as [[k|ks]|];
       [| specialize (Hfan ks);
          destruct (forEach _ ks w) as [u w1]; now left |]);
      run_dispatch;
      specialize (Hrule newValue); cbv zeta in Hrule;
      destruct (handleCompatibleCondition _ _ _ _ w) as [r w1];
      exact Hrule. }
  unfold convertParams, mbind, M_bind, reads.
  destruct (negb _); [now left|].
  destruct (bool_decide _); [now left|].
  destruct (tableGet multivalueParams parameter) as [[|]|];
    [| now left |];
    (match goal with
     | |- context [convertValue pm menu parameter file ?v w] =>
         destruct (Hvalue v) as [H | H]; [now left | right; now split]
     end).
Qed.

(** X9: a call of [convertParams] leaves the conversion state as it is,
    unless the parameter is one of the three combination flags,
    [ironing_type], or one of the two compatibility conditions. *)
Theorem convertParams_status (pm : ParameterMap) (menu : Menu) (parameter : string)
    (file : option string) (w : World) :
  parameter ∉ statefulNames ->
  status (convertParams pm menu parameter file w).2 = status w.
Proof. apply sameStatus_convertParams. Qed.

(** X10: a call of [convertParams] leaves every key of the output map as
    it is, but for the keys that the parameter map lists for the parameter
    under the current profile type (a fan-out) and, on
    [support_material_style], the keys [support_type] and
    [support_style]. *)
Theorem convertParams_output (pm : ParameterMap) (menu : Menu) (parameter : string)
    (file : option string) (w : World) (key : string) :
  key ∉ writtenKeys pm parameter w ->
  newHash (convertParams pm menu parameter file w).2 !! key = newHash w !! key.
Proof. apply sameOutput_convertParams. Qed.

(** X9, on a sample: the support-style rule writes into the output map and
    leaves the state as it is. *)
Lemma convertParams_status_witness :
  status (convertParams Sample.parameterMap Sample.keep "support_material_style" None
            (Sample.printWorld [("support_material_style", "snug")])).2
  = status (Sample.printWorld [("support_material_style", "snug")]).
Proof.
  apply convertParams_status.
  apply (bool_decide_unpack _). vm_compute. exact I.
Defined.

(** X10, on a sample: the same call leaves the key [layer_height] as it is. *)
Lemma convertParams_output_witness :
  newHash (convertParams Sample.parameterMap Sample.keep "support_material_style" None
             (Sample.printWorld [("support_material_style", "snug")])).2
    !! "layer_height"
  = newHash (Sample.printWorld [("support_material_style", "snug")]) !! "layer_height".
Proof.
  apply convertParams_output.
  apply (bool_decide_unpack _). vm_compute. exact I.
Defined.

(** ** The short-circuits, the array values, the fan-out *)


(** X12: for an array-valued parameter with a source value that is
    neither empty nor [nil], [convertParams] returns the list that
    [multivalueToArray] makes of the value, whatever the profile type, and
    changes nothing. *)
Theorem convertParams_array_valued (pm : ParameterMap) (menu : Menu)
    (parameter : string) (file : option string) (w : World) (raw : string) :
  tableGet multivalueParams parameter = Some array ->
  sourceIni w !! parameter = Some raw -> raw <> "" -> raw <> "nil" ->
  convertParams pm menu parameter file w = (RArr (multivalueToArray (Some raw)), w).
Proof.
  intros Harr Hsrc Hne Hnil.
  unfold convertParams, mbind, M_bind, reads, source. rewrite Hsrc, Harr.
  cbn [truthyOpt]. apply truthy_nonempty in Hne. rewrite Hne. cbn [negb].
  now rewrite bool_decide_eq_false_2 by congruence.
Qed.

(** X12, on a sample: a bed shape, under a profile type that cannot be
    converted. *)
Lemma convertParams_array_valued_witness :
  convertParams Sample.parameterMap Sample.keep "bed_shape" None
    (Sample.typedWorld "unsupported" [("bed_shape", "0x0, 200x0 ,200x200,0x200")])
  = (RArr ["0x0"; "200x0"; "200x200"; "0x200"],
     Sample.typedWorld "unsupported" [("bed_shape", "0x0, 200x0 ,200x200,0x200")]).
Proof.
  refine (convertParams_array_valued Sample.parameterMap Sample.keep "bed_shape"
            None _ "0x0, 200x0 ,200x200,0x200" _ _ _ _).
  - reflexivity.
  - vm_compute; reflexivity.
  - discriminate.
  - discriminate.
Defined.

Lemma forEach_setOutput (v : HVal) (keys : list string) (w : World) :
  forEach (fun key => setOutput key v) keys w =
  (tt, mkWorld (sourceIni w) (status w)
         (foldl (fun m key => <[key := v]> m) (newHash w) keys) (prompts w)).
Proof.
  revert w. induction keys as [|key keys IH]; intros w; cbn [forEach foldl].
  - now destruct w.
  - unfold mbind, M_bind. cbn. now rewrite IH.
Qed.

Lemma foldl_insert_lookup (v : HVal) (keys : list string) (m : gmap string HVal)
    (key : string) :
  foldl (fun m key => <[key := v]> m) m keys !! key =
  if bool_decide (key ∈ keys) then Some v else m !! key.
Proof.
  revert m. induction keys as [|k keys IH]; intros m; cbn [foldl]; [reflexivity|].
  rewrite IH. destruct (decide (key ∈ keys)) as [Hin|Hout].
  - rewrite !bool_decide_eq_true_2; [reflexivity | now right | exact Hin].
  - rewrite (bool_decide_eq_false_2 _ Hout).
    destruct (decide (key = k)) as [->|Hne].
    + rewrite lookup_insert_eq, bool_decide_eq_true_2; [reflexivity | now left].
    + rewrite lookup_insert_ne by congruence.
      rewrite bool_decide_eq_false_2; [reflexivity|].
      rewrite elem_of_cons. tauto.
Qed.

(** X13: when the parameter map gives a list of keys for the parameter
    under the current profile type, a call of [convertParams] that gets to
    it returns nothing, writes the working value under every key of the
    list and under no other key, and leaves the state and the prompts as
    they are. *)
Theorem convertParams_fan_out (pm : ParameterMap) (menu : Menu)
    (parameter : string) (file : option string) (w : World)
    (raw type : string) (typeMap : gmap string Target) (keys : list string) :
  sourceIni w !! parameter = Some raw -> raw <> "" -> raw <> "nil" ->
  tableGet multivalueParams parameter <> Some array ->
  iniType (status w) = Some type ->
  type <> "" -> type <> "unsupported" -> type <> "physical_printer" ->
  tableGet pm type = Some typeMap ->
  typeMap !! parameter = Some (TKeys keys) ->
  let result := (convertParams pm menu parameter file w).1 in
  let w' := (convertParams pm menu parameter file w).2 in
  result = RUndef /\ status w' = status w /\ prompts w' = prompts w /\
  forall key,
    newHash w' !! key =
    if bool_decide (key ∈ keys) then Some (HStr (settled parameter raw))
    else newHash w !! key.
Proof.
  intros Hsrc Hne Hnil Harr Hty Ht1 Ht2 Ht3 Hpm Hkeys. cbv zeta.
  assert (Hvalue : forall newValue,
    convertValue pm menu parameter file newValue w =
    (RUndef, mkWorld (sourceIni w) (status w)
               (foldl (fun m key => <[key := HStr newValue]> m) (newHash w) keys)
               (prompts w))).
  { intros newValue. unfold convertValue, mbind, M_bind, reads.
    rewrite Hty, (noTargetSchema_false type Ht1 Ht2 Ht3). cbn [valOfOpt stringOfVal].
    rewrite Hpm, Hkeys, forEach_setOutput. reflexivity. }
  assert (Hcall : convertParams pm menu parameter file w =
    (RUndef, mkWorld (sourceIni w) (status w)
               (foldl (fun m key => <[key := HStr (settled parameter raw)]> m)
                  (newHash w) keys)
               (prompts w))).
  { unfold convertParams, mbind, M_bind, reads, source. rewrite Hsrc.
    cbn [truthyOpt]. apply truthy_nonempty in Hne. rewrite Hne. cbn [negb].
    rewrite bool_decide_eq_false_2 by congruence.
    unfold settled.
    destruct (tableGet multivalueParams parameter) as [[|]|];
      [apply Hvalue | congruence |].
    rewrite (orElse_truthy raw "" Hne). apply Hvalue. }
  rewrite Hcall. cbn [fst snd newHash status prompts].
  repeat split. intros key. apply foldl_insert_lookup.
Qed.

(** X13, on a sample: [bed_temperature] goes to the two keys of its list,
    and to no key of its own name. *)
Lemma convertParams_fan_out_witness :
  let w := Sample.typedWorld "filament" [("bed_temperature", "60")] in
  let w' := (convertParams Sample.parameterMap Sample.keep "bed_temperature" None w).2 in
  newHash w' !! "hot_plate_temp" = Some (HStr "60") /\
  newHash w' !! "cool_plate_temp" = Some (HStr "60") /\
  newHash w' !! "bed_temperature" = None.
Proof.
  cbv zeta.
  pose proof (convertParams_fan_out Sample.parameterMap Sample.keep
                "bed_temperature" None
                (Sample.typedWorld "filament" [("bed_temperature", "60")])
                "60" "filament" _ ["hot_plate_temp"; "cool_plate_temp"]
                ltac:(vm_compute; reflexivity) ltac:(discriminate)
                ltac:(discriminate) ltac:(discriminate) eq_refl
                ltac:(discriminate) ltac:(discriminate) ltac:(discriminate)
                eq_refl ltac:(vm_compute; reflexivity)) as H.
  cbv zeta in H. destruct H as (_ & _ & _ & H).
  split; [|split].
  - exact (H "hot_plate_temp").
  - exact (H "cool_plate_temp").
  - exact (H "bed_temperature").
Defined.

Lemma tableGet_missing {V : Type} (t : Table V) (key : string) :
  key ∉ t.*1 -> tableGet t key = None.
Proof.
  induction t as [|[k x] t IH]; [reflexivity|].
  rewrite fmap_cons, not_elem_of_cons. cbn [fst tableGet]. intros [Hne Hout].
  destruct (String.eqb_spec key k) as [->|_]; [contradiction | now apply IH].
Qed.



(** ** Two rules *)

(** X15: [complete_objects] is converted to [by object] whenever the call
    gets to its rule, whatever the source value, 0 included: the rule tests
    the string for emptiness, and the value is never empty there. *)
Theorem complete_objects_always_by_object (pm : ParameterMap) (menu : Menu)
    (file : option string) (w : World) (v : string) :
  reachesRules pm "complete_objects" w v ->
  convertParams pm menu "complete_objects" file w = (RStr "by object", w).
Proof.
  intros Hreach.
  pose proof Hreach as (raw & type & typeMap & _ & Hne & _ & _ & Hv & _).
  change (settled _ raw) with raw in Hv. subst raw.
  rewrite (convertParams_reaches pm menu _ file w v Hreach).
  run_dispatch. unfold rule_complete_objects, reads.
  destruct v; [contradiction | reflexivity].
Qed.

(** X15, on a sample: the source value 0. *)
Lemma complete_objects_witness :
  convertParams Sample.parameterMap Sample.keep "complete_objects" None
    (Sample.printWorld [("complete_objects", "0")])
  = (RStr "by object", Sample.printWorld [("complete_objects", "0")]).
Proof.
  refine (complete_objects_always_by_object Sample.parameterMap Sample.keep None
            _ "0" _).
  reaches_by_evaluation "0" "print".
Defined.



(** ** The post-processor and the flags *)

Lemma speedSequence_plain :
  Forall (fun parameter =>
            (parameter ∉ statefulNames) /\ (parameter ∉ conditionNames))
    speedSequence.
Proof.
  unfold speedSequence.
  repeat (apply Forall_cons; split;
          [split; apply (bool_decide_unpack _); vm_compute; exact I|]).
  apply Forall_nil_2.
Qed.

Lemma convertSpeed_keeps (R : World -> World -> Prop) `{!PreOrder R}
    (pm : ParameterMap) (menu : Menu) (parameter : string) :
  (forall key v, keeps R (setOutput key v)) ->
  keeps R (convertParams pm menu parameter None) ->
  keeps R (convertSpeed pm menu parameter).
Proof.
  intros Hset Hconv. unfold convertSpeed.
  apply keeps_bind; [typeclasses eauto | apply keeps_reads; typeclasses eauto |].
  intros present. destruct (negb present); [apply keeps_ret; typeclasses eauto|].
  apply keeps_bind; [typeclasses eauto | exact Hconv |].
  intros [|s|l]; try (apply keeps_ret; typeclasses eauto).
  destruct (negb (truthy s)); [apply keeps_ret; typeclasses eauto|].
  destruct (isDecimal (Some s)); apply Hset.
Qed.

Lemma speedLoop_state (pm : ParameterMap) (menu : Menu) (w : World) :
  let w1 := (forEach (convertSpeed pm menu) speedSequence w).2 in
  status w1 = status w /\ prompts w1 = prompts w.
Proof.
  cbv zeta. split.
  - apply (keeps_forEach sameStatus).
    eapply Forall_impl; [apply speedSequence_plain|].
    intros parameter [Hp _]. apply convertSpeed_keeps; [typeclasses eauto | |].
    + apply sameStatus_setOutput.
    + intros w0. now apply sameStatus_convertParams.
  - apply (keeps_forEach samePrompts).
    eapply Forall_impl; [apply speedSequence_plain|].
    intros parameter [_ Hp]. apply convertSpeed_keeps; [typeclasses eauto | |].
    + apply samePrompts_setOutput.
    + intros w0. now apply samePrompts_convertParams.
Qed.

Lemma calculatePrintParams_keeps (R : World -> World -> Prop) `{!PreOrder R}
    (pm : ParameterMap) (menu : Menu) :
  (forall key v, keeps R (setOutput key v)) ->
  keeps R (forEach (convertSpeed pm menu) speedSequence) ->
  keeps R (calculatePrintParams pm menu).
Proof.
  intros Hset Hloop. unfold calculatePrintParams.
  apply keeps_bind; [typeclasses eauto | exact Hloop | intros _].
  apply keeps_bind; [typeclasses eauto | apply keeps_reads; typeclasses eauto |].
  intros enabled.
  apply keeps_bind; [typeclasses eauto | apply Hset | intros _].
  apply keeps_bind; [typeclasses eauto | |].
  { destruct enabled; [|apply keeps_ret; typeclasses eauto].
    apply keeps_bind; [typeclasses eauto | apply keeps_reads; typeclasses eauto |].
    intros speeds. apply keeps_forEach; [typeclasses eauto|].
    apply Forall_true. intros [idx key]. apply Hset. }
  intros _.
  apply keeps_bind; [typeclasses eauto | apply keeps_reads; typeclasses eauto |].
  intros order.
  apply keeps_bind; [typeclasses eauto | apply Hset | intros _].
  apply keeps_bind; [typeclasses eauto | apply keeps_reads; typeclasses eauto |].
  intros kind. apply Hset.
Qed.

Lemma calculatePrintParams_state (pm : ParameterMap) (menu : Menu) (w : World) :
  let w' := (calculatePrintParams pm menu w).2 in
  status w' = status w /\ prompts w' = prompts w.
Proof.
  cbv zeta. split.
  - apply (calculatePrintParams_keeps sameStatus); [apply sameStatus_setOutput|].
    intros w0. apply speedLoop_state.
  - apply (calculatePrintParams_keeps samePrompts); [apply samePrompts_setOutput|].
    intros w0. apply speedLoop_state.
Qed.

Lemma calculatePrintParams_flags (pm : ParameterMap) (menu : Menu) (w : World) :
  let w' := (calculatePrintParams pm menu w).2 in
  newHash w' !! "wall_infill_order" =
    Some (HStr (evaluatePrintOrder (externalPerimetersFirst (toVar (status w)))
                  (infillFirst (toVar (status w))))) /\
  newHash w' !! "ironing_type" =
    Some (HStr (evaluateIroningType (ironing (toVar (status w)))
                  (ironingType (status w)))).
Proof.
  cbv zeta. pose proof (calculatePrintParams_output pm menu w) as Hout.
  cbv zeta in Hout. rewrite Hout.
  destruct (speedLoop_state pm menu w) as [-> _].
  split.
  - rewrite lookup_insert_ne by discriminate. apply lookup_insert_eq.
  - apply lookup_insert_eq.
Qed.

(** X17: [calculatePrintParams] asks nothing and leaves the conversion
    state as it is; what it writes under [wall_infill_order] and
    [ironing_type] is computed from the flags and the ironing type that the
    state holds when it is called. *)
Theorem calculatePrintParams_reads_the_flags (pm : ParameterMap) (menu : Menu)
    (w : World) :
  let w' := (calculatePrintParams pm menu w).2 in
  status w' = status w /\ prompts w' = prompts w /\
  newHash w' !! "wall_infill_order" =
    Some (HStr (evaluatePrintOrder (externalPerimetersFirst (toVar (status w)))
                  (infillFirst (toVar (status w))))) /\
  newHash w' !! "ironing_type" =
    Some (HStr (evaluateIroningType (ironing (toVar (status w)))
                  (ironingType (status w)))).
Proof.
  cbv zeta.
  destruct (calculatePrintParams_state pm menu w) as [Hs Hp].
  destruct (calculatePrintParams_flags pm menu w) as [Ho Hi].
  auto.
Qed.

Lemma flag_is_set (pm : ParameterMap) (menu : Menu) (parameter : string)
    (file : option string) (w : World) (v : string) :
  parameter ∈ combinationFlags -> reachesRules pm parameter w v ->
  status (convertParams pm menu parameter file w).2
  = storeFlag parameter true (status w).
Proof.
  intros Hp Hreach.
  assert (Hv : truthy v = true).
  { destruct Hreach as (raw & type & typeMap & _ & Hne & _ & _ & -> & _).
    unfold combinationFlags in Hp.
    repeat (apply elem_of_cons in Hp as [-> | Hp]);
      [| | | now apply elem_of_nil in Hp]; now apply truthy_nonempty. }
  rewrite (convertParams_reaches pm menu parameter file w v Hreach).
  unfold combinationFlags in Hp.
  repeat (apply elem_of_cons in Hp as [-> | Hp]);
    [| | | now apply elem_of_nil in Hp]; cbn; now rewrite Hv.
Qed.



Global Instance sameOutputOfType_preorder (type : option string)
    (touched : list string) : PreOrder (sameOutputOfType type touched).
Proof.
  split.
  - intros w Hw. split; [exact Hw | reflexivity].
  - intros a b c Hab Hbc Ha. destruct (Hab Ha) as [Hb Hab'].
    destruct (Hbc Hb) as [Hc Hbc']. split; [exact Hc|].
    etransitivity; eassumption.
Qed.

Lemma sameOutputOfType_setOutput type touched key v :
  key ∈ touched -> keeps (sameOutputOfType type touched) (setOutput key v).
Proof.
  intros Hin w Hw. split; [exact Hw|]. now apply sameOutputOutside_setOutput.
Qed.

Lemma writtenKeys_type (pm : ParameterMap) (parameter : string) (w w' : World) :
  iniType (status w') = iniType (status w) ->
  writtenKeys pm parameter w' = writtenKeys pm parameter w.
Proof. intros H. unfold writtenKeys. now rewrite H. Qed.

Lemma sameOutputOfType_convertSpeed (pm : ParameterMap) (menu : Menu)
    (parameter : string) (w : World) :
  parameter ∈ speedSequence ->
  keeps (sameOutputOfType (iniType (status w)) (postProcessorKeys pm w))
    (convertSpeed pm menu parameter).
Proof.
  intros Hp. unfold convertSpeed.
  apply keeps_bind; [typeclasses eauto | apply keeps_reads; typeclasses eauto |].
  intros present. destruct (negb present); [apply keeps_ret; typeclasses eauto|].
  apply keeps_bind; [typeclasses eauto | |].
  { intros w1 Hw1. split.
    - rewrite <- Hw1. apply (frames_convertParams pm menu parameter None w1).
    - intros key Hkey. apply sameOutput_convertParams.
      rewrite (writtenKeys_type pm parameter w w1 Hw1).
      intros Hin. apply Hkey. unfold postProcessorKeys.
      rewrite !elem_of_app, !elem_of_cons, !elem_of_app. do 4 right.
      apply list_elem_of_bind. now exists parameter. }
  assert (Hkey : speedKey parameter ∈ postProcessorKeys pm w).
  { unfold postProcessorKeys. apply elem_of_app. left.
    now apply list_elem_of_fmap_2. }
  intros [|s|l]; try (apply keeps_ret; typeclasses eauto).
  destruct (negb (truthy s)); [apply keeps_ret; typeclasses eauto|].
  destruct (isDecimal (Some s)); now apply sameOutputOfType_setOutput.
Qed.

Lemma sameOutputOfType_calculatePrintParams (pm : ParameterMap) (menu : Menu)
    (w : World) :
  keeps (sameOutputOfType (iniType (status w)) (postProcessorKeys pm w))
    (calculatePrintParams pm menu).
Proof.
  assert (Hset : forall key v,
            key ∈ "enable_overhang_speed" :: overhangSpeedKeys
                  ++ ["wall_infill_order"; "ironing_type"] ->
            keeps (sameOutputOfType (iniType (status w)) (postProcessorKeys pm w))
              (setOutput key v)).
  { intros key v Hin. apply sameOutputOfType_setOutput.
    unfold postProcessorKeys. apply elem_of_app. right.
    rewrite app_comm_cons, app_assoc. apply elem_of_app. now left. }
  unfold calculatePrintParams.
  apply keeps_bind; [typeclasses eauto | | intros _].
  { apply keeps_forEach; [typeclasses eauto|].
    apply Forall_forall. intros parameter Hin.
    now apply sameOutputOfType_convertSpeed. }
  apply keeps_bind; [typeclasses eauto | apply keeps_reads; typeclasses eauto |].
  intros enabled.
  apply keeps_bind; [typeclasses eauto | apply Hset; listed | intros _].
  apply keeps_bind; [typeclasses eauto | |].
  { destruct enabled; [|apply keeps_ret; typeclasses eauto].
    apply keeps_bind; [typeclasses eauto | apply keeps_reads; typeclasses eauto |].
    intros speeds. apply keeps_forEach; [typeclasses eauto|].
    cbn [imap overhangSpeedKeys].
    repeat (apply Forall_cons; split; [apply Hset; unfold overhangSpeedKeys; listed|]).
    apply Forall_nil_2. }
  intros _.
  apply keeps_bind; [typeclasses eauto | apply keeps_reads; typeclasses eauto |].
  intros order.
  apply keeps_bind; [typeclasses eauto | | intros _].
  { apply Hset. unfold overhangSpeedKeys. cbn [app]. listed. }
  apply keeps_bind; [typeclasses eauto | apply keeps_reads; typeclasses eauto |].
  intros kind. apply Hset. unfold overhangSpeedKeys. cbn [app]. listed.
Qed.

(** X19: [calculatePrintParams] leaves every key of the output map as it
    is, but for the keys of the speed table, [enable_overhang_speed] and the
    four keys of the overhang speeds, [wall_infill_order] and
    [ironing_type], and the keys that the parameter map lists for a speed
    parameter under the current profile type. *)
Theorem calculatePrintParams_output_keys (pm : ParameterMap) (menu : Menu)
    (w : World) (key : string) :
  key ∉ postProcessorKeys pm w ->
  newHash (calculatePrintParams pm menu w).2 !! key = newHash w !! key.
Proof.
  revert key. exact (proj2 (sameOutputOfType_calculatePrintParams pm menu w w eq_refl)).
Qed.

(** X19, on a sample: the key [layer_height]. *)
Lemma calculatePrintParams_output_keys_witness :
  newHash (calculatePrintParams Sample.parameterMap Sample.keep
             (Sample.printWorld [("perimeter_speed", "45"); ("layer_height", "0.2")])).2
    !! "layer_height"
  = newHash (Sample.printWorld [("perimeter_speed", "45"); ("layer_height", "0.2")])
      !! "layer_height".
Proof.
  apply calculatePrintParams_output_keys.
  apply (bool_decide_unpack _). vm_compute. exact I.
Defined.

(** ** The type detector, again *)

Lemma typeCounts_matchCount (pm : ParameterMap) (ini : gmap string string) :
  ((fun '(type, typeMap) => (type, countMatches typeMap (map_to_list ini).*1))
     <$> pm : list (string * nat))
  = (fun e => (e.1, matchCount e.2 ini)) <$> pm.
Proof.
  apply list_fmap_ext. intros i [type typeMap] _. cbn.
  now rewrite countMatches_matchCount.
Qed.

(** X20: [detectIniType] looks at the parameter names of a profile and at
    its [ini_type] entry, never at another value: two profiles with the
    same names and the same [ini_type] entry are detected alike. *)
Theorem detectIniType_reads_names_only (pm : ParameterMap)
    (ini ini' : gmap string string) :
  dom ini = dom ini' -> ini !! "ini_type" = ini' !! "ini_type" ->
  detectIniType pm ini = detectIniType pm ini'.
Proof.
  intros Hdom Hty. unfold detectIniType.
  rewrite !typeCounts_matchCount, Hty. unfold matchCount. now rewrite Hdom.
Qed.

(** X20, on a sample: a print profile, and the same with every value
    replaced. *)
Lemma detectIniType_reads_names_only_witness :
  detectIniType Profiles.parameterMap Profiles.printIni
  = detectIniType Profiles.parameterMap Profiles.otherValues.
Proof.
  apply detectIniType_reads_names_only.
  - unfold Profiles.otherValues. now rewrite dom_fmap_L.
  - reflexivity.
Defined.



(** ** The profile reader *)

(** A profile as PrusaSlicer writes it, with a comment, a blank line, a
    line without an equals sign, an entry said twice and a value that holds
    an equals sign. *)
Example replay_readIniFile :
  let f := readIniFile ("# generated by PrusaSlicer 2.6.0 on 2023-07-01" +:+ nl +:+
                        "layer_height = 0.2" +:+ nl +:+ nl +:+
                        "  notes =  a = b  " +:+ nl +:+
                        "; odd" +:+ nl +:+
                        "empty =" +:+ nl +:+
                        "# comment = 1" +:+ nl +:+
                        "layer_height=0.3") in
  config f !! "layer_height" = Some "0.3" /\ config f !! "notes" = Some "a = b" /\
  config f !! "empty" = Some "" /\ size (config f) = 3%nat /\
  detectedFlavor f = Some PrusaSlicer.
Proof. repeat split; vm_compute; reflexivity. Qed.

Lemma cutAt_split (c : ascii) (s before after : string) :
  cutAt c s = Some (before, after) ->
  s = before +:+ String c after /\ includes c before = false.
Proof.
  revert before. induction s as [|a s IH]; intros before; cbn [cutAt]; [discriminate|].
  destruct (Ascii.eqb_spec a c) as [->|Hne].
  - intros [= <- <-]. now split.
  - destruct (cutAt c s) as [[b t]|]; [|discriminate]. cbn.
    intros [= <- <-]. destruct (IH b eq_refl) as [-> Hb]. split; [reflexivity|].
    cbn [includes]. rewrite Hb, orb_false_r. now apply Ascii.eqb_neq.
Qed.

Lemma cutAt_app (c : ascii) (before after : string) :
  includes c before = false ->
  cutAt c (before +:+ String c after) = Some (before, after).
Proof.
  induction before as [|a b IH]; intros H.
  - rewrite string_app_nil_l. cbn [cutAt]. now rewrite Ascii.eqb_refl.
  - cbn [includes] in H. apply orb_false_iff in H as [Ha Hb].
    rewrite string_app_cons. cbn [cutAt]. rewrite Ha, (IH Hb). reflexivity.
Qed.

Lemma lastChar_includes (s : string) (c : ascii) :
  lastChar s = Some c -> includes c s = true.
Proof.
  intros H. apply lastChar_dropLast in H. rewrite H, includes_app.
  cbn [includes]. now rewrite Ascii.eqb_refl, orb_true_r.
Qed.

Lemma lastChar_app (a b : string) :
  lastChar (a +:+ b) = if isEmpty b then lastChar a else lastChar b.
Proof.
  induction a as [|x a IH]; [now destruct b|].
  rewrite string_app_cons. destruct b as [|y b]; [now rewrite !string_app_nil_r|].
  cbn [isEmpty] in *. cbn [lastChar]. rewrite IH.
  destruct a; reflexivity.
Qed.

Lemma noLineTerminator_app (a b : string) :
  noLineTerminator (a +:+ b) = noLineTerminator a && noLineTerminator b.
Proof.
  induction a as [|x a IH]; [reflexivity|].
  rewrite string_app_cons. cbn [noLineTerminator]. now rewrite IH, andb_assoc.
Qed.

Lemma noLineTerminator_trim (s : string) :
  noLineTerminator s = true -> noLineTerminator (trim s) = true.
Proof.
  intros H. unfold trim.
  destruct (trimStart_split s) as (w1 & H1 & _).
  destruct (trimEnd_split (trimStart s)) as (w2 & H2 & _).
  rewrite H1, H2, !noLineTerminator_app in H.
  apply andb_true_iff in H as [_ H]. now apply andb_true_iff in H as [H _].
Qed.

Lemma noLineTerminator_last (s : string) (c : ascii) :
  noLineTerminator s = true -> lastChar s = Some c -> isLineTerminator c = false.
Proof.
  intros H Hc. apply lastChar_dropLast in Hc. rewrite Hc, noLineTerminator_app in H.
  apply andb_true_iff in H as [_ H]. cbn in H.
  now destruct (isLineTerminator c).
Qed.

Lemma trimStart_fixed (s : string) :
  (forall c r, s = String c r -> isWhiteSpace c = false) -> trimStart s = s.
Proof.
  destruct s as [|c r]; [reflexivity|]. intros H. cbn [trimStart].
  now rewrite (H c r eq_refl).
Qed.

Lemma trim_fixed (s : string) : trimmed s -> trim s = s.
Proof.
  intros [Hhead Hlast]. unfold trim. rewrite (trimStart_fixed s Hhead).
  unfold trimEnd. rewrite trimStart_fixed; [apply string_rev_involutive|].
  intros c r Hr. apply Hlast. now rewrite lastChar_rev, Hr.
Qed.

Lemma trim_blank (s : string) : allWhiteSpace s = true -> trim s = "".
Proof.
  intros H. unfold trim.
  assert (Hs : trimStart s = "").
  { induction s as [|a s IH]; [reflexivity|]. cbn in H |- *.
    apply andb_true_iff in H as [-> H]. now apply IH. }
  now rewrite Hs.
Qed.

Lemma blank_of_trim (s : string) : trim s = "" -> allWhiteSpace s = true.
Proof.
  unfold trim. intros H.
  destruct (trimStart_split s) as (w1 & H1 & Hw1).
  destruct (trimEnd_split (trimStart s)) as (w2 & H2 & Hw2).
  rewrite H, string_app_nil_l in H2. rewrite H1, H2, allWhiteSpace_app.
  now rewrite Hw1, Hw2.
Qed.

Lemma allWhiteSpace_last (s : string) (c : ascii) :
  allWhiteSpace s = true -> lastChar s = Some c -> isWhiteSpace c = true.
Proof.
  intros H Hc. apply lastChar_dropLast in Hc. rewrite Hc, allWhiteSpace_app in H.
  apply andb_true_iff in H as [_ H]. cbn in H. now apply andb_true_iff in H as [H _].
Qed.

(** The trimmed first capture is the text before the equals sign, trimmed. *)
Lemma key_capture_trim (before : string) :
  trim (if isEmpty (trim before)
        then match lastChar before with
             | Some c => String c EmptyString
             | None => EmptyString
             end
        else trim before) = trim before.
Proof.
  destruct (trim before) as [|a t] eqn:E; cbn [isEmpty].
  - apply blank_of_trim in E.
    destruct (lastChar before) as [c|] eqn:Hc; [|reflexivity].
    apply trim_blank. cbn. now rewrite (allWhiteSpace_last _ _ E Hc).
  - rewrite <- E. apply trim_fixed, trim_trimmed.
Qed.

Lemma trim_trimStart (s : string) : trim (trimStart s) = trim s.
Proof.
  unfold trim. f_equal. apply trimStart_fixed. intros c r. apply trimStart_head.
Qed.

Lemma assignment_clean (line key value : string) :
  assignment line = Some (key, value) -> cleanEntry (trim key) (trim value).
Proof.
  unfold assignment. destruct (cutAt "="%char line) as [[before after]|] eqn:Hcut;
    [|discriminate]. cbn.
  destruct (isEmpty before); [discriminate|].
  destruct (noLineTerminator (trimStart after)) eqn:Hnl; [|discriminate].
  cbn [negb]. intros [= <- <-].
  apply cutAt_split in Hcut as [_ Hb].
  rewrite key_capture_trim.
  split; [apply trim_trimmed|]. split; [now apply includes_trim|].
  split; [apply trim_trimmed | now apply noLineTerminator_trim].
Qed.

Lemma readLine_config (acc : IniFile) (line : string) :
  config (readLine acc line) =
  if isBlankOrComment line then config acc
  else match assignment line with
       | Some (key, value) => <[trim key := trim value]> (config acc)
       | None => config acc
       end.
Proof.
  unfold readLine. destruct (isBlankOrComment line); [reflexivity|].
  now destruct (assignment line) as [[key value]|].
Qed.

Lemma readIniFile_invariant (P : string -> string -> Prop) (lines : list string)
    (acc : IniFile) :
  Forall (fun line => forall key value,
            assignment line = Some (key, value) -> P (trim key) (trim value)) lines ->
  map_Forall P (config acc) ->
  map_Forall P (config (foldl readLine acc lines)).
Proof.
  intros Hlines. revert acc.
  induction Hlines as [|line lines Hline _ IH]; intros acc Hacc; [exact Hacc|].
  cbn [foldl]. apply IH. rewrite readLine_config.
  destruct (isBlankOrComment line); [exact Hacc|].
  destruct (assignment line) as [[key value]|] eqn:E; [|exact Hacc].
  apply map_Forall_insert_2; [now apply Hline | exact Hacc].
Qed.

(** X22: in the configuration that [readIniFile] gives, no key and no
    value begins or ends with white space, no key holds an equals sign and
    no value holds a line terminator. *)
Theorem readIniFile_entries_clean (content : string) :
  map_Forall cleanEntry (config (readIniFile content)).
Proof.
  apply readIniFile_invariant; [|apply map_Forall_empty].
  apply Forall_true. intros line key value. apply assignment_clean.
Qed.

Lemma assignment_carriage_return (line key value : string) :
  lastChar line = Some "013"%char ->
  assignment line = Some (key, value) -> trim value = "".
Proof.
  intros Hlast. unfold assignment.
  destruct (cutAt "="%char line) as [[before after]|] eqn:Hcut; [|discriminate].
  cbn. destruct (isEmpty before); [discriminate|].
  destruct (noLineTerminator (trimStart after)) eqn:Hnl; [|discriminate].
  cbn [negb]. intros [= _ <-].
  apply cutAt_split in Hcut as [-> _].
  rewrite lastChar_app in Hlast. cbn [isEmpty] in Hlast.
  change (String "="%char after) with ("=" +:+ after) in Hlast.
  rewrite lastChar_app in Hlast.
  destruct after as [|a after']; [discriminate|]. cbn [isEmpty] in Hlast.
  destruct (trimStart_split (String a after')) as (ws & Hsplit & _).
  rewrite Hsplit, lastChar_app in Hlast.
  destruct (trimStart (String a after')) as [|b value]; [reflexivity|].
  cbn [isEmpty] in Hlast.
  now pose proof (noLineTerminator_last _ _ Hnl Hlast).
Qed.

(** X23: of a content whose lines end in a carriage return (a file with
    CR LF line ends, read by a split at LF), [readIniFile] keeps the
    entries with a blank value only: every value of the configuration is
    the empty string. *)
Theorem readIniFile_carriage_returns (content : string) :
  Forall (fun line => line = "" \/ lastChar line = Some "013"%char)
    (split "010"%char content) ->
  map_Forall (fun _ value => value = "") (config (readIniFile content)).
Proof.
  intros Hlines.
  apply (readIniFile_invariant (fun _ value => value = ""));
    [|apply map_Forall_empty].
  eapply Forall_impl; [exact Hlines|].
  intros line [-> | Hlast] key value; [discriminate|].
  now apply assignment_carriage_return.
Qed.

(** X23, on a sample: two lines that end in a carriage return, the first
    with a value and the second without. *)
Lemma readIniFile_carriage_returns_witness :
  map_Forall (fun _ value => value = "")
    (config (readIniFile ("layer_height = 0.2" +:+ cr +:+ nl +:+
                          "notes = " +:+ cr +:+ nl))).
Proof.
  apply readIniFile_carriage_returns.
  repeat (apply Forall_cons; split;
          [first [left; reflexivity | right; reflexivity]|]).
  apply Forall_nil_2.
Defined.

Lemma split_go_whole (c : ascii) (cur s : string) :
  includes c s = false -> split_go c cur s = [String.rev cur +:+ s].
Proof.
  revert cur. induction s as [|a s IH]; intros cur H; cbn [split_go].
  - now rewrite string_app_nil_r.
  - cbn [includes] in H. apply orb_false_iff in H as [Ha Hs].
    rewrite Ha, (IH _ Hs), string_rev_cons, string_app_assoc. reflexivity.
Qed.

Lemma split_go_app (c : ascii) (cur a b : string) :
  split_go c cur (a +:+ String c b) = split_go c cur a ++ split_go c "" b.
Proof.
  revert cur. induction a as [|x a IH]; intros cur.
  - rewrite string_app_nil_l. cbn [split_go]. now rewrite Ascii.eqb_refl.
  - rewrite string_app_cons. cbn [split_go].
    destruct (Ascii.eqb x c); [|apply IH].
    now rewrite IH.
Qed.

(** Reading a content and one more line is reading the content and then
    the line. *)
Lemma readIniFile_app (content line : string) :
  includes "010"%char line = false ->
  readIniFile (content +:+ nl +:+ line) = readLine (readIniFile content) line.
Proof.
  intros Hline. unfold readIniFile, split.
  change (nl +:+ line) with (String "010"%char line).
  rewrite split_go_app, (split_go_whole _ "" line Hline), foldl_app.
  reflexivity.
Qed.

Lemma trimStart_app (s t : string) :
  trimStart s <> "" -> trimStart (s +:+ t) = trimStart s +:+ t.
Proof.
  induction s as [|a s IH]; [contradiction|].
  rewrite string_app_cons. cbn [trimStart].
  destruct (isWhiteSpace a); [exact IH | reflexivity].
Qed.

Lemma trimStart_blank_app (s t : string) :
  trimStart s = "" -> trimStart (s +:+ t) = trimStart t.
Proof.
  induction s as [|a s IH]; [reflexivity|].
  rewrite string_app_cons. cbn [trimStart].
  destruct (isWhiteSpace a); [exact IH | discriminate].
Qed.

Lemma noLineTerminator_trimStart (s : string) :
  noLineTerminator s = true -> noLineTerminator (trimStart s) = true.
Proof.
  intros H. destruct (trimStart_split s) as (w & Hs & _).
  rewrite Hs, noLineTerminator_app in H. now apply andb_true_iff in H as [_ H].
Qed.

Lemma noLineTerminator_no_newline (s : string) :
  noLineTerminator s = true -> includes "010"%char s = false.
Proof.
  induction s as [|a s IH]; [reflexivity|].
  cbn [noLineTerminator includes]. intros H. apply andb_true_iff in H as [Ha Hs].
  rewrite (IH Hs), orb_false_r. unfold isLineTerminator in Ha.
  apply negb_true_iff, orb_false_iff in Ha as [Ha _].
  apply Z.eqb_neq in Ha. apply Ascii.eqb_neq. intros ->. now apply Ha.
Qed.



Lemma takeWord_app (token rest : string) :
  takeWord token = token ->
  (rest = "" \/ exists c r, rest = String c r /\ isWhiteSpace c = true) ->
  takeWord (token +:+ rest) = token.
Proof.
  intros Htoken Hrest. induction token as [|a t IH].
  - rewrite string_app_nil_l. destruct Hrest as [-> | (c & r & -> & Hc)]; [reflexivity|].
    cbn. now rewrite Hc.
  - rewrite string_app_cons. cbn [takeWord] in Htoken |- *.
    destruct (isWhiteSpace a); [discriminate|].
    injection Htoken as Ht. now rewrite (IH Ht).
Qed.

(** X25: one more header line at the end of a content, the words
    [# generated by] and then a word, changes no entry, and sets the flavor
    to PrusaSlicer if the word holds that name, else to SuperSlicer if it
    holds that name, else leaves the flavor found so far. *)
Theorem readIniFile_header_line (content token rest : string) :
  token <> "" -> takeWord token = token ->
  (rest = "" \/ exists c r, rest = String c r /\ isWhiteSpace c = true) ->
  includes "010"%char (token +:+ rest) = false ->
  let before := readIniFile content in
  let after := readIniFile (content +:+ nl +:+ "# generated by " +:+ token +:+ rest) in
  config after = config before /\
  detectedFlavor after =
    if includesText "PrusaSlicer" token then Some PrusaSlicer
    else if includesText "SuperSlicer" token then Some SuperSlicer
    else detectedFlavor before.
Proof.
  intros Hne Htoken Hrest Hlf. cbv zeta.
  rewrite readIniFile_app
    by (rewrite includes_app; now rewrite Hlf).
  unfold readLine.
  assert (Hmatch : slicerMatch ("# generated by " +:+ token +:+ rest) = Some token).
  { destruct token as [|a t]; [contradiction|].
    cbn [takeWord] in Htoken. destruct (isWhiteSpace a) eqn:Ha; [discriminate|].
    change ("# generated by " +:+ String a t +:+ rest)
      with (String "#" (" generated by " +:+ (String a t +:+ rest))).
    unfold slicerMatch. rewrite Ascii.eqb_refl.
    change (trimStart (" generated by " +:+ (String a t +:+ rest)))
      with ("generated by " +:+ (String a t +:+ rest)).
    change (afterWord "generated" ("generated by " +:+ (String a t +:+ rest)))
      with (Some (" by " +:+ (String a t +:+ rest))).
    cbn [mbind option_bind].
    change (afterSpaces (" by " +:+ (String a t +:+ rest)))
      with (Some ("by " +:+ (String a t +:+ rest))).
    cbn [mbind option_bind].
    change (afterWord "by" ("by " +:+ (String a t +:+ rest)))
      with (Some (" " +:+ (String a t +:+ rest))).
    cbn [mbind option_bind].
    change (afterSpaces (" " +:+ (String a t +:+ rest)))
      with (Some (trimStart (String a t +:+ rest))).
    cbn [mbind option_bind].
    rewrite string_app_cons. cbn [trimStart]. rewrite Ha.
    rewrite <- string_app_cons, (takeWord_app (String a t) rest); [reflexivity | | exact Hrest].
    cbn [takeWord]. now rewrite Ha, Htoken. }
  rewrite Hmatch.
  change (isBlankOrComment ("# generated by " +:+ token +:+ rest)) with true.
  cbn. split; reflexivity.
Qed.

(** X25, on a sample: a header of SuperSlicer after an entry. *)
Lemma readIniFile_header_line_witness :
  config (readIniFile ("layer_height = 0.2" +:+ nl +:+ "# generated by "
                       +:+ "SuperSlicer_2.5.59" +:+ " on 2024-01-01"))
  = config (readIniFile "layer_height = 0.2") /\
  detectedFlavor (readIniFile ("layer_height = 0.2" +:+ nl +:+ "# generated by "
                               +:+ "SuperSlicer_2.5.59" +:+ " on 2024-01-01"))
  = (if includesText "PrusaSlicer" "SuperSlicer_2.5.59" then Some PrusaSlicer
     else if includesText "SuperSlicer" "SuperSlicer_2.5.59" then Some SuperSlicer
     else detectedFlavor (readIniFile "layer_height = 0.2")).
Proof.
  refine (readIniFile_header_line "layer_height = 0.2" "SuperSlicer_2.5.59"
            " on 2024-01-01" _ _ _ _).
  - discriminate.
  - reflexivity.
  - right. now exists " "%char, "on 2024-01-01".
  - reflexivity.
Defined.

Lemma readIniFile_explicit_type (content type : string) :
  noLineTerminator type = true ->
  config (readIniFile (content +:+ nl +:+ "ini_type = " +:+ type)) !! "ini_type"
  = Some (trim type).
Proof.
  intros Hnl.
  assert (Hline : includes "010"%char ("ini_type = " +:+ type) = false)
    by now rewrite includes_app, (noLineTerminator_no_newline _ Hnl).
  rewrite (readIniFile_app content _ Hline), readLine_config.
  change (isBlankOrComment ("ini_type = " +:+ type)) with false.
  unfold assignment.
  change ("ini_type = " +:+ type) with ("ini_type " +:+ String "="%char (" " +:+ type)).
  rewrite (cutAt_app "="%char "ini_type " (" " +:+ type) eq_refl).
  cbn [mbind option_bind isEmpty].
  change (trimStart (" " +:+ type)) with (trimStart type).
  rewrite (noLineTerminator_trimStart _ Hnl). cbn [negb].
  rewrite key_capture_trim, trim_trimStart.
  change (trim "ini_type ") with "ini_type". apply lookup_insert_eq.
Qed.

(** X26: a last line of the form in which [processConfigBundle] writes the
    type of a profile, [ini_type = ] and the type, is read by [readIniFile]
    and detected by [detectIniType] as that type, trimmed, whatever the
    rest of the profile and the parameter map are. *)
Theorem explicit_type_is_detected (pm : ParameterMap) (content type : string) :
  noLineTerminator type = true -> trim type <> "" ->
  detectIniType pm (config (readIniFile (content +:+ nl +:+ "ini_type = " +:+ type)))
  = Some (trim type).
Proof.
  intros Hnl Hne. unfold detectIniType.
  rewrite (readIniFile_explicit_type content type Hnl). cbn [truthyOpt].
  apply truthy_nonempty in Hne. now rewrite Hne.
Qed.

(** X26, on a sample: a filament profile out of a bundle. *)
Lemma explicit_type_is_detected_witness :
  detectIniType Sample.parameterMap
    (config (readIniFile ("# generated by PrusaSlicer" +:+ nl +:+ nl +:+ "ini_type = "
                          +:+ "filament")))
  = Some (trim "filament").
Proof.
  refine (explicit_type_is_detected Sample.parameterMap
            ("# generated by PrusaSlicer" +:+ nl) "filament" _ _).
  - reflexivity.
  - discriminate.
Defined.

(** ** The driver *)

(** The expectations of [index.test.ts] on the reset between two profiles,
    and a run of the loop of [main] on a filament profile. *)
Example replay_resetLoop :
  let st (interactive : bool) (flags : ResetFlags) :=
    mkStatus false false (JsNumber.ofZ 100) interactive false (Some PrusaSlicer)
      (Some "print") (Some "test") (Some "top surface") (Some (JsNumber.ofZ 5))
      (mkDirs None "/tmp" None None) (mkToVar (Some true) (Some false) (Some true))
      flags
      (mkStatusValue (Some "OVERWRITE") None Sample.nozzle04 None None None) in
  let after interactive flags :=
    status (resetLoop (Sample.world (st interactive flags) [])).2 in
  let none := mkResetFlags false false false false false false in
  let some := mkResetFlags true false true false false false in
  (maxTemp (after false none) = PrimFloat.zero /\
   profileName (after false none) = None /\
   toVar (after false none) = mkToVar None None None /\
   ironingType (after false none) = None /\
   iniType (after false none) = None) /\
  iniType (after true none) = Some "print" /\
  value (after false none)
    = mkStatusValue (Some "OVERWRITE") None Sample.nozzle04 None None None /\
  value (after false some) = mkStatusValue None None None None None None /\
  reset (after false some) = none.
Proof. vm_compute. repeat split; reflexivity. Qed.

Example replay_convertEntries :
  let w' := (convertEntries Profiles.parameterMap Sample.keep Profiles.filamentMap
               "PETG"
               ["filament_type"; "temperature"; "bed_temperature"; "filament_notes"]
               Profiles.filamentWorld).2 in
  newHash w' !! "filament_type" = Some (HStr "PETG") /\
  newHash w' !! "nozzle_temperature" = Some (HStr "240") /\
  newHash w' !! "hot_plate_temp" = Some (HStr "85") /\
  newHash w' !! "cool_plate_temp" = Some (HStr "85") /\
  size (newHash w') = 4%nat /\
  JsNumber.toString (maxTemp (status w')) = "240".
Proof. repeat split; vm_compute; reflexivity. Qed.

(** [resetLoop], in closed form. *)
Lemma resetLoop_closed (w : World) :
  resetLoop w =
  (tt,
   let st := status w in
   let forget (key : StickyKey) (v : StatusValue) :=
     if resetFlag key (reset st) then clearStickyValue key v else v in
   mkWorld (sourceIni w)
     (mkStatus (forceOut st) (legacyOverwrite st) PrimFloat.zero (interactiveMode st)
        (outdirWasProvided st) (slicerFlavor st)
        (if interactiveMode st then iniType st else None) None None
        (iterationsLeft st) (dirs st) (mkToVar None None None)
        (mkResetFlags false false false false false false)
        (foldl (fun v key => forget key v) (value st) resetKeys))
     ∅ (prompts w)).
Proof.
  destruct w as [src st out ps].
  destruct st as [fo lo mt im op fl ty pn it il ds tv rs vs].
  destruct rs as [r1 r2 r3 r4 r5 r6]. destruct vs as [v1 v2 v3 v4 v5 v6].
  destruct im, r1, r2, r3, r4, r5, r6; reflexivity.
Qed.

(** X27: [askYesToAll] and then [resetLoop]: a choice of the operator is
    forgotten at the end of a profile exactly when the operator, asked
    because more profiles are to come, did not answer with all remaining
    profiles, or, not asked, when the reset flag of the choice was set
    already; no reset flag stays set. *)
Theorem askYesToAll_then_resetLoop (menu : Menu) (param : StickyKey) (file : string)
    (w : World) :
  let w' := (resetLoop (askYesToAll menu param file w).2).2 in
  let forgotten :=
    if moreToCome (status w) then
      match menu (yesToAllPrompt (status w) param file) true
              [allRemaining; "JUST " +:+ file] with
      | ChoiceStr c => negb (String.eqb c allRemaining)
      | ChoiceList _ => true
      end
    else resetFlag param (reset (status w)) in
  stickyValue param (value (status w')) =
    (if forgotten then VUndef else stickyValue param (value (status w))) /\
  (forall key, resetFlag key (reset (status w')) = false).
Proof.
  cbv zeta. rewrite resetLoop_closed. cbv zeta.
  unfold askYesToAll, mbind, M_bind, reads, ask, modifyStatus.
  destruct w as [src st out ps].
  destruct st as [fo lo mt im op fl ty pn it il ds tv rs vs].
  destruct rs as [r1 r2 r3 r4 r5 r6]. destruct vs as [v1 v2 v3 v4 v5 v6].
  cbn [status sourceIni newHash prompts negb]. 
  destruct (moreToCome _); cbn [negb snd status reset value].
  - set (answer := match menu _ true _ with
                   | ChoiceStr c => negb (String.eqb c allRemaining)
                   | ChoiceList _ => true
                   end).
    split; [|now intros []].
    destruct param, answer, r1, r2, r3, r4, r5, r6; reflexivity.
  - split; [|now intros []].
    destruct param, r1, r2, r3, r4, r5, r6; reflexivity.
Qed.

(** X28: [resetLoop] empties the output map, keeps the slicer flavor, keeps
    the profile type in interactive mode only, and clears the combination
    flags and the ironing type: [calculatePrintParams] right after it
    writes the default order and no ironing. *)
Theorem resetLoop_clears_the_flags (pm : ParameterMap) (menu : Menu) (w : World) :
  let w1 := (resetLoop w).2 in
  let w2 := (calculatePrintParams pm menu w1).2 in
  newHash w1 = ∅ /\
  slicerFlavor (status w1) = slicerFlavor (status w) /\
  iniType (status w1) = (if interactiveMode (status w) then iniType (status w) else None) /\
  newHash w2 !! "wall_infill_order" = Some (HStr "inner wall/outer wall/infill") /\
  newHash w2 !! "ironing_type" = Some (HStr "no ironing").
Proof.
  cbv zeta.
  destruct (calculatePrintParams_flags pm menu (resetLoop w).2) as [Ho Hi].
  rewrite Ho, Hi, resetLoop_closed. cbv zeta. cbn. auto.
Qed.

Lemma frames_trackMaxTemp (parameter : string) (newValue : Converted) :
  frames (trackMaxTemp parameter newValue).
Proof.
  unfold trackMaxTemp. destruct newValue as [|s|l]; try apply frames_ret.
  destruct (_ || _); [|apply frames_ret].
  apply frames_bind; [apply frames_reads|]. intros highest.
  destruct (PrimFloat.ltb _ _); [|apply frames_ret]. now intros w.
Qed.

Lemma sameOutput_trackMaxTemp (parameter : string) (newValue : Converted) (w : World) :
  newHash (trackMaxTemp parameter newValue w).2 = newHash w.
Proof.
  unfold trackMaxTemp. destruct newValue as [|s|l]; try reflexivity.
  destruct (_ || _); [|reflexivity].
  unfold mbind, M_bind, reads. now destruct (PrimFloat.ltb _ _).
Qed.

(** What one turn of the loop writes. *)
Lemma convertEntry_writes (pm : ParameterMap) (menu : Menu)
    (typeMap : gmap string Target) (file parameter type : string) (w : World) :
  iniType (status w) = Some type -> tableGet pm type = Some typeMap ->
  let w' := (convertEntry pm menu typeMap file parameter w).2 in
  sameInputs w w' /\
  forall key,
    newHash w' !! key = newHash w !! key \/
    key ∈ ["support_type"; "support_style"] \/
    exists target, typeMap !! parameter = Some target /\ key ∈ targetKeys target.
Proof.
  intros Hty Hpm. cbv zeta. unfold convertEntry.
  destruct (String.eqb parameter "profile_name");
    [split; [now repeat split | now left]|].
  destruct (negb _); [split; [apply sameInputs_refl | now left]|].
  unfold mbind, M_bind.
  pose proof (frames_convertParams pm menu parameter (Some file) w) as Hframe.
  pose proof (sameOutput_convertParams pm menu parameter (Some file) w) as Hout.
  destruct (convertParams pm menu parameter (Some file) w) as [newValue w1].
  cbn [snd] in Hframe, Hout.
  assert (Hcall : forall key,
    newHash w1 !! key = newHash w !! key \/
    key ∈ ["support_type"; "support_style"] \/
    exists target, typeMap !! parameter = Some target /\ key ∈ targetKeys target).
  { intros key. destruct (decide (key ∈ writtenKeys pm parameter w)) as [Hin|Hout'];
      [|left; now apply Hout].
    right. unfold writtenKeys in Hin. rewrite Hty in Hin. cbn in Hin.
    rewrite Hpm in Hin. apply elem_of_app in Hin as [Hin|Hin].
    - right. destruct (typeMap !! parameter) as [[k|ks]|];
        [now apply elem_of_nil in Hin | | now apply elem_of_nil in Hin].
      now exists (TKeys ks).
    - left. destruct (String.eqb parameter "support_material_style");
        [exact Hin | now apply elem_of_nil in Hin]. }
  destruct (negb (truthyConverted newValue)); [now split|].
  destruct (typeMap !! parameter) as [[mappedKey|ks]|] eqn:Htarget;
    [| now split |].
  - pose proof (frames_trackMaxTemp parameter newValue) as Htrack.
    split.
    + eapply sameInputs_trans; [exact Hframe|].
      eapply sameInputs_trans; [|apply Htrack]. now repeat split.
    + intros key. cbn. rewrite sameOutput_trackMaxTemp. cbn.
      destruct (decide (key = mappedKey)) as [->|Hne].
      * right. right. exists (TKey mappedKey). split; [reflexivity|]. now left.
      * rewrite lookup_insert_ne by congruence. apply Hcall.
  - split.
    + eapply sameInputs_trans; [exact Hframe | apply frames_trackMaxTemp].
    + intros key. rewrite sameOutput_trackMaxTemp. apply Hcall.
Qed.

(** X29: the loop of [main] over the parameters of a profile, with the
    type map of the current profile type, leaves the source as it is and
    writes no key of the output map but targets that the type map gives for
    parameters of the profile, and [support_type] and [support_style]. *)
Theorem convertEntries_writes_mapped_keys (pm : ParameterMap) (menu : Menu)
    (typeMap : gmap string Target) (file type : string) (keys : list string)
    (w : World) :
  iniType (status w) = Some type -> tableGet pm type = Some typeMap ->
  let w' := (convertEntries pm menu typeMap file keys w).2 in
  sourceIni w' = sourceIni w /\
  forall key,
    newHash w' !! key = newHash w !! key \/
    key ∈ ["support_type"; "support_style"] \/
    exists parameter target,
      parameter ∈ keys /\ typeMap !! parameter = Some target /\
      key ∈ targetKeys target.
Proof.
  intros Hty Hpm. cbv zeta. unfold convertEntries.
  revert w Hty. induction keys as [|parameter keys IH]; intros w Hty.
  - split; [reflexivity | now left].
  - cbn [forEach]. unfold mbind, M_bind.
    destruct (convertEntry_writes pm menu typeMap file parameter type w Hty Hpm)
      as [Hframe Hstep]. cbv zeta in Hframe, Hstep.
    destruct (convertEntry pm menu typeMap file parameter w) as [u w1].
    cbn [snd] in Hframe, Hstep.
    destruct Hframe as (Hsrc & _ & Hty1). rewrite Hty in Hty1.
    destruct (IH w1 Hty1) as [Hsrc' Hrest].
    split; [congruence|].
    intros key. destruct (Hrest key) as [Hsame | [Hsupport | Hmapped]].
    + rewrite Hsame. destruct (Hstep key) as [H | [H | (target & H1 & H2)]];
        [now left | right; now left |].
      right. right. exists parameter, target. split; [now left | now split].
    + right. now left.
    + right. right. destruct Hmapped as (p & target & Hp & H1 & H2).
      exists p, target. split; [now right | now split].
Qed.

(** X29, on a sample: a filament profile of four parameters. *)
Lemma convertEntries_writes_mapped_keys_witness :
  let keys := ["filament_type"; "temperature"; "bed_temperature"; "filament_notes"] in
  let w' := (convertEntries Profiles.parameterMap Sample.keep Profiles.filamentMap
               "PETG" keys Profiles.filamentWorld).2 in
  sourceIni w' = sourceIni Profiles.filamentWorld /\
  forall key,
    newHash w' !! key = newHash Profiles.filamentWorld !! key \/
    key ∈ ["support_type"; "support_style"] \/
    exists parameter target,
      parameter ∈ keys /\ Profiles.filamentMap !! parameter = Some target /\
      key ∈ targetKeys target.
Proof.
  exact (convertEntries_writes_mapped_keys Profiles.parameterMap Sample.keep
           Profiles.filamentMap "PETG" "filament"
           ["filament_type"; "temperature"; "bed_temperature"; "filament_notes"]
           Profiles.filamentWorld eq_refl eq_refl).
Defined.

Lemma SFltb_trans (x y z : spec_float) :
  SFltb x y = true -> SFltb y z = true -> SFltb x z = true.
Proof.
  unfold SFltb, SFcompare.
  destruct x as [sx|sx| |sx mx ex], y as [sy|sy| |sy my ey], z as [sz|sz| |sz mz ez];
    try discriminate;
    repeat match goal with s : bool |- _ => destruct s end;
    try discriminate; try reflexivity;
    change (PosDef.Pos.compare_cont Eq ?a ?b) with (Pos.compare a b);
    destruct (Z.compare_spec ex ey), (Z.compare_spec ey ez), (Z.compare_spec ex ez);
    try discriminate; try reflexivity; try lia;
    destruct (Pos.compare_spec mx my), (Pos.compare_spec my mz),
      (Pos.compare_spec mx mz);
    cbn; try discriminate; try reflexivity; try lia.
Qed.

(** [<] on the numbers is transitive. *)
Lemma ltb_trans (x y z : float) :
  PrimFloat.ltb x y = true -> PrimFloat.ltb y z = true -> PrimFloat.ltb x z = true.
Proof. rewrite !ltb_spec. apply SFltb_trans. Qed.

Global Instance sameMaxTemp_preorder : PreOrder sameMaxTemp.
Proof. split; [now intros w | intros a b c; unfold sameMaxTemp; congruence]. Qed.

Global Instance notLowered_preorder : PreOrder notLowered.
Proof.
  split; [now left|].
  intros a b c [Hab | Hab] [Hbc | Hbc]; unfold notLowered.
  - left. congruence.
  - right. now rewrite <- Hab.
  - right. now rewrite Hbc.
  - right. exact (ltb_trans _ _ _ Hab Hbc).
Qed.

Lemma sameMaxTemp_setOutput key v : keeps sameMaxTemp (setOutput key v).
Proof. now intros w. Qed.

Lemma sameMaxTemp_ask menu prompt one options :
  keeps sameMaxTemp (ask menu prompt one options).
Proof. now intros w. Qed.

Lemma sameMaxTemp_setToVar f : keeps sameMaxTemp (modifyStatus (setToVar f)).
Proof. now intros w. Qed.

Lemma sameMaxTemp_setIroningType t :
  keeps sameMaxTemp (modifyStatus (setIroningType t)).
Proof. now intros w. Qed.

Lemma sameMaxTemp_setValue f : keeps sameMaxTemp (modifyStatus (setValue f)).
Proof. now intros w. Qed.

Lemma sameMaxTemp_specialCases menu parameter file newValue defaultSpeed :
  Forall (fun e => keeps sameMaxTemp e.2)
    (specialCases menu parameter file newValue defaultSpeed).
Proof.
  unfold specialCases.
  repeat (apply Forall_cons; split;
          [cbn [snd];
           solve [apply keeps_reads; typeclasses eauto
                 | unfold rule_ironing_type, rule_support_material_style,
                     handleCompatibleCondition;
                   repeat first
                     [ apply sameMaxTemp_setOutput | apply sameMaxTemp_ask
                     | apply sameMaxTemp_setIroningType | apply sameMaxTemp_setValue
                     | keep_step ] ] |]).
  apply Forall_nil_2.
Qed.

Lemma sameMaxTemp_convertParams pm menu parameter file w :
  maxTemp (status (convertParams pm menu parameter file w).2) = maxTemp (status w).
Proof.
  apply (keeps_convertParams sameMaxTemp).
  - intros newValue typeMap keys _ _. apply Forall_true. intros key.
    apply sameMaxTemp_setOutput.
  - intros _ f. apply sameMaxTemp_setToVar.
  - intros newValue defaultSpeed rule E.
    exact (tableGet_Forall _ _ _ _ (sameMaxTemp_specialCases _ _ _ _ _) E).
Qed.

Lemma notLowered_trackMaxTemp parameter newValue :
  keeps notLowered (trackMaxTemp parameter newValue).
Proof.
  intros w. unfold trackMaxTemp. destruct newValue as [|s|l]; try now left.
  destruct (_ || _); [|now left].
  unfold mbind, M_bind, reads.
  destruct (PrimFloat.ltb _ _) eqn:E; [now right | now left].
Qed.

Lemma sameMaxTemp_trackMaxTemp parameter newValue :
  parameter ∉ temperatureNames ->
  keeps sameMaxTemp (trackMaxTemp parameter newValue).
Proof.
  intros Hp w. unfold trackMaxTemp. destruct newValue as [|s|l]; try reflexivity.
  unfold temperatureNames in Hp.
  apply not_elem_of_cons in Hp as [H1 Hp]. apply not_elem_of_cons in Hp as [H2 _].
  apply String.eqb_neq in H1, H2. now rewrite H1, H2.
Qed.

(** What one turn of the loop does to the highest temperature, from what
    the tracking at its end does. *)
Lemma convertEntry_maxTemp (R : World -> World -> Prop) `{!PreOrder R}
    (pm : ParameterMap) (menu : Menu) (typeMap : gmap string Target)
    (file parameter : string) :
  (forall w w', sameMaxTemp w w' -> R w w') ->
  (forall newValue, keeps R (trackMaxTemp parameter newValue)) ->
  keeps R (convertEntry pm menu typeMap file parameter).
Proof.
  intros Hsame Htrack. unfold convertEntry.
  destruct (String.eqb parameter "profile_name");
    [intros w; now apply Hsame|].
  destruct (negb _); [apply keeps_ret; typeclasses eauto|].
  apply keeps_bind; [typeclasses eauto | |].
  { intros w. apply Hsame. apply sameMaxTemp_convertParams. }
  intros newValue. destruct (negb _); [apply keeps_ret; typeclasses eauto|].
  destruct (typeMap !! parameter) as [[mappedKey|ks]|];
    [| apply keeps_ret; typeclasses eauto | apply Htrack].
  apply keeps_bind; [typeclasses eauto | | intros _; apply Htrack].
  intros w. now apply Hsame.
Qed.

(** X30 *)
(** X30: the loop of [main] over the parameters of a profile never lowers
    the highest temperature of the state: it leaves it as it is or raises
    it; and it leaves it as it is when the profile has neither
    [first_layer_temperature] nor [temperature]. *)
Theorem convertEntries_max_temperature (pm : ParameterMap) (menu : Menu)
    (typeMap : gmap string Target) (file : string) (keys : list string) (w : World) :
  let before := maxTemp (status w) in
  let after := maxTemp (status (convertEntries pm menu typeMap file keys w).2) in
  (after = before \/ PrimFloat.ltb before after = true) /\
  ((forall parameter, parameter ∈ keys -> parameter ∉ temperatureNames) ->
   after = before).
Proof.
  cbv zeta. split.
  - apply (keeps_forEach notLowered), Forall_true. intros parameter.
    apply convertEntry_maxTemp; [typeclasses eauto | | apply notLowered_trackMaxTemp].
    intros w1 w2 H. now left.
  - intros Hkeys. apply (keeps_forEach sameMaxTemp).
    apply Forall_forall. intros parameter Hin.
    apply convertEntry_maxTemp; [typeclasses eauto | auto |].
    intros newValue. apply sameMaxTemp_trackMaxTemp. now apply Hkeys.
Qed.
